(** * Price monitor server (src/index.ts): a shallow embedding and its properties

    The file follows the layout of [index.ts]:
    - [JS]: the parts of the JavaScript runtime the server calls
      (binary64 numbers, truthiness, [parseFloat], [Number.prototype.toFixed],
      [String.prototype.split], JSON values);
    - [JSON]: a reference implementation of [JSON.parse];
    - [Monitor]: the class [PriceMonitorServer], one definition per method,
      handlers written in a state-and-exception monad over the server's
      world (fields of the object, client sockets, console, timers), and
      the event loop that runs them;
    - the vocabulary of the properties, with the sample inputs;
    - the properties, one part per subject. *)

From Stdlib Require Import ZArith Lia List String Ascii DecimalString.
From Stdlib Require DecimalFacts DecimalPos DecimalN.
From Stdlib Require Import PrimFloat SpecFloat FloatOps.
From stdpp Require Import base option list strings gmap.

Local Open Scope Z_scope.

(** ** The JavaScript runtime *)

Module JS.

(** A JS [number] is an IEEE 754 binary64 value: Rocq's primitive [float]. *)
Abbreviation number := float.

(** [x !== x], the test that characterises NaN. *)
Definition isNaN (x : number) : bool := negb (PrimFloat.eqb x x).

(** [x === y] on numbers. *)
Definition strict_equal (x y : number) : bool := PrimFloat.eqb x y.

(** [ToBoolean] on numbers: [+0], [-0] and [NaN] are falsy. *)
Definition truthy (x : number) : bool :=
  negb (PrimFloat.eqb x 0%float) && negb (isNaN x).

(** The number nearest to [(-1)^neg * m * 10^e] (ties to even), as the
    literal grammars of [parseFloat] and [JSON.parse] require. *)
Definition of_decimal (neg : bool) (m : N) (e : Z) : number :=
  match m with
  | N0 => if neg then PrimFloat.neg_zero else PrimFloat.zero
  | Npos p =>
      let num := Z.to_pos (Z.pos p * 10 ^ Z.max e 0) in
      let den := Z.to_pos (10 ^ Z.max (- e) 0) in
      SF2Prim (SFdiv prec emax (S754_finite neg num 0) (S754_finite false den 0))
  end.

(** *** Decimal literals *)

Definition is_digit (c : ascii) : bool :=
  let n := N_of_ascii c in ((48 <=? n) && (n <=? 57))%N.

Definition digit_val (c : ascii) : N := (N_of_ascii c - 48)%N.

(** Longest prefix of digits, and the rest. *)
Fixpoint span_digits (s : list ascii) : list ascii * list ascii :=
  match s with
  | c :: r => if is_digit c then let '(d, r') := span_digits r in (c :: d, r')
              else ([], s)
  | [] => ([], [])
  end.

Definition digits_val (ds : list ascii) : N :=
  fold_left (fun acc c => (10 * acc + digit_val c)%N) ds 0%N.

(** [ExponentPart]: [e] or [E], an optional sign, at least one digit.
    Returns the exponent and the rest; [None] when there is no well-formed
    exponent part at the head of [s]. *)
Definition exponent_part (s : list ascii) : option (Z * list ascii) :=
  match s with
  | c :: r =>
      if (Ascii.eqb c "e" || Ascii.eqb c "E")%bool then
        let '(neg, r1) :=
          match r with
          | "-"%char :: r1 => (true, r1)
          | "+"%char :: r1 => (false, r1)
          | _ => (false, r)
          end in
        match span_digits r1 with
        | ([], _) => None
        | (ds, r2) =>
            let v := Z.of_N (digits_val ds) in
            Some (if neg then - v else v, r2)
        end
      else None
  | [] => None
  end.

(** Value of [int.frac] scaled by [10^ex]. *)
Definition decimal_value (neg : bool) (int frac : list ascii) (ex : Z) : number :=
  of_decimal neg (digits_val (int ++ frac)) (ex - Z.of_nat (length frac)).

(** [StrWhiteSpaceChar]: white space and line terminators.  Strings are
    held in UTF-8, so a character is one, two or three bytes: TAB, LF, VT,
    FF, CR and SP; U+00A0; U+1680, U+2000 to U+200A, U+2028, U+2029, U+202F,
    U+205F, U+3000 and U+FEFF. *)
Definition is_whitespace (c : ascii) : bool :=
  let n := N_of_ascii c in
  ((9 <=? n) && (n <=? 13) || (n =? 32))%N.

Definition is_whitespace2 (c1 c2 : ascii) : bool :=
  ((N_of_ascii c1 =? 194) && (N_of_ascii c2 =? 160))%N.

Definition is_whitespace3 (c1 c2 c3 : ascii) : bool :=
  let a := N_of_ascii c1 in
  let b := N_of_ascii c2 in
  let c := N_of_ascii c3 in
  ((a =? 225) && (b =? 154) && (c =? 128)
   || (a =? 226) && (b =? 128)
      && ((128 <=? c) && (c <=? 138) || (c =? 168) || (c =? 169) || (c =? 175))
   || (a =? 226) && (b =? 129) && (c =? 159)
   || (a =? 227) && (b =? 128) && (c =? 128)
   || (a =? 239) && (b =? 187) && (c =? 191))%N.

Fixpoint trim_start (s : list ascii) : list ascii :=
  match s with
  | [] => []
  | c1 :: r1 =>
      if is_whitespace c1 then trim_start r1
      else
        match r1 with
        | [] => s
        | c2 :: r2 =>
            if is_whitespace2 c1 c2 then trim_start r2
            else
              match r2 with
              | [] => s
              | c3 :: r3 => if is_whitespace3 c1 c2 c3 then trim_start r3 else s
              end
        end
  end.

Fixpoint starts_with (p s : list ascii) : bool :=
  match p, s with
  | [], _ => true
  | a :: p', b :: s' => Ascii.eqb a b && starts_with p' s'
  | _ :: _, [] => false
  end.

(** [StrUnsignedDecimalLiteral], longest match at the head of [s]. *)
Definition unsigned_literal (neg : bool) (s : list ascii) : number :=
  if starts_with (list_ascii_of_string "Infinity") s then
    (if neg then PrimFloat.neg_infinity else PrimFloat.infinity)
  else
    let '(int, r) := span_digits s in
    let '(frac, r1, dotted) :=
      match r with
      | "."%char :: r' => let '(f, r1) := span_digits r' in (f, r1, true)
      | _ => ([], r, false)
      end in
    match int, frac with
    | [], [] => PrimFloat.nan
    | _, _ =>
        let r2 := if dotted then r1 else r in
        match exponent_part r2 with
        | Some (ex, _) => decimal_value neg int frac ex
        | None => decimal_value neg int frac 0
        end
    end.

(** [parseFloat] on a string: leading white space is skipped, the longest
    prefix that is a [StrDecimalLiteral] is converted, and what follows it is
    ignored; [NaN] when there is no such prefix. *)
Definition parseFloat_string (s : string) : number :=
  match trim_start (list_ascii_of_string s) with
  | "-"%char :: r => unsigned_literal true r
  | "+"%char :: r => unsigned_literal false r
  | r => unsigned_literal false r
  end.

(** *** Printing numbers *)

Definition string_of_N (n : N) : string := NilZero.string_of_uint (N.to_uint n).

(** Number of decimal digits of [n > 0]. *)
Definition decimal_length (n : Z) : Z := Z.of_nat (String.length (string_of_N (Z.to_N n))).

(** The digits [s] and the position [k] of [Number::toString] for an integer
    [X >= 1] that is the exact value of [x]: the least [n <= 17] for which
    some [n]-digit [s] has [s * 10^(k - n)] round to [x]; of two such [s] the
    closer to [X], and the even one when they are as close. *)
Definition rounds_to (x : number) (s : Z) (e : Z) : bool :=
  PrimFloat.eqb (of_decimal false (Z.to_N s) e) x.

Fixpoint shortest_digits (x : number) (X k0 : Z) (tries : nat) (n : Z) : Z * Z :=
  let p := 10 ^ (k0 - n) in
  let lo := X / p in
  let hi := lo + 1 in
  let norm (s : Z) := if s =? 10 ^ n then (10 ^ (n - 1), k0 + 1) else (s, k0) in
  let ok_lo := rounds_to x lo (k0 - n) in
  let ok_hi := rounds_to x hi (k0 - n) in
  let d_lo := X - lo * p in
  let d_hi := hi * p - X in
  match ok_lo, ok_hi, tries with
  | true, true, _ =>
      if d_lo <? d_hi then norm lo
      else if d_hi <? d_lo then norm hi
      else if Z.even lo then norm lo else norm hi
  | true, false, _ => norm lo
  | false, true, _ => norm hi
  | false, false, S tries' => shortest_digits x X k0 tries' (n + 1)
  | false, false, O => norm lo
  end.

(** [Number::toString] for [x >= 10^21] (exact value [X]): exponential
    notation on the shortest digits. *)
Definition exponential (x : number) (X : Z) : string :=
  let '(s, k) := shortest_digits x X (decimal_length X) 16 1 in
  let ex := string_of_N (Z.to_N (k - 1)) in
  match string_of_N (Z.to_N s) with
  | String d EmptyString => String d ("e+" +:+ ex)
  | String d ds => String d ("." +:+ ds +:+ "e+" +:+ ex)
  | EmptyString => EmptyString
  end.

Fixpoint zeros (n : nat) : string :=
  match n with
  | O => EmptyString
  | S n' => String "0" (zeros n')
  end.

(** The decimal text of [n / 10^f] with exactly [f] fraction digits. *)
Definition fixed_digits (f : nat) (n : N) : string :=
  let m := string_of_N n in
  match f with
  | O => m
  | _ =>
      let m' := zeros (S f - String.length m)%nat +:+ m in
      let k := String.length m' in
      substring 0 (k - f)%nat m' +:+ "." +:+ substring (k - f)%nat f m'
  end.

(** The integer [n] for which [n / 10^f] is nearest to [m * 2^e], the
    larger one of two. *)
Definition round_half_up (f : nat) (m : positive) (e : Z) : N :=
  let scaled := Z.pos m * 10 ^ Z.of_nat f in
  Z.to_N (if 0 <=? e then scaled * 2 ^ e
          else (2 * scaled + 2 ^ (- e)) / (2 * 2 ^ (- e))).

(** [x.toFixed(f)], for [0 <= f <= 100]. *)
Definition toFixed (f : nat) (x : number) : string :=
  match Prim2SF x with
  | S754_nan => "NaN"
  | S754_infinity s => if s then "-Infinity" else "Infinity"
  | S754_zero _ => fixed_digits f 0
  | S754_finite s m e =>
      let sign := if s then "-" else EmptyString in
      if (0 <=? e) && (10 ^ 21 <=? Z.pos m * 2 ^ e) then
        sign +:+ exponential (PrimFloat.abs x) (Z.pos m * 2 ^ e)
      else sign +:+ fixed_digits f (round_half_up f m e)
  end.

(** *** Strings *)

(** [s.split(sep)] for a one-character separator: never empty. *)
Fixpoint split_chars (sep : ascii) (s : list ascii) : list (list ascii) :=
  match s with
  | [] => [[]]
  | c :: r =>
      if Ascii.eqb c sep then [] :: split_chars sep r
      else match split_chars sep r with
           | w :: ws => (c :: w) :: ws
           | [] => [[c]]
           end
  end.

Definition split (sep : ascii) (s : string) : list string :=
  map string_of_list_ascii (split_chars sep (list_ascii_of_string s)).

Definition lower_char (c : ascii) : ascii :=
  let n := N_of_ascii c in
  if ((65 <=? n) && (n <=? 90))%N then ascii_of_N (n + 32) else c.

(** [s.toLowerCase()] on ASCII text (the server applies it to its own
    symbol table only). *)
Definition toLowerCase (s : string) : string :=
  string_of_list_ascii (map lower_char (list_ascii_of_string s)).

(** [s.includes(t)] on strings: [t] occurs in [s]. *)
Fixpoint includes_chars (t s : list ascii) : bool :=
  starts_with t s ||
  match s with
  | [] => false
  | _ :: r => includes_chars t r
  end.

Definition string_includes (t s : string) : bool :=
  includes_chars (list_ascii_of_string t) (list_ascii_of_string s).

(** *** Values *)

(** The values [JSON.parse] can return, and [undefined]. *)
#[warnings="-register-all"]
Inductive value : Type :=
  | Undefined
  | Null
  | Bool (b : bool)
  | Number (x : number)
  | Str (s : string)
  | Array (items : list value)
  | Object (fields : list (string * value)).

Definition ToBoolean (v : value) : bool :=
  match v with
  | Undefined | Null => false
  | Bool b => b
  | Number x => truthy x
  | Str s => negb (String.eqb s EmptyString)
  | Array _ | Object _ => true
  end.

Fixpoint assoc (k : string) (fields : list (string * value)) : option value :=
  match fields with
  | [] => None
  | (k', v) :: r => if String.eqb k k' then Some v else assoc k r
  end.

(** [o[k] = v] on an ordinary object: an existing key keeps its place. *)
Fixpoint obj_set (k : string) (v : value) (fields : list (string * value))
  : list (string * value) :=
  match fields with
  | [] => [(k, v)]
  | (k', v') :: r =>
      if String.eqb k k' then (k, v) :: r else (k', v') :: obj_set k v r
  end.

(** [v.k] for a property name [k] that no prototype defines ([method],
    [params], [data], [stream], [c]): [None] is the [TypeError] of reading
    a property of [undefined] or [null]. *)
Definition get_prop (v : value) (k : string) : option value :=
  match v with
  | Undefined | Null => None
  | Object fields => Some (default Undefined (assoc k fields))
  | _ => Some Undefined
  end.

(** [v === Str s]. *)
Definition strict_eq_string (v : value) (s : string) : bool :=
  match v with
  | Str s' => String.eqb s' s
  | _ => false
  end.

(** Whether [ToString(v)] throws a [TypeError].  An object is converted by
    its [toString], then its [valueOf]: with an own property [toString],
    which is never callable in what [JSON.parse] returns, the one is skipped
    and the other ([Object.prototype.valueOf], or an own property as little
    callable) gives no primitive.  An array is joined from the conversions of
    its items, [undefined] and [null] apart. *)
Fixpoint ToString_throws (v : value) : bool :=
  match v with
  | Object fields =>
      match assoc "toString" fields with
      | Some _ => true
      | None => false
      end
  | Array items => existsb ToString_throws items
  | _ => false
  end.

(** [parseFloat_string (ToString v)] where [ToString(v)] returns.  For a
    number the shortest round-trip text parses back to it, except that [-0]
    prints as ["0"]; an array prints its items separated by commas, and a
    comma ends a literal, so only the first item counts; [undefined], [null],
    booleans and objects print as text that holds no literal. *)
Fixpoint parseFloat_value (v : value) : number :=
  match v with
  | Str s => parseFloat_string s
  | Number x => if PrimFloat.eqb x PrimFloat.zero then PrimFloat.zero else x
  | Array (v0 :: _) => parseFloat_value v0
  | _ => PrimFloat.nan
  end.

(** [parseFloat(v)]; [None] is the [TypeError] of [ToString(v)]. *)
Definition parseFloat (v : value) : option number :=
  if ToString_throws v then None else Some (parseFloat_value v).

End JS.

(** ** [JSON.parse] *)

Module JSON.
Import JS.

Definition is_ws (c : ascii) : bool :=
  let n := N_of_ascii c in ((n =? 32) || (n =? 9) || (n =? 10) || (n =? 13))%N.

Fixpoint skip_ws (s : list ascii) : list ascii :=
  match s with
  | c :: r => if is_ws c then skip_ws r else s
  | [] => []
  end.

(** The quotation mark, U+0022. *)
Definition dquote : ascii := Eval cbv in ascii_of_N 34.

Definition hex_val (c : ascii) : option N :=
  let n := N_of_ascii c in
  if ((48 <=? n) && (n <=? 57))%N then Some (n - 48)%N
  else if ((65 <=? n) && (n <=? 70))%N then Some (n - 55)%N
  else if ((97 <=? n) && (n <=? 102))%N then Some (n - 87)%N
  else None.

Definition hex4 (s : list ascii) : option (N * list ascii) :=
  match s with
  | a :: b :: c :: d :: r =>
      match hex_val a, hex_val b, hex_val c, hex_val d with
      | Some x, Some y, Some z, Some w =>
          Some ((((x * 16 + y) * 16 + z) * 16 + w)%N, r)
      | _, _, _, _ => None
      end
  | _ => None
  end.

(** UTF-8 bytes of a code point (a lone surrogate is written on three bytes). *)
Definition utf8 (cp : N) : list ascii :=
  let b (n : N) := ascii_of_N n in
  if (cp <? 128)%N then [b cp]
  else if (cp <? 2048)%N then [b (192 + cp / 64); b (128 + cp mod 64)]%N
  else if (cp <? 65536)%N then
    [b (224 + cp / 4096); b (128 + (cp / 64) mod 64); b (128 + cp mod 64)]%N
  else
    [b (240 + cp / 262144); b (128 + (cp / 4096) mod 64);
     b (128 + (cp / 64) mod 64); b (128 + cp mod 64)]%N.

(** The characters of a string literal after its opening quote, up to and
    including the closing quote. *)
Fixpoint parse_chars (fuel : nat) (s acc : list ascii)
  : option (string * list ascii) :=
  match fuel with
  | O => None
  | S fuel =>
      match s with
      | [] => None
      | "\"%char :: e :: r =>
          let simple (c : ascii) := parse_chars fuel r (c :: acc) in
          if Ascii.eqb e dquote then simple dquote
          else if Ascii.eqb e "\" then simple "\"%char
          else if Ascii.eqb e "/" then simple "/"%char
          else if Ascii.eqb e "b" then simple (ascii_of_N 8)
          else if Ascii.eqb e "f" then simple (ascii_of_N 12)
          else if Ascii.eqb e "n" then simple (ascii_of_N 10)
          else if Ascii.eqb e "r" then simple (ascii_of_N 13)
          else if Ascii.eqb e "t" then simple (ascii_of_N 9)
          else if Ascii.eqb e "u" then
            match hex4 r with
            | Some (hi, r1) =>
                let lone := parse_chars fuel r1 (rev (utf8 hi) ++ acc) in
                if ((55296 <=? hi) && (hi <? 56320))%N then
                  match r1 with
                  | "\"%char :: "u"%char :: r2 =>
                      match hex4 r2 with
                      | Some (lo, r3) =>
                          if ((56320 <=? lo) && (lo <? 57344))%N then
                            let cp := (65536 + (hi - 55296) * 1024 + (lo - 56320))%N in
                            parse_chars fuel r3 (rev (utf8 cp) ++ acc)
                          else lone
                      | None => lone
                      end
                  | _ => lone
                  end
                else lone
            | None => None
            end
          else None
      | c :: r =>
          if Ascii.eqb c dquote then Some (string_of_list_ascii (rev acc), r)
          else if (N_of_ascii c <? 32)%N then None
          else parse_chars fuel r (c :: acc)
      end
  end.

Definition parse_string (s : list ascii) : option (string * list ascii) :=
  parse_chars (length s) s [].

(** A number: an optional minus sign, an integer part without a leading
    zero (or a lone zero), an optional fraction with at least one digit, an
    optional exponent with at least one digit. *)
Definition parse_number (s : list ascii) : option (number * list ascii) :=
  let '(neg, r) :=
    match s with
    | "-"%char :: r => (true, r)
    | _ => (false, s)
    end in
  let int_part :=
    match r with
    | "0"%char :: r1 => Some (["0"%char], r1)
    | _ => match span_digits r with
           | ([], _) => None
           | (ds, r1) => Some (ds, r1)
           end
    end in
  match int_part with
  | None => None
  | Some (int, r1) =>
      let frac_part :=
        match r1 with
        | "."%char :: r2 =>
            match span_digits r2 with
            | ([], _) => None
            | (fs, r3) => Some (fs, r3)
            end
        | _ => Some ([], r1)
        end in
      match frac_part with
      | None => None
      | Some (frac, r3) =>
          match r3 with
          | c :: _ =>
              if (Ascii.eqb c "e" || Ascii.eqb c "E")%bool then
                match exponent_part r3 with
                | Some (ex, r4) => Some (decimal_value neg int frac ex, r4)
                | None => None
                end
              else Some (decimal_value neg int frac 0, r3)
          | [] => Some (decimal_value neg int frac 0, r3)
          end
      end
  end.

Definition literal (w : string) (v : value) (s : list ascii)
  : option (value * list ascii) :=
  let p := list_ascii_of_string w in
  if starts_with p s then Some (v, drop (length p) s) else None.

Fixpoint parse_value (fuel : nat) (s : list ascii) : option (value * list ascii) :=
  match fuel with
  | O => None
  | S fuel =>
      match skip_ws s with
      | "{"%char :: r =>
          match skip_ws r with
          | "}"%char :: r' => Some (Object [], r')
          | r' => parse_members fuel r' []
          end
      | "["%char :: r =>
          match skip_ws r with
          | "]"%char :: r' => Some (Array [], r')
          | r' => parse_elements fuel r' []
          end
      | ("t"%char :: _) as r => literal "true" (Bool true) r
      | ("f"%char :: _) as r => literal "false" (Bool false) r
      | ("n"%char :: _) as r => literal "null" Null r
      | (c :: r') as r =>
          if Ascii.eqb c dquote then
            match parse_string r' with
            | Some (str, r2) => Some (Str str, r2)
            | None => None
            end
          else
            match parse_number r with
            | Some (x, r2) => Some (Number x, r2)
            | None => None
            end
      | [] => None
      end
  end
with parse_elements (fuel : nat) (s : list ascii) (acc : list value)
  : option (value * list ascii) :=
  match fuel with
  | O => None
  | S fuel =>
      match parse_value fuel s with
      | Some (v, r) =>
          match skip_ws r with
          | ","%char :: r' => parse_elements fuel r' (v :: acc)
          | "]"%char :: r' => Some (Array (rev (v :: acc)), r')
          | _ => None
          end
      | None => None
      end
  end
with parse_members (fuel : nat) (s : list ascii) (acc : list (string * value))
  : option (value * list ascii) :=
  match fuel with
  | O => None
  | S fuel =>
      match skip_ws s with
      | c :: r =>
          if Ascii.eqb c dquote then
            match parse_string r with
            | Some (k, r1) =>
                match skip_ws r1 with
                | ":"%char :: r2 =>
                    match parse_value fuel r2 with
                    | Some (v, r3) =>
                        match skip_ws r3 with
                        | ","%char :: r4 => parse_members fuel r4 (obj_set k v acc)
                        | "}"%char :: r4 => Some (Object (obj_set k v acc), r4)
                        | _ => None
                        end
                    | None => None
                    end
                | _ => None
                end
            | None => None
            end
          else None
      | [] => None
      end
  end.

(** [JSON.parse(text)]: [None] stands for the [SyntaxError].  Every call of
    the three functions above consumes a character within two steps, so the
    fuel below is never exhausted first. *)
Definition parse (text : string) : option value :=
  let s := list_ascii_of_string text in
  match parse_value (2 * length s + 2) s with
  | Some (v, r) => match skip_ws r with [] => Some v | _ => None end
  | None => None
  end.

End JSON.

(** ** The server *)

Module Monitor.
Import JS.

(** *** Interfaces of [index.ts] *)

Module PairConfig.
Record t : Type := {
  serumMarketAddress : string;
  binanceSymbol : string;
  name : string;
  programId : string
}.
End PairConfig.

Module PriceDifferenceData.
Record t : Type := {
  binancePrice : number;
  serumPrice : number;
  priceDifference : number;
  percentDifference : string;
  pair : string;
  timestamp : string
}.
End PriceDifferenceData.

(** *** What the server talks to *)

(** A loaded Serum market, and what its order book answers during one poll:
    [None] is a rejected promise; a side is its L2 levels [(price, size)],
    best first. *)
Record Market : Type := { address : string; program : string }.

Definition L2 : Type := list (number * number).

Record Books : Type := { loadBids : option L2; loadAsks : option L2 }.

Definition getL2 (depth : nat) (side : L2) : L2 := take depth side.

Inductive ReadyState : Type := CONNECTING | OPEN | CLOSING | CLOSED.

Definition ReadyState_eqb (a b : ReadyState) : bool :=
  match a, b with
  | CONNECTING, CONNECTING | OPEN, OPEN | CLOSING, CLOSING | CLOSED, CLOSED => true
  | _, _ => false
  end.

(** The argument of [ws.send]: [JSON.stringify] of a record, or of
    [{ type: "all", data }].  The text itself is not computed. *)
Inductive Frame : Type :=
  | stringify_record (data : PriceDifferenceData.t)
  | stringify_all (data : list PriceDifferenceData.t).

(** A client socket, as the server sees it. *)
Record Socket : Type := { readyState : ReadyState; sent : list Frame }.

(** A socket to the exchange: its URL and state. *)
Record Upstream : Type := { url : string; state : ReadyState }.

Inductive Exception : Type :=
  | SyntaxError          (* JSON.parse *)
  | TypeError            (* property of null or undefined, call of a non-function *)
  | NotOpenError         (* ws.send on a socket that is not open *)
  | RejectedError.       (* a rejected promise, awaited *)

Inductive LogEntry : Type :=
  | console_log (text : string)
  | console_error (text : string) (error : option Exception).

Inductive Callback : Type :=
  | call_startBinanceWebSockets
  | call_startSerumWebSockets
  | call_updateAllSerumPrices.

(** A pending [setTimeout] ([repeating = false]) or [setInterval]. *)
Record Timer : Type := { callback : Callback; delay : Z; repeating : bool }.

(** The fields of [PriceMonitorServer], then the world around the object:
    client sockets by identity, the sockets opened to the exchange, pending
    timers, the console, and the clock ([calendar n] is the text of the
    [n]-th [new Date().toISOString()]). *)
Record World : Type := {
  solanaConnection : bool;
  markets : list (string * Market);
  binanceWs : option nat;
  clients : list nat;
  lastBinancePrices : gmap string number;
  lastSerumPrices : gmap string number;
  binanceFeeRate : number;
  solanaFeeRate : number;
  profitabilityThreshold : number;
  sockets : gmap nat Socket;
  upstreams : list Upstream;
  timers : list Timer;
  console : list LogEntry;
  dates : nat;
  calendar : nat -> string
}.

Definition set_solanaConnection (v : bool) (w : World) : World :=
  {| solanaConnection := v; markets := markets w; binanceWs := binanceWs w;
     clients := clients w; lastBinancePrices := lastBinancePrices w;
     lastSerumPrices := lastSerumPrices w; binanceFeeRate := binanceFeeRate w;
     solanaFeeRate := solanaFeeRate w;
     profitabilityThreshold := profitabilityThreshold w; sockets := sockets w;
     upstreams := upstreams w; timers := timers w; console := console w;
     dates := dates w; calendar := calendar w |}.

Definition set_markets (v : list (string * Market)) (w : World) : World :=
  {| solanaConnection := solanaConnection w; markets := v; binanceWs := binanceWs w;
     clients := clients w; lastBinancePrices := lastBinancePrices w;
     lastSerumPrices := lastSerumPrices w; binanceFeeRate := binanceFeeRate w;
     solanaFeeRate := solanaFeeRate w;
     profitabilityThreshold := profitabilityThreshold w; sockets := sockets w;
     upstreams := upstreams w; timers := timers w; console := console w;
     dates := dates w; calendar := calendar w |}.

Definition set_binanceWs (v : option nat) (w : World) : World :=
  {| solanaConnection := solanaConnection w; markets := markets w; binanceWs := v;
     clients := clients w; lastBinancePrices := lastBinancePrices w;
     lastSerumPrices := lastSerumPrices w; binanceFeeRate := binanceFeeRate w;
     solanaFeeRate := solanaFeeRate w;
     profitabilityThreshold := profitabilityThreshold w; sockets := sockets w;
     upstreams := upstreams w; timers := timers w; console := console w;
     dates := dates w; calendar := calendar w |}.

Definition set_clients (v : list nat) (w : World) : World :=
  {| solanaConnection := solanaConnection w; markets := markets w;
     binanceWs := binanceWs w; clients := v;
     lastBinancePrices := lastBinancePrices w;
     lastSerumPrices := lastSerumPrices w; binanceFeeRate := binanceFeeRate w;
     solanaFeeRate := solanaFeeRate w;
     profitabilityThreshold := profitabilityThreshold w; sockets := sockets w;
     upstreams := upstreams w; timers := timers w; console := console w;
     dates := dates w; calendar := calendar w |}.

Definition set_lastBinancePrices (v : gmap string number) (w : World) : World :=
  {| solanaConnection := solanaConnection w; markets := markets w;
     binanceWs := binanceWs w; clients := clients w; lastBinancePrices := v;
     lastSerumPrices := lastSerumPrices w; binanceFeeRate := binanceFeeRate w;
     solanaFeeRate := solanaFeeRate w;
     profitabilityThreshold := profitabilityThreshold w; sockets := sockets w;
     upstreams := upstreams w; timers := timers w; console := console w;
     dates := dates w; calendar := calendar w |}.

Definition set_lastSerumPrices (v : gmap string number) (w : World) : World :=
  {| solanaConnection := solanaConnection w; markets := markets w;
     binanceWs := binanceWs w; clients := clients w;
     lastBinancePrices := lastBinancePrices w; lastSerumPrices := v;
     binanceFeeRate := binanceFeeRate w; solanaFeeRate := solanaFeeRate w;
     profitabilityThreshold := profitabilityThreshold w; sockets := sockets w;
     upstreams := upstreams w; timers := timers w; console := console w;
     dates := dates w; calendar := calendar w |}.

Definition set_sockets (v : gmap nat Socket) (w : World) : World :=
  {| solanaConnection := solanaConnection w; markets := markets w;
     binanceWs := binanceWs w; clients := clients w;
     lastBinancePrices := lastBinancePrices w;
     lastSerumPrices := lastSerumPrices w; binanceFeeRate := binanceFeeRate w;
     solanaFeeRate := solanaFeeRate w;
     profitabilityThreshold := profitabilityThreshold w; sockets := v;
     upstreams := upstreams w; timers := timers w; console := console w;
     dates := dates w; calendar := calendar w |}.

Definition set_upstreams (v : list Upstream) (w : World) : World :=
  {| solanaConnection := solanaConnection w; markets := markets w;
     binanceWs := binanceWs w; clients := clients w;
     lastBinancePrices := lastBinancePrices w;
     lastSerumPrices := lastSerumPrices w; binanceFeeRate := binanceFeeRate w;
     solanaFeeRate := solanaFeeRate w;
     profitabilityThreshold := profitabilityThreshold w; sockets := sockets w;
     upstreams := v; timers := timers w; console := console w;
     dates := dates w; calendar := calendar w |}.

Definition set_timers (v : list Timer) (w : World) : World :=
  {| solanaConnection := solanaConnection w; markets := markets w;
     binanceWs := binanceWs w; clients := clients w;
     lastBinancePrices := lastBinancePrices w;
     lastSerumPrices := lastSerumPrices w; binanceFeeRate := binanceFeeRate w;
     solanaFeeRate := solanaFeeRate w;
     profitabilityThreshold := profitabilityThreshold w; sockets := sockets w;
     upstreams := upstreams w; timers := v; console := console w;
     dates := dates w; calendar := calendar w |}.

Definition set_console (v : list LogEntry) (w : World) : World :=
  {| solanaConnection := solanaConnection w; markets := markets w;
     binanceWs := binanceWs w; clients := clients w;
     lastBinancePrices := lastBinancePrices w;
     lastSerumPrices := lastSerumPrices w; binanceFeeRate := binanceFeeRate w;
     solanaFeeRate := solanaFeeRate w;
     profitabilityThreshold := profitabilityThreshold w; sockets := sockets w;
     upstreams := upstreams w; timers := timers w; console := v;
     dates := dates w; calendar := calendar w |}.

Definition set_dates (v : nat) (w : World) : World :=
  {| solanaConnection := solanaConnection w; markets := markets w;
     binanceWs := binanceWs w; clients := clients w;
     lastBinancePrices := lastBinancePrices w;
     lastSerumPrices := lastSerumPrices w; binanceFeeRate := binanceFeeRate w;
     solanaFeeRate := solanaFeeRate w;
     profitabilityThreshold := profitabilityThreshold w; sockets := sockets w;
     upstreams := upstreams w; timers := timers w; console := console w;
     dates := v; calendar := calendar w |}.

(** *** Handlers run in a state-and-exception monad *)

Inductive Result (A : Type) : Type :=
  | Ok (a : A) (w : World)
  | Throw (e : Exception) (w : World).
Arguments Ok {A} a w.
Arguments Throw {A} e w.

Definition M (A : Type) : Type := World -> Result A.

#[export] Instance M_ret : MRet M := fun A a w => Ok a w.

#[export] Instance M_bind : MBind M := fun A B f m w =>
  match m w with
  | Ok a w' => f a w'
  | Throw e w' => Throw e w'
  end.

Definition throw {A : Type} (e : Exception) : M A := fun w => Throw e w.

(** [try { m } catch (error) { h error }] *)
Definition try_catch {A : Type} (m : M A) (h : Exception -> M A) : M A :=
  fun w =>
    match m w with
    | Ok a w' => Ok a w'
    | Throw e w' => h e w'
    end.

Definition gets {A : Type} (f : World -> A) : M A := fun w => Ok (f w) w.

Definition modify (f : World -> World) : M unit := fun w => Ok tt (f w).

(** [items.forEach(f)], [for (const x of items) f(x)] *)
Fixpoint forEach {A : Type} (items : list A) (f : A -> M unit) : M unit :=
  match items with
  | [] => mret tt
  | x :: rest => f x;; forEach rest f
  end.

(** [items.map(f)] *)
Fixpoint mapM {A B : Type} (f : A -> M B) (items : list A) : M (list B) :=
  match items with
  | [] => mret []
  | x :: rest => y ← f x; ys ← mapM f rest; mret (y :: ys)
  end.

(** [items.find(f)] *)
Fixpoint findM {A : Type} (f : A -> M bool) (items : list A) : M (option A) :=
  match items with
  | [] => mret None
  | x :: rest => b ← f x; if b : bool then mret (Some x) else findM f rest
  end.

Definition log (text : string) : M unit :=
  modify (fun w => set_console (console w ++ [console_log text]) w).

Definition log_error (text : string) (error : option Exception) : M unit :=
  modify (fun w => set_console (console w ++ [console_error text error]) w).

(** [v.k], which throws on [undefined] and [null]. *)
Definition prop (v : value) (k : string) : M value :=
  match get_prop v k with
  | Some x => mret x
  | None => throw TypeError
  end.

(** [parseFloat(v)], which throws when [ToString(v)] does. *)
Definition parse_float (v : value) : M number :=
  match parseFloat v with
  | Some x => mret x
  | None => throw TypeError
  end.

(** [new Date().toISOString()] *)
Definition new_Date_toISOString : M string :=
  fun w => Ok (calendar w (dates w)) (set_dates (S (dates w)) w).

(** [setTimeout(callback, delay)] *)
Definition setTimeout (c : Callback) (ms : Z) : M unit :=
  modify (fun w =>
    set_timers (timers w ++ [{| callback := c; delay := ms; repeating := false |}]) w).

(** [setInterval(callback, delay)] *)
Definition setInterval (c : Callback) (ms : Z) : M unit :=
  modify (fun w =>
    set_timers (timers w ++ [{| callback := c; delay := ms; repeating := true |}]) w).

(** What is outside the source: the JSON parser ([None] is its [SyntaxError])
    and the release of [ws], whose [send] on a socket that is not open throws
    in some releases and drops the frame in others. *)
Class Runtime : Type := {
  JSON_parse : string -> option value;
  send_throws_unless_open : bool
}.

(** *** [class PriceMonitorServer] *)

Definition TRADING_PAIRS : list PairConfig.t := [
  {| PairConfig.serumMarketAddress := "CVfYa8RGXnuDBeGmniCcdkBwoLqVxh92xB1JqgRQx3F";
     PairConfig.binanceSymbol := "BTCUSDC";
     PairConfig.name := "BTC/USDC";
     PairConfig.programId := "EUqojwWA2rd19FZrzeBncJsm38Jm1hEhE3zsmX3bRc2o" |};
  {| PairConfig.serumMarketAddress := "H5uzEytiByuXt964KampmuNCurNDwkVVypkym75J2DQW";
     PairConfig.binanceSymbol := "ETHUSDC";
     PairConfig.name := "ETH/USDC";
     PairConfig.programId := "EUqojwWA2rd19FZrzeBncJsm38Jm1hEhE3zsmX3bRc2o" |};
  {| PairConfig.serumMarketAddress := "7xMDbYTCqQEcK2aM9LbetGtNFJpzKdfXzLL5juaLh4GJ";
     PairConfig.binanceSymbol := "SOLUSDC";
     PairConfig.name := "SOL/USDC";
     PairConfig.programId := "EUqojwWA2rd19FZrzeBncJsm38Jm1hEhE3zsmX3bRc2o" |}
].

(** The object after [constructor()], in a world whose clock is [cal]. *)
#[warnings="-inexact-float"]
Definition constructed (cal : nat -> string) : World :=
  {| solanaConnection := false; markets := []; binanceWs := None; clients := [];
     lastBinancePrices := ∅; lastSerumPrices := ∅;
     binanceFeeRate := 0.001%float; solanaFeeRate := 0.003%float;
     profitabilityThreshold := 0.005%float;
     sockets := ∅; upstreams := []; timers := []; console := []; dates := 0%nat;
     calendar := cal |}.

(** [binancePrice && serumPrice] as a condition on two [Map.get] results,
    with the two numbers when it is met. *)
Definition both (binancePrice serumPrice : option number) : option (number * number) :=
  match binancePrice, serumPrice with
  | Some b, Some s => if truthy b && truthy s then Some (b, s) else None
  | _, _ => None
  end.

(** [set.add(x)] and [set.delete(x)] on a [Set] kept in insertion order. *)
Definition set_add (x : nat) (l : list nat) : list nat :=
  if bool_decide (x ∈ l) then l else l ++ [x].

Definition set_delete (x : nat) (l : list nat) : list nat :=
  filter (fun y => y ≠ x) l.

(** [map.set(k, v)] on a [Map] kept in insertion order. *)
Fixpoint map_set {V : Type} (k : string) (v : V) (m : list (string * V))
  : list (string * V) :=
  match m with
  | [] => [(k, v)]
  | (k', v') :: r =>
      if String.eqb k k' then (k, v) :: r else (k', v') :: map_set k v r
  end.

(** [parts.join(sep)] *)
Fixpoint join (sep : string) (parts : list string) : string :=
  match parts with
  | [] => EmptyString
  | [x] => x
  | x :: rest => x +:+ sep +:+ join sep rest
  end.

Section Methods.
Context `{rt : Runtime}.

(** [ws.send(frame)] *)
Definition ws_send (ws : nat) (frame : Frame) : M unit := fun w =>
  match sockets w !! ws with
  | Some {| readyState := OPEN; sent := frames |} =>
      Ok tt (set_sockets
               (<[ws := {| readyState := OPEN; sent := frames ++ [frame] |}]> (sockets w)) w)
  | _ => if send_throws_unless_open then Throw NotOpenError w else Ok tt w
  end.

(** [client.readyState], [CLOSED] for a socket the world no longer holds. *)
Definition readyState_of (ws : nat) : M ReadyState :=
  gets (fun w => from_option readyState CLOSED (sockets w !! ws)).

Definition calculatePriceDifference (pair : string) (binancePrice serumPrice : number)
  : M PriceDifferenceData.t :=
  feeB ← gets binanceFeeRate;
  feeS ← gets solanaFeeRate;
  let binancePriceAfterFees := (binancePrice * (1 - feeB))%float in
  let serumPriceAfterFees := (serumPrice * (1 - feeS))%float in
  let priceDifference := (binancePriceAfterFees - serumPriceAfterFees)%float in
  let percentDifference := ((priceDifference / serumPriceAfterFees) * 100)%float in
  timestamp ← new_Date_toISOString;
  mret {| PriceDifferenceData.binancePrice := binancePrice;
          PriceDifferenceData.serumPrice := serumPrice;
          PriceDifferenceData.priceDifference := priceDifference;
          PriceDifferenceData.percentDifference := toFixed 2 percentDifference;
          PriceDifferenceData.pair := pair;
          PriceDifferenceData.timestamp := timestamp |}.

Definition getAllPairData : M (list PriceDifferenceData.t) :=
  mapped ← mapM (fun pair =>
      binancePrice ← gets (fun w => lastBinancePrices w !! PairConfig.name pair);
      serumPrice ← gets (fun w => lastSerumPrices w !! PairConfig.name pair);
      match both binancePrice serumPrice with
      | Some (b, s) =>
          data ← calculatePriceDifference (PairConfig.name pair) b s; mret (Some data)
      | None => mret None
      end) TRADING_PAIRS;
  mret (omap id mapped).

Definition sendAllPairData (ws : nat) : M unit :=
  allData ← getAllPairData;
  ws_send ws (stringify_all allData).

(** [pair] is [None] when the topic has no second component: the argument
    is then [undefined], under which a map with string keys holds nothing. *)
Definition sendSinglePairData (ws : nat) (pair : option string) : M unit :=
  match pair with
  | None => mret tt
  | Some key =>
      binancePrice ← gets (fun w => lastBinancePrices w !! key);
      serumPrice ← gets (fun w => lastSerumPrices w !! key);
      match both binancePrice serumPrice with
      | Some (b, s) =>
          data ← calculatePriceDifference key b s;
          ws_send ws (stringify_record data)
      | None => mret tt
      end
  end.

(** [params] is whatever the message carried: [includes] exists on arrays
    and on strings, [forEach] on arrays only, [split] on strings only. *)
Definition handleSubscription (ws : nat) (params : value) : M unit :=
  match params with
  | Array items =>
      if existsb (fun v => strict_eq_string v "difference.all") items then
        sendAllPairData ws
      else
        forEach items (fun param =>
          match param with
          | Str text =>
              let parts := split "." text in
              if bool_decide (parts !! 0%nat = Some "difference") then
                sendSinglePairData ws (parts !! 1%nat)
              else mret tt
          | _ => throw TypeError
          end)
  | Str text =>
      if string_includes "difference.all" text then sendAllPairData ws
      else throw TypeError
  | _ => throw TypeError
  end.

(** [wss.on("connection", ...)] *)
Definition onConnection (ws : nat) : M unit :=
  log "Client connected";;
  modify (fun w => set_clients (set_add ws (clients w)) w).

(** [ws.on("message", ...)] of a client *)
Definition onClientMessage (ws : nat) (message : string) : M unit :=
  try_catch
    (match JSON_parse message with
     | None => throw SyntaxError
     | Some parsedMessage =>
         method ← prop parsedMessage "method";
         if strict_eq_string method "SUBSCRIBE" then
           params ← prop parsedMessage "params";
           handleSubscription ws params
         else mret tt
     end)
    (fun error => log_error "Error parsing message:" (Some error)).

(** [ws.on("close", ...)] of a client *)
Definition onClientClose (ws : nat) : M unit :=
  log "Client disconnected";;
  modify (fun w => set_clients (set_delete ws (clients w)) w).

Definition broadcastPrices : M unit :=
  allData ← getAllPairData;
  if (0 <? length allData)%nat then
    let message := stringify_all allData in
    clients ← gets clients;
    forEach clients (fun client =>
      st ← readyState_of client;
      if ReadyState_eqb st OPEN then ws_send client message else mret tt)
  else mret tt.

Definition startBinanceWebSockets : M unit :=
  let streams :=
    join "/" (map (fun pair => toLowerCase (PairConfig.binanceSymbol pair) +:+ "@ticker")
                  TRADING_PAIRS) in
  let wsUrl := "wss://stream.binance.com:9443/stream?streams=" +:+ streams in
  modify (fun w =>
    set_binanceWs (Some (length (upstreams w)))
      (set_upstreams (upstreams w ++ [{| url := wsUrl; state := CONNECTING |}]) w)).

(** [binanceWs.on('open', ...)] *)
Definition onBinanceOpen : M unit := log "Connected to Binance WebSocket".

(** [binanceWs.on('message', ...)] *)
Definition onBinanceMessage (data : string) : M unit :=
  match JSON_parse data with
  | None => throw SyntaxError
  | Some message =>
      ticker ← prop message "data";
      if ToBoolean ticker then
        pair ← findM (fun p =>
            stream ← prop message "stream";
            match stream with
            | Str text =>
                mret (bool_decide (Some (toLowerCase (PairConfig.binanceSymbol p))
                                   = split "@" text !! 0%nat))
            | _ => throw TypeError
            end) TRADING_PAIRS;
        match pair with
        | Some p =>
            c ← prop ticker "c";
            price ← parse_float c;
            modify (fun w =>
              set_lastBinancePrices
                (<[PairConfig.name p := price]> (lastBinancePrices w)) w);;
            broadcastPrices
        | None => mret tt
        end
      else mret tt
  end.

(** [binanceWs.on('error', ...)] *)
Definition onBinanceError : M unit := log_error "Binance WebSocket error:" None.

(** [binanceWs.on('close', ...)] *)
Definition onBinanceClose : M unit :=
  log "Binance WebSocket disconnected. Reconnecting...";;
  setTimeout call_startBinanceWebSockets 5000.

(** One poll; [rpc market] is what the order book of [market] answers. *)
Definition updateAllSerumPrices (rpc : Market -> Books) : M unit :=
  connection ← gets solanaConnection;
  if negb connection then mret tt
  else
    entries ← gets markets;
    forEach entries (fun '(pairName, market) =>
      try_catch
        (match loadBids (rpc market), loadAsks (rpc market) with
         | Some bids, Some asks =>
             let bestBid := fst <$> getL2 1 bids !! 0%nat in
             let bestAsk := fst <$> getL2 1 asks !! 0%nat in
             match both bestBid bestAsk with
             | Some (bid, ask) =>
                 let midPrice := ((bid + ask) / 2)%float in
                 modify (fun w =>
                   set_lastSerumPrices (<[pairName := midPrice]> (lastSerumPrices w)) w)
             | None => mret tt
             end
         | _, _ => throw RejectedError
         end)
        (fun error =>
           log_error ("Error updating Serum price for " +:+ pairName +:+ ":") (Some error)));;
    broadcastPrices.

Definition startSerumWebSockets (rpc : Market -> Books) : M unit :=
  try_catch
    (updateAllSerumPrices rpc;;
     log "Serum WebSocket subscriptions established")
    (fun error =>
       log_error "Error setting up Serum WebSocket:" (Some error);;
       setTimeout call_startSerumWebSockets 5000).

(** [initialize()]; [load pair] tells whether [Market.load] resolves. *)
Definition initialize (load : PairConfig.t -> bool) (rpc : Market -> Books) : M unit :=
  modify (set_solanaConnection true);;
  forEach TRADING_PAIRS (fun pair =>
    try_catch
      (if load pair then
         let market := {| address := PairConfig.serumMarketAddress pair;
                          program := PairConfig.programId pair |} in
         modify (fun w => set_markets (map_set (PairConfig.name pair) market (markets w)) w);;
         log ("Loaded market for " +:+ PairConfig.name pair)
       else throw RejectedError)
      (fun error =>
         log_error ("Error loading market for " +:+ PairConfig.name pair +:+ ":")
                   (Some error)));;
  startBinanceWebSockets;;
  startSerumWebSockets rpc;;
  setInterval call_updateAllSerumPrices 1000;;
  log "WebSocket server running on ws://localhost:3001".

Definition run_callback (c : Callback) (rpc : Market -> Books) : M unit :=
  match c with
  | call_startBinanceWebSockets => startBinanceWebSockets
  | call_startSerumWebSockets => startSerumWebSockets rpc
  | call_updateAllSerumPrices => updateAllSerumPrices rpc
  end.

(** *** The event loop *)

(** What can happen to the server: [initialize()] is called, a client socket
    connects, sends text, starts closing or has closed, the exchange socket
    number [i] opens, delivers text, reports an error or has closed, the
    pending timer number [j] fires.  Polls carry the answers of the order
    books.  [cleanup()] runs on [SIGINT] only, just before the process exits,
    and is no event of the loop. *)
Inductive Event : Type :=
  | ev_initialize (load : PairConfig.t -> bool) (rpc : Market -> Books)
  | ev_connection (ws : nat)
  | ev_client_message (ws : nat) (message : string)
  | ev_client_closing (ws : nat)
  | ev_client_close (ws : nat)
  | ev_binance_open (i : nat)
  | ev_binance_message (i : nat) (data : string)
  | ev_binance_error (i : nat)
  | ev_binance_close (i : nat)
  | ev_timer (j : nat) (rpc : Market -> Books).

Definition set_readyState (st : ReadyState) (s : Socket) : Socket :=
  {| readyState := st; sent := sent s |}.

Definition set_state (st : ReadyState) (u : Upstream) : Upstream :=
  {| url := url u; state := st |}.

(** The reaction to an event: [None] when the event cannot occur in [w]
    (a socket that does not exist or has closed, a timer that is not
    pending, a second [initialize()]); otherwise the listener runs on the
    world as the event leaves it.  [Throw] is an exception no listener
    caught. *)
Definition react (e : Event) (w : World) : option (Result unit) :=
  match e with
  | ev_initialize load rpc =>
      if solanaConnection w then None else Some (initialize load rpc w)
  | ev_connection ws =>
      match sockets w !! ws with
      | None =>
          Some (onConnection ws
                  (set_sockets (<[ws := {| readyState := OPEN; sent := [] |}]> (sockets w)) w))
      | Some _ => None
      end
  | ev_client_message ws message =>
      match readyState <$> sockets w !! ws with
      | Some OPEN | Some CLOSING => Some (onClientMessage ws message w)
      | _ => None
      end
  | ev_client_closing ws =>
      match sockets w !! ws with
      | Some s =>
          match readyState s with
          | OPEN => Some (Ok tt (set_sockets (<[ws := set_readyState CLOSING s]> (sockets w)) w))
          | _ => None
          end
      | None => None
      end
  | ev_client_close ws =>
      match sockets w !! ws with
      | Some s =>
          match readyState s with
          | CLOSED => None
          | _ => Some (onClientClose ws
                         (set_sockets (<[ws := set_readyState CLOSED s]> (sockets w)) w))
          end
      | None => None
      end
  | ev_binance_open i =>
      match upstreams w !! i with
      | Some u =>
          match state u with
          | CONNECTING =>
              Some (onBinanceOpen (set_upstreams (<[i := set_state OPEN u]> (upstreams w)) w))
          | _ => None
          end
      | None => None
      end
  | ev_binance_message i data =>
      match state <$> upstreams w !! i with
      | Some OPEN | Some CLOSING => Some (onBinanceMessage data w)
      | _ => None
      end
  | ev_binance_error i =>
      match state <$> upstreams w !! i with
      | Some CLOSED | None => None
      | Some _ => Some (onBinanceError w)
      end
  | ev_binance_close i =>
      match upstreams w !! i with
      | Some u =>
          match state u with
          | CLOSED => None
          | _ => Some (onBinanceClose (set_upstreams (<[i := set_state CLOSED u]> (upstreams w)) w))
          end
      | None => None
      end
  | ev_timer j rpc =>
      match timers w !! j with
      | Some t =>
          Some (run_callback (callback t) rpc
                  (if repeating t then w else set_timers (delete j (timers w)) w))
      | None => None
      end
  end.

(** One turn of the event loop that ends normally. *)
Definition step (w : World) (e : Event) (w' : World) : Prop :=
  react e w = Some (Ok tt w').

(** The worlds the server can be in: from the constructed object, any number
    of turns.  A turn is a whole listener or a whole method: [initialize()]
    and each poll are taken in one piece, with the answers of the node in
    hand.  In the running program they are asynchronous, and at each [await]
    inside them (one per market loaded, one per order book read) other
    listeners can run before they go on; the worlds met in between, such as
    the one where the connection is set and the poll timer is not yet, are
    not among these. *)
Inductive reachable : World -> Prop :=
  | reachable_constructed (cal : nat -> string) : reachable (constructed cal)
  | reachable_step (w w' : World) (e : Event) :
      reachable w -> step w e w' -> reachable w'.

(** Running a list of events; [None] when one of them cannot occur. *)
Fixpoint run (events : list Event) (w : World) : option (Result unit) :=
  match events with
  | [] => Some (Ok tt w)
  | e :: rest =>
      match react e w with
      | Some (Ok _ w') => run rest w'
      | other => other
      end
  end.

(** [socket.close()]: a socket that is connecting or open starts closing,
    one that is closing or has closed stays as it is. *)
Definition closing_state (st : ReadyState) : ReadyState :=
  match st with
  | CONNECTING | OPEN | CLOSING => CLOSING
  | CLOSED => CLOSED
  end.

(** [cleanup()].  [wss.close()] stops the listening socket, which is not
    part of the world; it is the last statement and writes nothing here. *)
Definition cleanup : M unit :=
  current ← gets binanceWs;
  match current with
  | Some i =>
      modify (fun w =>
        set_upstreams
          (alter (fun u => set_state (closing_state (state u)) u) i (upstreams w)) w)
  | None => mret tt
  end;;
  registered ← gets clients;
  forEach registered (fun client =>
    modify (fun w =>
      set_sockets
        (alter (fun s => set_readyState (closing_state (readyState s)) s) client (sockets w))
        w)).

End Methods.

(** The reference runtime: the parser above, and a [ws] whose [send]
    drops the frame when the socket is not open. *)
Definition reference_runtime : Runtime :=
  {| JSON_parse := JSON.parse; send_throws_unless_open := false |}.

End Monitor.

(** * The vocabulary of the properties *)

Import JS Monitor.

(** The world a computation leaves, whether it returns or throws. *)
Definition world_of {A : Type} (r : Result A) : World :=
  match r with
  | Ok _ w | Throw _ w => w
  end.

(** ** The spread, as specified *)

Section SpreadSpecification.
Local Open Scope float_scope.

(** The computation as the specification words it: effective prices, their
    difference, and the percentage of the effective on-chain price, formatted
    to two decimal places. *)
Definition spec_compute (exchangePrice onChainPrice exchangeFeeRate onChainFeeRate : number)
  : number * string :=
  let effectiveExchange := exchangePrice * (1 - exchangeFeeRate) in
  let effectiveOnChain := onChainPrice * (1 - onChainFeeRate) in
  let difference := effectiveExchange - effectiveOnChain in
  let percent := difference / effectiveOnChain * 100 in
  (difference, toFixed 2 percent).



End SpreadSpecification.

(** ** Two-decimal texts *)





(** ** Frames *)

(** [keeps R m]: whatever [m] does, returning or throwing, the world it
    leaves is related by [R] to the world it started in. *)
Definition keeps {A : Type} (R : World -> World -> Prop) (m : M A) : Prop :=
  forall w, R w (world_of (m w)).

(** [same f]: the component [f] of the world is as it was. *)
Definition same {B : Type} (f : World -> B) (w w' : World) : Prop := f w' = f w.

(** [sends_to R ws]: [R] allows the one write [ws.send] makes, a frame
    added to the socket [ws] while it is open. *)
Definition sends_to (R : World -> World -> Prop) (ws : nat) : Prop :=
  forall frames frame w,
    sockets w !! ws = Some {| readyState := OPEN; sent := frames |} ->
    R w (set_sockets
           (<[ws := {| readyState := OPEN; sent := frames ++ [frame] |}]> (sockets w)) w).

(** ** The records of a broadcast cycle, and its fan-out *)

Section RecordsOf.
Variables (bs ss : gmap string number) (feeB feeS : number) (cal : nat -> string).

(** The record [calculatePriceDifference] builds at clock reading [n]. *)
Definition record_at (pair : string) (b s : number) (n : nat) : PriceDifferenceData.t :=
  {| PriceDifferenceData.binancePrice := b;
     PriceDifferenceData.serumPrice := s;
     PriceDifferenceData.priceDifference := fst (spec_compute b s feeB feeS);
     PriceDifferenceData.percentDifference := snd (spec_compute b s feeB feeS);
     PriceDifferenceData.pair := pair;
     PriceDifferenceData.timestamp := cal n |}.

(** The records [getAllPairData] returns for [pairs], the clock standing
    at [n]. *)
Fixpoint records_from (pairs : list PairConfig.t) (n : nat) : list PriceDifferenceData.t :=
  match pairs with
  | [] => []
  | p :: rest =>
      match both (bs !! PairConfig.name p) (ss !! PairConfig.name p) with
      | Some (b, s) => record_at (PairConfig.name p) b s n :: records_from rest (S n)
      | None => records_from rest n
      end
  end.

End RecordsOf.

Definition records (w : World) : list PriceDifferenceData.t :=
  records_from (lastBinancePrices w) (lastSerumPrices w)
    (binanceFeeRate w) (solanaFeeRate w) (calendar w) TRADING_PAIRS (dates w).

(** What [broadcastPrices] does to one client socket, and to the sockets of
    the world when it visits [client]. *)
Definition delivered (frame : Frame) (s : Socket) : Socket :=
  match readyState s with
  | OPEN => {| readyState := OPEN; sent := sent s ++ [frame] |}
  | _ => s
  end.

Definition deliver (frame : Frame) (socks : gmap nat Socket) (client : nat)
  : gmap nat Socket :=
  match socks !! client with
  | Some {| readyState := OPEN; sent := frames |} =>
      <[client := {| readyState := OPEN; sent := frames ++ [frame] |}]> socks
  | _ => socks
  end.

(** ** The poll of the order books *)

(** What one market contributes to a poll: the promise is rejected, a side
    of the book gives no truthy best price, or the mid price. *)
Inductive Polled : Type :=
  | poll_rejected
  | poll_skipped
  | poll_mid (midPrice : number).

Definition polled (books : Books) : Polled :=
  match loadBids books, loadAsks books with
  | Some bids, Some asks =>
      match both (fst <$> getL2 1 bids !! 0%nat) (fst <$> getL2 1 asks !! 0%nat) with
      | Some (bid, ask) => poll_mid ((bid + ask) / 2)%float
      | None => poll_skipped
      end
  | _, _ => poll_rejected
  end.

(** The world after the body of the loop of [updateAllSerumPrices] has run
    on one entry of [markets]. *)
Definition poll_entry (rpc : Market -> Books) (w : World) (entry : string * Market) : World :=
  match polled (rpc entry.2) with
  | poll_mid midPrice =>
      set_lastSerumPrices (<[entry.1 := midPrice]> (lastSerumPrices w)) w
  | poll_skipped => w
  | poll_rejected =>
      set_console
        (console w ++ [console_error ("Error updating Serum price for " +:+ entry.1 +:+ ":")
                         (Some RejectedError)]) w
  end.

(** ** The connection to the exchange *)

#[export] Instance ReadyState_eq_dec : EqDecision ReadyState.
Proof. solve_decision. Defined.

#[export] Instance Callback_eq_dec : EqDecision Callback.
Proof. solve_decision. Defined.

(** A socket to the exchange that has not closed, and a timer that will
    open a new one. *)
Definition is_live (u : Upstream) : Prop := state u <> CLOSED.

Definition is_reconnect (t : Timer) : Prop := callback t = call_startBinanceWebSockets.

#[export] Instance is_live_dec (u : Upstream) : Decision (is_live u).
Proof. unfold is_live. apply _. Defined.

#[export] Instance is_reconnect_dec (t : Timer) : Decision (is_reconnect t).
Proof. unfold is_reconnect. apply _. Defined.

Definition live (w : World) : nat := length (filter is_live (upstreams w)).

Definition pending (w : World) : nat := length (filter is_reconnect (timers w)).

(** The timer [onBinanceClose] sets. *)
Definition reconnect_timer : Timer :=
  {| callback := call_startBinanceWebSockets; delay := 5000; repeating := false |}.

(** The part of the world the connection logic reads and writes. *)
Definition links (w : World) : bool * list Upstream * list Timer :=
  (solanaConnection w, upstreams w, timers w).

(** [grown w w']: the same sockets to the exchange, and the same timers
    followed by timers that open none. *)
Definition grown (w w' : World) : Prop :=
  solanaConnection w' = solanaConnection w
  /\ upstreams w' = upstreams w
  /\ exists extra, timers w' = timers w ++ extra /\ Forall (fun t => ~ is_reconnect t) extra.

(** The invariant: reconnection timers fire once; before [initialize()]
    there is neither socket nor timer; afterwards the live sockets and the
    pending reconnections number one in all. *)
Definition links_ok (w : World) : Prop :=
  Forall (fun t => is_reconnect t -> repeating t = false) (timers w)
  /\ (if solanaConnection w then (live w + pending w = 1)%nat
      else upstreams w = [] /\ timers w = []).

(** The events that are none of the exchange socket opening or closing, a
    timer firing, or [initialize()]. *)
Definition plain (e : Event) : Prop :=
  match e with
  | ev_connection _ | ev_client_message _ _ | ev_client_closing _ | ev_client_close _
  | ev_binance_message _ _ | ev_binance_error _ => True
  | _ => False
  end.

(** The event is a reconnection timer firing. *)
Definition fires_reconnect (w : World) (e : Event) : Prop :=
  exists j rpc t, e = ev_timer j rpc /\ timers w !! j = Some t /\ is_reconnect t.

Section Runs.
Context `{rt : Runtime}.

(** [quiet w w']: the event loop goes from [w] to [w'] in turns of which
    none is a reconnection timer firing. *)
Inductive quiet : World -> World -> Prop :=
  | quiet_here (w : World) : quiet w w
  | quiet_turn (w1 w2 w3 : World) (e : Event) :
      quiet w1 w2 -> step w2 e w3 -> ~ fires_reconnect w2 e -> quiet w1 w3.

End Runs.

(** ** Start-up *)

(** The market [initialize] stores for a pair whose load resolves. *)
Definition market_of (pair : PairConfig.t) : Market :=
  {| address := PairConfig.serumMarketAddress pair; program := PairConfig.programId pair |}.

(** The world after the body of the loop of [initialize] has run on
    [pair]. *)
Definition load_entry (load : PairConfig.t -> bool) (w : World) (pair : PairConfig.t)
  : World :=
  if load pair then
    let w1 := set_markets (map_set (PairConfig.name pair) (market_of pair) (markets w)) w in
    set_console (console w1 ++ [console_log ("Loaded market for " +:+ PairConfig.name pair)]) w1
  else
    set_console
      (console w ++ [console_error ("Error loading market for " +:+ PairConfig.name pair +:+ ":")
                       (Some RejectedError)]) w.

(** The socket [startBinanceWebSockets] opens, and the timer [initialize]
    sets. *)
Definition exchange_socket : Upstream :=
  {| url := "wss://stream.binance.com:9443/stream?streams="
            +:+ "btcusdc@ticker/ethusdc@ticker/solusdc@ticker";
     state := CONNECTING |}.

Definition poll_timer : Timer :=
  {| callback := call_updateAllSerumPrices; delay := 1000; repeating := true |}.

(** ** Invariants *)

(** The elementary writes of which every turn of the event loop is made:
    those of the listeners, and those by which an event arrives (a client
    socket connects, starts closing or has closed; the socket to the exchange
    opens or has closed; a timer that does not repeat is cleared as it
    fires). *)
Record closed_under_writes (R : World -> World -> Prop) : Prop := {
  cw_dates : forall v w, R w (set_dates v w);
  cw_console : forall v w, R w (set_console v w);
  cw_send : forall ws, sends_to R ws;
  cw_binance : forall p v w,
    p ∈ TRADING_PAIRS ->
    R w (set_lastBinancePrices (<[PairConfig.name p := v]> (lastBinancePrices w)) w);
  cw_serum : forall k m v w,
    (k, m) ∈ markets w ->
    R w (set_lastSerumPrices (<[k := v]> (lastSerumPrices w)) w);
  cw_clients_add : forall ws w, R w (set_clients (set_add ws (clients w)) w);
  cw_clients_delete : forall ws w, R w (set_clients (set_delete ws (clients w)) w);
  cw_markets : forall p w,
    p ∈ TRADING_PAIRS ->
    R w (set_markets (map_set (PairConfig.name p) (market_of p) (markets w)) w);
  cw_solana : forall w, R w (set_solanaConnection true w);
  cw_upstream_new : forall w,
    R w (set_binanceWs (Some (length (upstreams w)))
           (set_upstreams (upstreams w ++ [exchange_socket]) w));
  cw_timer_reconnect : forall w, R w (set_timers (timers w ++ [reconnect_timer]) w);
  cw_timer_poll : forall w, R w (set_timers (timers w ++ [poll_timer]) w);
  cw_connected : forall ws w,
    sockets w !! ws = None ->
    R w (set_sockets (<[ws := {| readyState := OPEN; sent := [] |}]> (sockets w)) w);
  cw_closing : forall ws s w,
    sockets w !! ws = Some s -> readyState s = OPEN ->
    R w (set_sockets (<[ws := set_readyState CLOSING s]> (sockets w)) w);
  cw_closed : forall ws s w,
    sockets w !! ws = Some s -> readyState s <> CLOSED ->
    R w (set_sockets (<[ws := set_readyState CLOSED s]> (sockets w)) w);
  cw_upstream_open : forall i u w,
    upstreams w !! i = Some u -> state u = CONNECTING ->
    R w (set_upstreams (<[i := set_state OPEN u]> (upstreams w)) w);
  cw_upstream_closed : forall i u w,
    upstreams w !! i = Some u -> state u <> CLOSED ->
    R w (set_upstreams (<[i := set_state CLOSED u]> (upstreams w)) w);
  cw_timer_fired : forall j t w,
    timers w !! j = Some t -> repeating t = false ->
    R w (set_timers (delete j (timers w)) w)
}.

(** The writes of one turn of the event loop: those by which the event
    arrives, and those of the listener it starts. *)
Definition event_writes (e : Event) (R : World -> World -> Prop) : Prop :=
  match e with
  | ev_initialize _ _ =>
      (forall v w, R w (set_dates v w))
      /\ (forall v w, R w (set_console v w))
      /\ (forall ws, sends_to R ws)
      /\ (forall k m v w,
            (k, m) ∈ markets w ->
            R w (set_lastSerumPrices (<[k := v]> (lastSerumPrices w)) w))
      /\ (forall p w,
            p ∈ TRADING_PAIRS ->
            R w (set_markets (map_set (PairConfig.name p) (market_of p) (markets w)) w))
      /\ (forall w, R w (set_solanaConnection true w))
      /\ (forall w, R w (set_binanceWs (Some (length (upstreams w)))
                           (set_upstreams (upstreams w ++ [exchange_socket]) w)))
      /\ (forall w, R w (set_timers (timers w ++ [poll_timer]) w))
  | ev_connection ws =>
      (forall w, sockets w !! ws = None ->
                 R w (set_sockets
                        (<[ws := {| readyState := OPEN; sent := [] |}]> (sockets w)) w))
      /\ (forall v w, R w (set_console v w))
      /\ (forall w, R w (set_clients (set_add ws (clients w)) w))
  | ev_client_message ws _ =>
      (forall v w, R w (set_dates v w))
      /\ (forall v w, R w (set_console v w))
      /\ sends_to R ws
  | ev_client_closing ws =>
      forall s w, sockets w !! ws = Some s -> readyState s = OPEN ->
                  R w (set_sockets (<[ws := set_readyState CLOSING s]> (sockets w)) w)
  | ev_client_close ws =>
      (forall s w, sockets w !! ws = Some s -> readyState s <> CLOSED ->
                   R w (set_sockets (<[ws := set_readyState CLOSED s]> (sockets w)) w))
      /\ (forall v w, R w (set_console v w))
      /\ (forall w, R w (set_clients (set_delete ws (clients w)) w))
  | ev_binance_open i =>
      (forall u w, upstreams w !! i = Some u -> state u = CONNECTING ->
                   R w (set_upstreams (<[i := set_state OPEN u]> (upstreams w)) w))
      /\ (forall v w, R w (set_console v w))
  | ev_binance_message _ _ =>
      (forall v w, R w (set_dates v w))
      /\ (forall ws, sends_to R ws)
      /\ (forall p v w,
            p ∈ TRADING_PAIRS ->
            R w (set_lastBinancePrices (<[PairConfig.name p := v]> (lastBinancePrices w)) w))
  | ev_binance_error _ => forall v w, R w (set_console v w)
  | ev_binance_close i =>
      (forall u w, upstreams w !! i = Some u -> state u <> CLOSED ->
                   R w (set_upstreams (<[i := set_state CLOSED u]> (upstreams w)) w))
      /\ (forall v w, R w (set_console v w))
      /\ (forall w, R w (set_timers (timers w ++ [reconnect_timer]) w))
  | ev_timer j _ =>
      (forall t w, timers w !! j = Some t -> repeating t = false ->
                   R w (set_timers (delete j (timers w)) w))
      /\ (forall v w, R w (set_dates v w))
      /\ (forall v w, R w (set_console v w))
      /\ (forall ws, sends_to R ws)
      /\ (forall k m v w,
            (k, m) ∈ markets w ->
            R w (set_lastSerumPrices (<[k := v]> (lastSerumPrices w)) w))
      /\ (forall w, R w (set_binanceWs (Some (length (upstreams w)))
                           (set_upstreams (upstreams w ++ [exchange_socket]) w)))
  end.

(** [preserves P]: if [P] held, it holds. *)
Definition preserves (P : World -> Prop) (w w' : World) : Prop := P w -> P w'.

(** ** Sample inputs *)

Definition sample_calendar (n : nat) : string := "2024-01-01T00:00:00.000Z".

Definition quoted (s : string) : string :=
  String JSON.dquote (s +:+ String JSON.dquote EmptyString).

(** The text of a ticker message of the exchange for [symbol], last price
    [c], and of a subscription request of a client. *)
Definition ticker_message (symbol c : string) : string :=
  "{" +:+ quoted "stream" +:+ ":" +:+ quoted (symbol +:+ "@ticker") +:+ ","
  +:+ quoted "data" +:+ ":{" +:+ quoted "c" +:+ ":" +:+ quoted c +:+ "}}".

Definition subscribe_message (topics : list string) : string :=
  "{" +:+ quoted "method" +:+ ":" +:+ quoted "SUBSCRIBE" +:+ ","
  +:+ quoted "params" +:+ ":[" +:+ join "," (map quoted topics) +:+ "]}".

(** Order books that answer a best bid of 49899 and a best ask of 49901. *)
Definition sample_rpc (m : Market) : Books :=
  {| loadBids := Some [(49899%float, 1%float)];
     loadAsks := Some [(49901%float, 2%float)] |}.

(** Books for a poll in which the ETH market is rejected, the SOL book is
    empty on the bid side, and the BTC book answers 50099 and 50101. *)
Definition failing_rpc (m : Market) : Books :=
  if String.eqb (address m) "H5uzEytiByuXt964KampmuNCurNDwkVVypkym75J2DQW" then
    {| loadBids := None; loadAsks := Some [(3001%float, 1%float)] |}
  else if String.eqb (address m) "7xMDbYTCqQEcK2aM9LbetGtNFJpzKdfXzLL5juaLh4GJ" then
    {| loadBids := Some []; loadAsks := Some [(151%float, 1%float)] |}
  else
    {| loadBids := Some [(50099%float, 1%float)];
       loadAsks := Some [(50101%float, 2%float)] |}.

(** Books whose best bid and best ask are negative. *)
Definition negative_rpc (m : Market) : Books :=
  {| loadBids := Some [((-3)%float, 1%float)]; loadAsks := Some [((-1)%float, 1%float)] |}.

(** The world after [events], under the reference runtime, from the
    constructed object. *)
Definition after (events : list Event) : World :=
  match run (rt := reference_runtime) events (constructed sample_calendar) with
  | Some r => world_of r
  | None => constructed sample_calendar
  end.

(** [initialize()] has run: every market is loaded and polled once, no
    ticker has arrived yet. *)
Definition sample_polled : World :=
  after [ev_initialize (fun _ => true) sample_rpc].

(** Then two clients connect, and a BTC ticker arrives. *)
Definition streaming_trace : list Event :=
  [ev_initialize (fun _ => true) sample_rpc; ev_connection 7; ev_connection 8;
   ev_binance_open 0; ev_binance_message 0 (ticker_message "btcusdc" "50000.00")].

Definition sample_streaming : World := after streaming_trace.

(** A ticker whose last price is zero has arrived for BTC. *)
Definition sample_zero_tick : World :=
  after [ev_initialize (fun _ => true) sample_rpc; ev_connection 7;
         ev_binance_open 0; ev_binance_message 0 (ticker_message "btcusdc" "0.00000000")].

(** The exchange socket of [sample_streaming] has closed. *)
Definition sample_closed : World := after (streaming_trace ++ [ev_binance_close 0]).

(** The trace that separates the broadcast from the subscriptions: client 7
    connects and never sends anything, client 8 subscribes to BTC/USDC alone
    (no BTC price is known yet, so it gets no reply), then an ETH ticker
    arrives. *)
Definition subscription_trace : list Event :=
  [ev_initialize (fun _ => true) sample_rpc; ev_connection 7; ev_connection 8;
   ev_binance_open 0;
   ev_client_message 8 (subscribe_message ["difference.BTC/USDC"]);
   ev_binance_message 0 (ticker_message "ethusdc" "3000.00")].

(** ** What the turns of the event loop leave alone *)

(** The state of the server proper: everything but the client sockets, the
    console and the clock. *)
Definition server_state (w : World) :=
  (solanaConnection w, markets w, binanceWs w, clients w,
   lastBinancePrices w, lastSerumPrices w, upstreams w, timers w).

(** [elsewhere ws w w']: every client socket but [ws] is as it was. *)
Definition elsewhere (ws : nat) (w w' : World) : Prop :=
  forall c, c <> ws -> sockets w' !! c = sockets w !! c.

(** [appended w w']: the client sockets are those of [w], each in the state
    it was in and holding the frames it held, followed by new ones if it is
    open. *)
Definition appended (w w' : World) : Prop :=
  forall c,
    match sockets w !! c with
    | Some s =>
        exists s', sockets w' !! c = Some s'
                   /\ readyState s' = readyState s
                   /\ sent s `prefix_of` sent s'
                   /\ (readyState s <> OPEN -> sent s' = sent s)
    | None => sockets w' !! c = None
    end.

(** [settled w w']: no client socket of [w] has gone or lost a frame; one
    that was not open has received none and is not open; one that had closed
    is exactly as it was. *)
Definition settled (w w' : World) : Prop :=
  forall c s,
    sockets w !! c = Some s ->
    exists s', sockets w' !! c = Some s'
               /\ sent s `prefix_of` sent s'
               /\ (readyState s <> OPEN -> sent s' = sent s /\ readyState s' <> OPEN)
               /\ (readyState s = CLOSED -> readyState s' = CLOSED).

Section Later.
Context `{rt : Runtime}.

(** [later w w']: the event loop goes from [w] to [w'] in some number of
    turns. *)
Inductive later : World -> World -> Prop :=
  | later_now (w : World) : later w w
  | later_turn (w1 w2 w3 : World) (e : Event) :
      later w1 w2 -> step w2 e w3 -> later w1 w3.

End Later.

(** The events that write each part of the price store, the markets and
    the registry. *)
Definition is_tick (e : Event) : Prop :=
  match e with ev_binance_message _ _ => True | _ => False end.

Definition is_poll (e : Event) : Prop :=
  match e with ev_initialize _ _ | ev_timer _ _ => True | _ => False end.

Definition is_start (e : Event) : Prop :=
  match e with ev_initialize _ _ => True | _ => False end.

Definition is_arrival (e : Event) : Prop :=
  match e with ev_connection _ | ev_client_close _ => True | _ => False end.

(** The names of the configured pairs. *)
Definition pair_names : list string := PairConfig.name <$> TRADING_PAIRS.

(** The keys of the price store: an exchange price is held for configured
    pairs only, an on-chain price for loaded markets only, and the loaded
    markets are markets of configured pairs. *)
Definition keys_ok (w : World) : Prop :=
  (forall k, is_Some (lastBinancePrices w !! k) -> k ∈ pair_names)
  /\ (forall k, is_Some (lastSerumPrices w !! k) -> k ∈ (markets w).*1)
  /\ (forall k, k ∈ (markets w).*1 -> k ∈ pair_names).

(** The timers of the server between turns: each is the poll or a
    reconnection, and the poll is pending, once, exactly when [initialize()]
    has run. *)
Definition timers_ok (w : World) : Prop :=
  Forall (fun t => t = poll_timer \/ t = reconnect_timer) (timers w)
  /\ filter (fun t => repeating t = true) (timers w)
     = if solanaConnection w then [poll_timer] else [].

(** The socket to the exchange that has not closed, if there is one, is the
    current one. *)
Definition current_ok (w : World) : Prop :=
  forall i u, upstreams w !! i = Some u -> state u <> CLOSED -> binanceWs w = Some i.

(** The registry and the states of the client sockets. *)
Definition registry (w : World) : list nat * gmap nat ReadyState :=
  (clients w, readyState <$> sockets w).

(** Client 7 of [sample_streaming] has started closing. *)
Definition sample_closing : World := after (streaming_trace ++ [ev_client_closing 7]).

(** ** Subscriptions *)

(** [params.includes("difference.all")], on the values for which
    [includes] exists. *)
Definition includes_wildcard (params : value) : bool :=
  match params with
  | Array items => existsb (fun v => strict_eq_string v "difference.all") items
  | Str text => string_includes "difference.all" text
  | _ => false
  end.

(** The pair a topic asks for: the second component of a topic whose first
    component is [difference]. *)
Definition topic_pair (topic : string) : option string :=
  let parts := split "." topic in
  if bool_decide (parts !! 0%nat = Some "difference") then parts !! 1%nat else None.

(** A topic the loop of [handleSubscription] passes over: it asks for no
    pair, or the store does not hold two truthy prices for the pair. *)
Definition passed_over (w : World) (topic : string) : Prop :=
  match topic_pair topic with
  | Some key => both (lastBinancePrices w !! key) (lastSerumPrices w !! key) = None
  | None => True
  end.

Section RepliesOf.
Variables (bs ss : gmap string number) (feeB feeS : number) (cal : nat -> string).


End RepliesOf.


(** The text of a request with method [method] and one topic. *)
Definition request_message (method topic : string) : string :=
  "{" +:+ quoted "method" +:+ ":" +:+ quoted method +:+ ","
  +:+ quoted "params" +:+ ":[" +:+ quoted topic +:+ "]}".

(** One client has connected to the polled server: no exchange price is
    known. *)
Definition sample_waiting : World :=
  after [ev_initialize (fun _ => true) sample_rpc; ev_connection 7].

(** ** Polls *)

(** The console lines of a poll of [entries]: one for each market whose
    fetch is rejected, in the order of the map. *)
Definition poll_errors (rpc : Market -> Books) (entries : list (string * Market))
  : list LogEntry :=
  omap (fun entry : string * Market =>
          match polled (rpc entry.2) with
          | poll_rejected =>
              Some (console_error ("Error updating Serum price for " +:+ entry.1 +:+ ":")
                      (Some RejectedError))
          | _ => None
          end) entries.



(** * Properties *)

(** ** The runtime on examples *)

#[warnings="-inexact-float"]
Example parseFloat_examples :
  parseFloat_string "50000.00" = 50000%float
  /\ parseFloat_string "  -12.5e-3xyz" = (-0.0125)%float
  /\ parseFloat_string "0.1" = 0.1%float
  /\ parseFloat_string ".5" = 0.5%float
  /\ parseFloat_string "1e400" = infinity
  /\ parseFloat_string "-Infinity" = neg_infinity
  /\ isNaN (parseFloat_string "abc") = true
  /\ isNaN (parseFloat_string EmptyString) = true
  /\ parseFloat_string (string_of_list_ascii (JSON.utf8 160 ++ JSON.utf8 8232)
                        +:+ " 50001") = 50001%float
  /\ parseFloat_string (string_of_list_ascii (JSON.utf8 65279) +:+ "-7") = (-7)%float
  /\ isNaN (parseFloat_string (string_of_list_ascii (JSON.utf8 8203) +:+ "7")) = true
  /\ parseFloat (Number (-0)%float) = Some 0%float
  /\ isNaN <$> parseFloat Undefined = Some true
  /\ isNaN <$> parseFloat (Object [("valueOf", Number 1)]) = Some true
  /\ parseFloat (Array [Number 5; Null; Array [Str "x"]]) = Some 5%float
  /\ parseFloat (Object [("toString", Number 1)]) = None
  /\ parseFloat (Array [Number 5; Array [Object [("toString", Null)]]]) = None.
Proof. repeat split; vm_compute; reflexivity. Qed.

#[warnings="-inexact-float"]
Example toFixed_examples :
  toFixed 2 0.40140461464553395%float = "0.40"
  /\ toFixed 2 1.005%float = "1.00"
  /\ toFixed 2 8.345%float = "8.35"
  /\ toFixed 2 0.125%float = "0.13"
  /\ toFixed 2 (-0.001)%float = "-0.00"
  /\ toFixed 2 (-0)%float = "0.00"
  /\ toFixed 2 1234567.891%float = "1234567.89"
  /\ toFixed 2 1e21%float = "1e+21"
  /\ toFixed 2 nan = "NaN"
  /\ toFixed 2 neg_infinity = "-Infinity".
Proof. repeat split; vm_compute; reflexivity. Qed.

Example JSON_parse_examples :
  JSON.parse "{oops" = None
  /\ JSON.parse EmptyString = None
  /\ JSON.parse "[1,]" = None
  /\ JSON.parse "01" = None
  /\ JSON.parse "null" = Some Null
  /\ JSON.parse " [1, -2.5e1, true] " = Some (Array [Number 1; Number (-25); Bool true])
  /\ JSON.parse ("{" +:+ String JSON.dquote ("a" +:+ String JSON.dquote ":[{}]}"))
     = Some (Object [("a", Array [Object []])]).
Proof. repeat split; vm_compute; reflexivity. Qed.

(** [toFixed] on a finite number below [10^21] in magnitude: the sign, then
    the digits of the nearest multiple of [10^-f]. *)
Lemma toFixed_finite (f : nat) (x : number) (s : bool) (m : positive) (e : Z) :
  Prim2SF x = S754_finite s m e ->
  (0 <=? e) && (10 ^ 21 <=? Z.pos m * 2 ^ e) = false ->
  toFixed f x = (if s then "-" else EmptyString) +:+ fixed_digits f (round_half_up f m e).
Proof. intros Hx Hsmall. unfold toFixed. rewrite Hx, Hsmall. reflexivity. Qed.

(** [round_half_up f m e] is within one half of [m * 2^e * 10^f]; with
    [num / den] that product, [den] a power of two. *)
Lemma round_half_up_nearest (f : nat) (m : positive) (e : Z) :
  let n := Z.of_N (round_half_up f m e) in
  let num := Z.pos m * 10 ^ Z.of_nat f * 2 ^ Z.max e 0 in
  let den := 2 ^ Z.max (- e) 0 in
  2 * Z.abs (num - n * den) <= den.
Proof.
  cbv zeta. unfold round_half_up.
  assert (Hscaled : 0 < Z.pos m * 10 ^ Z.of_nat f)
    by (apply Z.mul_pos_pos; [lia|apply Z.pow_pos_nonneg; lia]).
  set (scaled := Z.pos m * 10 ^ Z.of_nat f) in *.
  destruct (Z.leb_spec 0 e) as [He|He].
  - rewrite Z.max_l, Z.max_r by lia. rewrite Z2N.id by (apply Z.mul_nonneg_nonneg; lia).
    change (2 ^ 0) with 1. rewrite Z.mul_1_r, Z.sub_diag. cbn. lia.
  - rewrite Z.max_r, Z.max_l by lia. change (2 ^ 0) with 1. rewrite Z.mul_1_r.
    assert (Hden : 0 < 2 ^ (- e)) by (apply Z.pow_pos_nonneg; lia).
    set (den := 2 ^ (- e)) in *.
    assert (Hq : 0 <= (2 * scaled + den) / (2 * den)) by (apply Z.div_pos; lia).
    rewrite Z2N.id by exact Hq.
    pose proof (Z.mul_div_le (2 * scaled + den) (2 * den) ltac:(lia)) as Hlo.
    pose proof (Z.mul_succ_div_gt (2 * scaled + den) (2 * den) ltac:(lia)) as Hhi.
    set (q := (2 * scaled + den) / (2 * den)) in *. lia.
Qed.

(** *** Reading back what [toFixed(2)] prints *)

















(** ** The spread computation *)

Section Spread.
Local Open Scope float_scope.

(** [calculatePriceDifference] never throws; it reads the two fee rates and
    the clock, and advances the clock by one reading. *)
Lemma calculatePriceDifference_eq (pair : string) (b s : number) (w : World) :
  calculatePriceDifference pair b s w =
  Ok {| PriceDifferenceData.binancePrice := b;
        PriceDifferenceData.serumPrice := s;
        PriceDifferenceData.priceDifference :=
          fst (spec_compute b s (binanceFeeRate w) (solanaFeeRate w));
        PriceDifferenceData.percentDifference :=
          snd (spec_compute b s (binanceFeeRate w) (solanaFeeRate w));
        PriceDifferenceData.pair := pair;
        PriceDifferenceData.timestamp := calendar w (dates w) |}
     (set_dates (S (dates w)) w).
Proof. reflexivity. Qed.




(** C8, as stated, fails: for 50000 and 49900 under the configured fees the
    difference the code returns is not the number 199.7
    ([priceDifference === 199.7] is false). *)
#[warnings="-inexact-float"]
Lemma example_difference_is_not_199_7 :
  exists data w',
    calculatePriceDifference "BTC/USDC" 50000 49900 (constructed sample_calendar)
      = Ok data w'
    /\ strict_equal (PriceDifferenceData.priceDifference data) 199.7 = false.
Proof.
  rewrite calculatePriceDifference_eq. eexists _, _. split; [reflexivity|].
  vm_compute. reflexivity.
Qed.

(** C8, amended. For exchangePrice 50000 and onChainPrice 49900 under the
    configured fees 0.001 and 0.003 the effective prices are 49950 and 49750.3
    (the nearest binary64 number), [priceDifference] is the binary64 number
    199.69999999999709, below 199.7 by less than 1e-11, and
    [percentDifference] is "0.40". *)
#[warnings="-inexact-float"]
Theorem example_spread_values (cal : nat -> string) :
  let w := constructed cal in
  50000 * (1 - binanceFeeRate w) = 49950
  /\ 49900 * (1 - solanaFeeRate w) = 49750.3
  /\ exists data w',
       calculatePriceDifference "BTC/USDC" 50000 49900 w = Ok data w'
       /\ PriceDifferenceData.priceDifference data = 199.69999999999709
       /\ (PriceDifferenceData.priceDifference data <? 199.7) = true
       /\ (199.7 - PriceDifferenceData.priceDifference data <? 1e-11) = true
       /\ PriceDifferenceData.percentDifference data = "0.40"%string.
Proof.
  cbv zeta. split; [vm_compute; reflexivity|]. split; [vm_compute; reflexivity|].
  rewrite calculatePriceDifference_eq. eexists _, _. split; [reflexivity|].
  repeat split; vm_compute; reflexivity.
Qed.

End Spread.

(** ** What a computation leaves alone *)

Section Keeps.
Context {R : World -> World -> Prop} `{!Reflexive R} `{!Transitive R}.

Lemma keeps_ret {A : Type} (a : A) : keeps R (mret a).
Proof. intros w. cbn. reflexivity. Qed.

Lemma keeps_throw {A : Type} (e : Exception) : keeps R (throw e : M A).
Proof. intros w. cbn. reflexivity. Qed.

Lemma keeps_gets {A : Type} (f : World -> A) : keeps R (gets f).
Proof. intros w. cbn. reflexivity. Qed.

Lemma keeps_modify (f : World -> World) :
  (forall w, R w (f w)) -> keeps R (modify f).
Proof. intros Hf w. cbn. apply Hf. Qed.

Lemma keeps_bind {A B : Type} (m : M A) (f : A -> M B) :
  keeps R m -> (forall a, keeps R (f a)) -> keeps R (m ≫= f).
Proof.
  intros Hm Hf w. specialize (Hm w). unfold mbind, M_bind.
  destruct (m w) as [a w1|e w1]; cbn in *; [|exact Hm].
  etransitivity; [exact Hm|apply Hf].
Qed.

Lemma keeps_try_catch {A : Type} (m : M A) (h : Exception -> M A) :
  keeps R m -> (forall e, keeps R (h e)) -> keeps R (try_catch m h).
Proof.
  intros Hm Hh w. specialize (Hm w). unfold try_catch.
  destruct (m w) as [a w1|e w1]; cbn in *; [exact Hm|].
  etransitivity; [exact Hm|apply Hh].
Qed.

Lemma keeps_forEach {A : Type} (items : list A) (f : A -> M unit) :
  (forall x, keeps R (f x)) -> keeps R (forEach items f).
Proof.
  intros Hf. induction items as [|x rest IH]; cbn [forEach].
  - apply keeps_ret.
  - apply keeps_bind; [apply Hf|intros _; exact IH].
Qed.

Lemma keeps_mapM {A B : Type} (f : A -> M B) (items : list A) :
  (forall x, keeps R (f x)) -> keeps R (mapM f items).
Proof.
  intros Hf. induction items as [|x rest IH]; cbn [mapM].
  - apply keeps_ret.
  - apply keeps_bind; [apply Hf|intros y].
    apply keeps_bind; [exact IH|intros ys; apply keeps_ret].
Qed.

Lemma keeps_findM {A : Type} (f : A -> M bool) (items : list A) :
  (forall x, keeps R (f x)) -> keeps R (findM f items).
Proof.
  intros Hf. induction items as [|x rest IH]; cbn [findM].
  - apply keeps_ret.
  - apply keeps_bind; [apply Hf|intros [|]; [apply keeps_ret|exact IH]].
Qed.

Lemma keeps_bind_with {A B : Type} (P : A -> Prop) (m : M A) (f : A -> M B) :
  (forall w a w1, m w = Ok a w1 -> P a) ->
  keeps R m -> (forall a, P a -> keeps R (f a)) -> keeps R (m ≫= f).
Proof.
  intros HP Hm Hf w. specialize (Hm w). unfold mbind, M_bind.
  destruct (m w) as [a w1|e w1] eqn:Hrun; cbn in *; [|exact Hm].
  etransitivity; [exact Hm|apply Hf, (HP _ _ _ Hrun)].
Qed.

Lemma keeps_forEach_in {A : Type} (items : list A) (f : A -> M unit) :
  (forall x, x ∈ items -> keeps R (f x)) -> keeps R (forEach items f).
Proof.
  induction items as [|x rest IH]; intros Hf; cbn [forEach].
  - apply keeps_ret.
  - apply keeps_bind; [apply Hf; left|intros _; apply IH].
    intros y Hy. apply Hf. right. exact Hy.
Qed.

Lemma keeps_log (text : string) :
  (forall v w, R w (set_console v w)) -> keeps R (log text).
Proof. intros Hc. apply keeps_modify. intros w. apply Hc. Qed.

Lemma keeps_log_error (text : string) (error : option Exception) :
  (forall v w, R w (set_console v w)) -> keeps R (log_error text error).
Proof. intros Hc. apply keeps_modify. intros w. apply Hc. Qed.

Lemma keeps_prop (v : value) (k : string) : keeps R (prop v k).
Proof. unfold prop. destruct (get_prop v k); [apply keeps_ret|apply keeps_throw]. Qed.

Lemma keeps_parse_float (v : value) : keeps R (parse_float v).
Proof. unfold parse_float. destruct (parseFloat v); [apply keeps_ret|apply keeps_throw]. Qed.

Lemma keeps_new_Date :
  (forall v w, R w (set_dates v w)) -> keeps R new_Date_toISOString.
Proof. intros Hd w. cbn. apply Hd. Qed.

End Keeps.

#[export] Instance same_refl {B : Type} (f : World -> B) : Reflexive (same f).
Proof. intros w. reflexivity. Qed.

#[export] Instance same_trans {B : Type} (f : World -> B) : Transitive (same f).
Proof. intros w1 w2 w3 H12 H23. unfold same in *. congruence. Qed.

(** Side conditions: a setter that does not write the component. *)
Ltac frame_side :=
  first [ assumption
        | intros; first [ reflexivity | solve [eauto] | solve [constructor; auto] ] ].

(** One step of a frame proof: peel the head construct of the computation. *)
Ltac keeps_step :=
  lazymatch goal with
  | |- keeps _ (mbind _ _) => apply keeps_bind; [|intros ?]
  | |- keeps _ (mret _) => apply keeps_ret
  | |- keeps _ (throw _) => apply keeps_throw
  | |- keeps _ (gets _) => apply keeps_gets
  | |- keeps _ (prop _ _) => apply keeps_prop
  | |- keeps _ (parse_float _) => apply keeps_parse_float
  | |- keeps _ (try_catch _ _) => apply keeps_try_catch; [|intros ?]
  | |- keeps _ (forEach _ _) => apply keeps_forEach; intros ?
  | |- keeps _ (mapM _ _) => apply keeps_mapM; intros ?
  | |- keeps _ (findM _ _) => apply keeps_findM; intros ?
  | |- keeps _ (log _) => apply keeps_log; frame_side
  | |- keeps _ (log_error _ _) => apply keeps_log_error; frame_side
  | |- keeps _ new_Date_toISOString => apply keeps_new_Date; frame_side
  | |- keeps _ (modify _) => apply keeps_modify; frame_side
  | |- keeps _ (match ?x with _ => _ end) => destruct x
  | |- keeps _ (let _ := _ in _) => cbv zeta
  end.

Ltac keeps_auto := repeat keeps_step.

(** The same, with [tac] for the calls of other methods. *)
Tactic Notation "keeps_auto" "using" tactic3(tac) := repeat first [keeps_step | tac].

(** ** Frames of the methods *)

Section MethodFrames.
Context `{rt : Runtime}.
Context {R : World -> World -> Prop} `{!Reflexive R} `{!Transitive R}.
Hypothesis R_dates : forall v w, R w (set_dates v w).

Lemma keeps_ws_send (ws : nat) (frame : Frame) :
  sends_to R ws -> keeps R (ws_send ws frame).
Proof.
  intros R_send w. unfold ws_send.
  destruct (sockets w !! ws) as [[[] frames]|] eqn:Hs; cbn;
    try (destruct send_throws_unless_open; cbn; reflexivity).
  apply R_send, Hs.
Qed.

Lemma keeps_readyState_of (ws : nat) : keeps R (readyState_of ws).
Proof. apply keeps_gets. Qed.

Lemma keeps_calculatePriceDifference (pair : string) (b s : number) :
  keeps R (calculatePriceDifference pair b s).
Proof. intros w. rewrite calculatePriceDifference_eq. cbn. apply R_dates. Qed.

Lemma keeps_getAllPairData : keeps R getAllPairData.
Proof.
  unfold getAllPairData. keeps_auto using apply keeps_calculatePriceDifference.
Qed.

Lemma keeps_sendAllPairData (ws : nat) : sends_to R ws -> keeps R (sendAllPairData ws).
Proof.
  intros R_send. unfold sendAllPairData.
  keeps_auto using first [apply keeps_getAllPairData | apply keeps_ws_send, R_send].
Qed.

Lemma keeps_sendSinglePairData (ws : nat) (pair : option string) :
  sends_to R ws -> keeps R (sendSinglePairData ws pair).
Proof.
  intros R_send. unfold sendSinglePairData.
  keeps_auto using
    first [apply keeps_calculatePriceDifference | apply keeps_ws_send, R_send].
Qed.

Lemma keeps_handleSubscription (ws : nat) (params : value) :
  sends_to R ws -> keeps R (handleSubscription ws params).
Proof.
  intros R_send. unfold handleSubscription.
  keeps_auto using
    first [apply keeps_sendAllPairData, R_send | apply keeps_sendSinglePairData, R_send].
Qed.

Lemma keeps_broadcastPrices : (forall ws, sends_to R ws) -> keeps R broadcastPrices.
Proof.
  intros R_send. unfold broadcastPrices.
  keeps_auto using
    first [ apply keeps_getAllPairData | apply keeps_readyState_of
          | apply keeps_ws_send, R_send ].
Qed.

End MethodFrames.

Section HandlerFrames.
Context `{rt : Runtime}.
Context {R : World -> World -> Prop} `{!Reflexive R} `{!Transitive R}.
Hypothesis R_dates : forall v w, R w (set_dates v w).
Hypothesis R_console : forall v w, R w (set_console v w).

Lemma keeps_onClientMessage (ws : nat) (message : string) :
  sends_to R ws -> keeps R (onClientMessage ws message).
Proof.
  intros R_send. unfold onClientMessage.
  keeps_auto using (apply keeps_handleSubscription; assumption).
Qed.

Lemma keeps_onBinanceOpen : keeps R onBinanceOpen.
Proof. apply keeps_log, R_console. Qed.

Lemma keeps_onBinanceError : keeps R onBinanceError.
Proof. apply keeps_log_error, R_console. Qed.

Lemma findM_found {A : Type} (f : A -> M bool) (items : list A) (x : A) (w w' : World) :
  findM f items w = Ok (Some x) w' -> x ∈ items.
Proof.
  revert w. induction items as [|y rest IH]; intros w; cbn [findM]; [discriminate|].
  unfold mbind, M_bind. destruct (f y w) as [[|] w1|e w1]; try discriminate.
  - intros [= <- _]. left.
  - intros Hrest. right. exact (IH _ Hrest).
Qed.

Lemma keeps_onBinanceMessage (data : string) :
  (forall ws, sends_to R ws) ->
  (forall p v w,
     p ∈ TRADING_PAIRS ->
     R w (set_lastBinancePrices (<[PairConfig.name p := v]> (lastBinancePrices w)) w)) ->
  keeps R (onBinanceMessage data).
Proof.
  intros R_send R_binance. unfold onBinanceMessage.
  destruct (JSON_parse data) as [message|]; [|apply keeps_throw].
  apply keeps_bind; [apply keeps_prop|intros ticker].
  destruct (ToBoolean ticker); [|apply keeps_ret].
  apply (keeps_bind_with (fun found => forall p, found = Some p -> p ∈ TRADING_PAIRS)).
  - intros w [p|] w1 Hrun q [= <-]. exact (findM_found _ _ _ _ _ Hrun).
  - keeps_auto.
  - intros [p|] Hp; [|apply keeps_ret].
    pose proof (Hp p eq_refl) as Hin.
    keeps_auto using (apply keeps_broadcastPrices; assumption).
Qed.

End HandlerFrames.

(** ** The records of a broadcast cycle *)

Section Records.
Variables (bs ss : gmap string number) (feeB feeS : number) (cal : nat -> string).

Lemma records_from_sound (d : PriceDifferenceData.t) (pairs : list PairConfig.t) (n : nat) :
  d ∈ records_from bs ss feeB feeS cal pairs n ->
  exists p b s k,
    p ∈ pairs
    /\ both (bs !! PairConfig.name p) (ss !! PairConfig.name p) = Some (b, s)
    /\ d = record_at feeB feeS cal (PairConfig.name p) b s k.
Proof.
  revert n. induction pairs as [|p rest IH]; intros n Hd; cbn in Hd.
  - inversion Hd.
  - destruct (both _ _) as [[b s]|] eqn:Hboth.
    + apply elem_of_cons in Hd as [->|Hd].
      * exists p, b, s, n. split; [left|]. split; [exact Hboth|reflexivity].
      * destruct (IH _ Hd) as (q & b' & s' & k & Hq & Hb & ->).
        exists q, b', s', k. split; [right; exact Hq|]. split; [exact Hb|reflexivity].
    + destruct (IH _ Hd) as (q & b' & s' & k & Hq & Hb & ->).
      exists q, b', s', k. split; [right; exact Hq|]. split; [exact Hb|reflexivity].
Qed.

Lemma records_from_complete (p : PairConfig.t) (b s : number)
    (pairs : list PairConfig.t) (n : nat) :
  p ∈ pairs ->
  both (bs !! PairConfig.name p) (ss !! PairConfig.name p) = Some (b, s) ->
  exists k, record_at feeB feeS cal (PairConfig.name p) b s k ∈ records_from bs ss feeB feeS cal pairs n.
Proof.
  intros Hp Hboth. revert n.
  induction pairs as [|q rest IH]; intros n; [inversion Hp|].
  cbn. apply elem_of_cons in Hp as [<-|Hp].
  - rewrite Hboth. exists n. left.
  - destruct (IH Hp (S n)) as [k1 Hk1]. destruct (IH Hp n) as [k2 Hk2].
    destruct (both (bs !! PairConfig.name q) (ss !! PairConfig.name q)) as [[b' s']|];
      [exists k1; right; exact Hk1|exists k2; exact Hk2].
Qed.

End Records.

(** The equations of the loops. *)
Lemma mapM_cons {A B : Type} (f : A -> M B) (x : A) (rest : list A) (w : World) :
  mapM f (x :: rest) w =
  match f x w with
  | Ok y w1 =>
      match mapM f rest w1 with
      | Ok ys w2 => Ok (y :: ys) w2
      | Throw e w2 => Throw e w2
      end
  | Throw e w1 => Throw e w1
  end.
Proof. reflexivity. Qed.

Lemma forEach_cons {A : Type} (f : A -> M unit) (x : A) (rest : list A) (w : World) :
  forEach (x :: rest) f w =
  match f x w with
  | Ok _ w1 => forEach rest f w1
  | Throw e w1 => Throw e w1
  end.
Proof. reflexivity. Qed.

Lemma bind_eq {A B : Type} (m : M A) (f : A -> M B) (w : World) :
  (m ≫= f) w =
  match m w with
  | Ok a w1 => f a w1
  | Throw e w1 => Throw e w1
  end.
Proof. reflexivity. Qed.

Lemma set_dates_same (w : World) (n : nat) : n = dates w -> set_dates n w = w.
Proof. intros ->. destruct w; reflexivity. Qed.

Lemma set_dates_eq (w : World) (n m : nat) : n = m -> set_dates n w = set_dates m w.
Proof. intros ->. reflexivity. Qed.

(** The loop of [getAllPairData], on any list of pairs. *)
Lemma getAllPairData_loop (pairs : list PairConfig.t) (w : World) :
  let rs := records_from (lastBinancePrices w) (lastSerumPrices w)
              (binanceFeeRate w) (solanaFeeRate w) (calendar w) pairs (dates w) in
  exists mapped,
    mapM (fun pair =>
        binancePrice ← gets (fun w => lastBinancePrices w !! PairConfig.name pair);
        serumPrice ← gets (fun w => lastSerumPrices w !! PairConfig.name pair);
        match both binancePrice serumPrice with
        | Some (b, s) =>
            data ← calculatePriceDifference (PairConfig.name pair) b s; mret (Some data)
        | None => mret None
        end) pairs w
    = Ok mapped (set_dates (dates w + length rs) w)
    /\ omap id mapped = rs.
Proof.
  cbv zeta. set (body := fun pair : PairConfig.t => _).
  assert (Hbody : forall p w,
    body p w =
    match both (lastBinancePrices w !! PairConfig.name p)
               (lastSerumPrices w !! PairConfig.name p) with
    | Some (b, s) =>
        Ok (Some (record_at (binanceFeeRate w) (solanaFeeRate w) (calendar w)
                    (PairConfig.name p) b s (dates w)))
           (set_dates (S (dates w)) w)
    | None => Ok None w
    end).
  { intros p w'. subst body. cbv beta. unfold mbind, M_bind, gets.
    destruct (both _ _) as [[b s]|]; reflexivity. }
  clearbody body. revert w. induction pairs as [|p rest IH]; intros w.
  - exists []. split; [|reflexivity]. cbn. unfold mret, M_ret.
    f_equal. symmetry. apply set_dates_same. lia.
  - rewrite mapM_cons, Hbody. cbn [records_from].
    destruct (both _ _) as [[b s]|].
    + destruct (IH (set_dates (S (dates w)) w)) as (mapped & Hrun & Hmapped).
      cbn in Hrun, Hmapped. rewrite Hrun.
      exists (Some (record_at (binanceFeeRate w) (solanaFeeRate w) (calendar w)
                      (PairConfig.name p) b s (dates w)) :: mapped).
      split; [|cbn; rewrite Hmapped; reflexivity].
      f_equal. cbn [length]. apply (set_dates_eq w). lia.
    + destruct (IH w) as (mapped & Hrun & Hmapped). rewrite Hrun.
      exists (None :: mapped). split; [reflexivity|cbn; exact Hmapped].
Qed.

(** [getAllPairData] never throws: it returns [records w] and advances the
    clock by one reading per record. *)
Lemma getAllPairData_eq (w : World) :
  getAllPairData w = Ok (records w) (set_dates (dates w + length (records w)) w).
Proof.
  destruct (getAllPairData_loop TRADING_PAIRS w) as (mapped & Hrun & Hmapped).
  unfold getAllPairData. rewrite bind_eq, Hrun.
  unfold mret, M_ret, records. rewrite Hmapped. reflexivity.
Qed.

(** ** The fan-out of a broadcast cycle *)

Lemma set_sockets_same (w : World) : set_sockets (sockets w) w = w.
Proof. destruct w; reflexivity. Qed.

Lemma deliver_lookup (frame : Frame) (socks : gmap nat Socket) (client c : nat) :
  deliver frame socks client !! c =
  if decide (c = client) then delivered frame <$> socks !! c else socks !! c.
Proof.
  unfold deliver. destruct (decide (c = client)) as [->|Hne].
  - destruct (socks !! client) as [[[] frames]|] eqn:Hs; rewrite ?lookup_insert_eq, ?Hs;
      reflexivity.
  - destruct (socks !! client) as [[[] frames]|] eqn:Hs; rewrite ?lookup_insert_ne by auto;
      reflexivity.
Qed.

Lemma deliver_all_lookup (frame : Frame) (clients : list nat)
    (socks : gmap nat Socket) (c : nat) :
  NoDup clients ->
  foldl (deliver frame) socks clients !! c =
  if decide (c ∈ clients) then delivered frame <$> socks !! c else socks !! c.
Proof.
  intros Hnd. revert socks.
  induction Hnd as [|x rest Hx Hrest IH]; intros socks; cbn [foldl].
  - rewrite decide_False by apply not_elem_of_nil. reflexivity.
  - rewrite IH, deliver_lookup.
    destruct (decide (c = x)) as [->|Hne].
    + rewrite (decide_False _ _ Hx), decide_True by left. reflexivity.
    + destruct (decide (c ∈ rest)) as [Hin|Hout].
      * rewrite decide_True by (right; exact Hin). reflexivity.
      * rewrite decide_False; [reflexivity|].
        intros [?|?]%elem_of_cons; contradiction.
Qed.

Section Broadcast.
Context `{rt : Runtime}.

(** The loop of [broadcastPrices] never throws: each socket is sent to
    only after its state was read as [OPEN]. *)
Lemma broadcast_loop (frame : Frame) (clients : list nat) (w : World) :
  forEach clients (fun client =>
      st ← readyState_of client;
      if ReadyState_eqb st OPEN then ws_send client frame else mret tt) w
  = Ok tt (set_sockets (foldl (deliver frame) (sockets w) clients) w).
Proof.
  set (body := fun client : nat => _).
  assert (Hbody : forall c w, body c w = Ok tt (set_sockets (deliver frame (sockets w) c) w)).
  { intros c w'. subst body. cbv beta. rewrite bind_eq.
    unfold readyState_of, gets, deliver, ws_send.
    destruct (sockets w' !! c) as [[[] frames]|] eqn:Hs; cbn; rewrite ?Hs;
      rewrite ?set_sockets_same; reflexivity. }
  clearbody body. revert w. induction clients as [|c rest IH]; intros w.
  - cbn. rewrite set_sockets_same. reflexivity.
  - rewrite forEach_cons, Hbody, IH. reflexivity.
Qed.

(** [broadcastPrices] never throws; it reads the clock once per record and
    writes to client sockets only. *)
Lemma broadcastPrices_eq (w : World) :
  broadcastPrices w =
  Ok tt (let w1 := set_dates (dates w + length (records w)) w in
         match records w with
         | [] => w1
         | _ :: _ =>
             set_sockets
               (foldl (deliver (stringify_all (records w))) (sockets w) (clients w)) w1
         end).
Proof.
  unfold broadcastPrices. rewrite bind_eq, getAllPairData_eq.
  destruct (records w) as [|d ds] eqn:Hrecords; [reflexivity|].
  cbn [length Nat.ltb Nat.leb]. rewrite bind_eq. unfold gets at 1.
  rewrite broadcast_loop. reflexivity.
Qed.

End Broadcast.

(** A pair for which [binancePrice && serumPrice] is falsy has no record. *)
Lemma records_skip (w : World) (p : string) :
  both (lastBinancePrices w !! p) (lastSerumPrices w !! p) = None ->
  forall d, d ∈ records w -> PriceDifferenceData.pair d <> p.
Proof.
  intros Hnone d Hd Hp.
  destruct (records_from_sound _ _ _ _ _ _ _ _ Hd) as (q & b & s & k & _ & Hboth & ->).
  cbn in Hp. subst p. congruence.
Qed.

(** Every record carries the two prices the store holds for its pair, both
    truthy. *)
Lemma records_present (w : World) (d : PriceDifferenceData.t) :
  d ∈ records w ->
  lastBinancePrices w !! PriceDifferenceData.pair d = Some (PriceDifferenceData.binancePrice d)
  /\ lastSerumPrices w !! PriceDifferenceData.pair d = Some (PriceDifferenceData.serumPrice d)
  /\ truthy (PriceDifferenceData.binancePrice d) = true
  /\ truthy (PriceDifferenceData.serumPrice d) = true.
Proof.
  intros Hd.
  destruct (records_from_sound _ _ _ _ _ _ _ _ Hd) as (q & b & s & k & _ & Hboth & ->).
  cbn. unfold both in Hboth.
  destruct (lastBinancePrices w !! PairConfig.name q) as [b'|]; [|discriminate].
  destruct (lastSerumPrices w !! PairConfig.name q) as [s'|]; [|discriminate].
  destruct (truthy b') eqn:Hb; [|discriminate].
  destruct (truthy s') eqn:Hs; [|discriminate].
  cbn in Hboth. injection Hboth as <- <-. auto.
Qed.

(** The frames a socket holds after the fan-out are those it held, and
    copies of the frame sent. *)
Lemma deliver_all_frames (frame : Frame) (clients : list nat)
    (socks : gmap nat Socket) (c : nat) (s' : Socket) (f : Frame) :
  foldl (deliver frame) socks clients !! c = Some s' ->
  f ∈ sent s' ->
  f = frame \/ exists s, socks !! c = Some s /\ f ∈ sent s.
Proof.
  revert socks. induction clients as [|x rest IH]; intros socks Hs' Hf; cbn in Hs'.
  - right. exists s'. auto.
  - destruct (IH _ Hs' Hf) as [->|(s & Hs & Hfs)]; [left; reflexivity|].
    rewrite deliver_lookup in Hs.
    destruct (decide (c = x)) as [->|Hne]; [|right; exists s; auto].
    destruct (socks !! x) as [s0|] eqn:Hs0; [|discriminate].
    cbn in Hs. injection Hs as <-. unfold delivered in Hfs.
    destruct (readyState s0); cbn in Hfs; try (right; exists s0; auto; fail).
    apply elem_of_app in Hfs as [Hold|Hnew%list_elem_of_singleton];
      [right; exists s0; auto|left; exact Hnew].
Qed.

(** C3. When exactly one side of the store holds a price for a pair, the
    records of a broadcast cycle hold none for that pair: not the list
    [getAllPairData] returns, and so no frame that [broadcastPrices] adds to a
    client socket.  Every record that is produced has both prices of its
    pair in the store. *)
Theorem one_sided_pair_is_left_out `{rt : Runtime} (w : World) (p : string) :
  (lastBinancePrices w !! p = None /\ is_Some (lastSerumPrices w !! p))
  \/ (is_Some (lastBinancePrices w !! p) /\ lastSerumPrices w !! p = None) ->
  exists data w1 w2,
    getAllPairData w = Ok data w1
    /\ broadcastPrices w = Ok tt w2
    /\ (forall d, d ∈ data -> PriceDifferenceData.pair d <> p)
    /\ (forall d, d ∈ data ->
          lastBinancePrices w !! PriceDifferenceData.pair d
            = Some (PriceDifferenceData.binancePrice d)
          /\ lastSerumPrices w !! PriceDifferenceData.pair d
            = Some (PriceDifferenceData.serumPrice d))
    /\ (forall c s' f,
          sockets w2 !! c = Some s' -> f ∈ sent s' ->
          f = stringify_all data \/ exists s, sockets w !! c = Some s /\ f ∈ sent s).
Proof.
  intros Hside. rewrite getAllPairData_eq, broadcastPrices_eq.
  eexists _, _, _. split; [reflexivity|]. split; [reflexivity|].
  split; [|split].
  - apply records_skip.
    destruct Hside as [[-> _]|[[b ->] ->]]; [reflexivity|].
    cbn. reflexivity.
  - intros d Hd. destruct (records_present w d Hd) as (Hb & Hs & _). auto.
  - intros c s' f Hs' Hf. cbn zeta in Hs'.
    destruct (records w) as [|d ds] eqn:Hrecords; cbn in Hs'.
    + right. exists s'. auto.
    + apply (deliver_all_frames _ _ _ _ _ _ Hs' Hf).
Qed.

Lemma one_sided_pair_is_left_out_witness :
  exists data w1,
    getAllPairData sample_polled = Ok data w1
    /\ forall d, d ∈ data -> PriceDifferenceData.pair d <> "BTC/USDC".
Proof.
  destruct (one_sided_pair_is_left_out (rt := reference_runtime) sample_polled "BTC/USDC")
    as (data & w1 & w2 & Hget & _ & Hskip & _).
  - left. split; [vm_compute; reflexivity|]. eexists. vm_compute. reflexivity.
  - exists data, w1. split; [exact Hget|exact Hskip].
Defined.

(** C10. A stored price that equals zero on either side makes the pair
    count as absent: [getAllPairData], and so the broadcast cycle, produces no
    record for it, and [sendSinglePairData] sends nothing and leaves the world
    as it was.  The test is [binancePrice && serumPrice], which is falsy on a
    zero. *)
Theorem zero_price_counts_as_absent `{rt : Runtime} (w : World) (p : string) (ws : nat) :
  (exists z, lastBinancePrices w !! p = Some z /\ strict_equal z 0 = true)
  \/ (exists z, lastSerumPrices w !! p = Some z /\ strict_equal z 0 = true) ->
  (exists data w1 w2,
     getAllPairData w = Ok data w1
     /\ broadcastPrices w = Ok tt w2
     /\ (forall d, d ∈ data -> PriceDifferenceData.pair d <> p)
     /\ (forall c s' f,
           sockets w2 !! c = Some s' -> f ∈ sent s' ->
           f = stringify_all data \/ exists s, sockets w !! c = Some s /\ f ∈ sent s))
  /\ sendSinglePairData ws (Some p) w = Ok tt w.
Proof.
  intros Hzero.
  assert (Hnone : both (lastBinancePrices w !! p) (lastSerumPrices w !! p) = None).
  { unfold both, truthy, strict_equal in *.
    destruct Hzero as [(z & -> & Hz)|(z & -> & Hz)].
    - destruct (lastSerumPrices w !! p); [rewrite Hz|]; reflexivity.
    - destruct (lastBinancePrices w !! p); [rewrite Hz, andb_false_r|]; reflexivity. }
  split.
  - rewrite getAllPairData_eq, broadcastPrices_eq.
    eexists _, _, _. split; [reflexivity|]. split; [reflexivity|].
    split; [apply records_skip; exact Hnone|].
    intros c s' f Hs' Hf. cbn zeta in Hs'.
    destruct (records w) as [|d ds] eqn:Hrecords; cbn in Hs'.
    + right. exists s'. auto.
    + apply (deliver_all_frames _ _ _ _ _ _ Hs' Hf).
  - unfold sendSinglePairData, mbind, M_bind, gets. rewrite Hnone. reflexivity.
Qed.

Lemma zero_price_counts_as_absent_witness :
  lastBinancePrices sample_zero_tick !! "BTC/USDC" = Some 0%float
  /\ is_Some (lastSerumPrices sample_zero_tick !! "BTC/USDC")
  /\ sendSinglePairData (rt := reference_runtime) 7 (Some "BTC/USDC") sample_zero_tick
     = Ok tt sample_zero_tick.
Proof.
  split; [vm_compute; reflexivity|]. split; [eexists; vm_compute; reflexivity|].
  apply (zero_price_counts_as_absent (rt := reference_runtime) sample_zero_tick "BTC/USDC" 7).
  left. exists 0%float. split; vm_compute; reflexivity.
Defined.

(** ** Subscriptions and the broadcast *)

(** C1, as stated, fails: after [subscription_trace] the client that never
    subscribed and the client that subscribed to BTC/USDC alone both hold the
    batch with the ETH/USDC record. *)
Lemma broadcast_ignores_subscriptions :
  exists w eth,
    run (rt := reference_runtime) subscription_trace (constructed sample_calendar)
      = Some (Ok tt w)
    /\ PriceDifferenceData.pair eth = "ETH/USDC"
    /\ sent <$> sockets w !! 7%nat = Some [stringify_all [eth]]
    /\ sent <$> sockets w !! 8%nat = Some [stringify_all [eth]].
Proof.
  eexists _, _. split; [vm_compute; reflexivity|].
  split; [|split]; [|vm_compute; reflexivity..]. reflexivity.
Qed.

(** C1, amended. A broadcast cycle never throws.  When no record is
    available no socket is written; otherwise every registered client whose
    socket is open gets one more frame, the batch [{type: "all", data}] of all
    available records, and no other socket is written.  The subscriptions a
    client sent play no part: the world holds no trace of them.  The batch
    is the list [getAllPairData] returns, with a record for every configured
    pair whose two prices are truthy. *)
Theorem broadcastPrices_reaches_every_open_client `{rt : Runtime} (w : World) :
  NoDup (clients w) ->
  exists data w1 w2,
    getAllPairData w = Ok data w1
    /\ broadcastPrices w = Ok tt w2
    /\ (data = [] -> sockets w2 = sockets w)
    /\ (data <> [] ->
        forall c,
          sockets w2 !! c =
          if decide (c ∈ clients w)
          then delivered (stringify_all data) <$> sockets w !! c
          else sockets w !! c)
    /\ (forall p b s,
          p ∈ TRADING_PAIRS ->
          both (lastBinancePrices w !! PairConfig.name p)
               (lastSerumPrices w !! PairConfig.name p) = Some (b, s) ->
          exists d, d ∈ data
            /\ PriceDifferenceData.pair d = PairConfig.name p
            /\ PriceDifferenceData.binancePrice d = b
            /\ PriceDifferenceData.serumPrice d = s).
Proof.
  intros Hnd. rewrite getAllPairData_eq, broadcastPrices_eq.
  eexists _, _, _. split; [reflexivity|]. split; [reflexivity|].
  split; [|split].
  - intros ->. reflexivity.
  - intros Hdata c. destruct (records w) as [|d ds] eqn:Hrecords; [contradiction|].
    cbn. apply deliver_all_lookup, Hnd.
  - intros p b s Hp Hboth.
    destruct (records_from_complete _ _ (binanceFeeRate w) (solanaFeeRate w) (calendar w)
                _ _ _ _ (dates w) Hp Hboth) as [k Hk].
    eexists. split; [exact Hk|]. cbn. auto.
Qed.

Lemma broadcastPrices_reaches_every_open_client_witness :
  exists btc w2,
    broadcastPrices (rt := reference_runtime) sample_streaming = Ok tt w2
    /\ PriceDifferenceData.pair btc = "BTC/USDC"
    /\ (fun s => length (sent s)) <$> sockets sample_streaming !! 7%nat = Some 1%nat
    /\ sent <$> sockets w2 !! 7%nat = Some [stringify_all [btc]; stringify_all [btc]].
Proof.
  destruct (broadcastPrices_reaches_every_open_client (rt := reference_runtime)
              sample_streaming)
    as (data & w1 & w2 & Hget & Hrun & _ & Hsend & _).
  - apply (bool_decide_unpack _). vm_compute. exact I.
  - rewrite getAllPairData_eq in Hget. injection Hget as <- _.
    eexists _, w2. split; [exact Hrun|]. split; [|split].
    2: vm_compute; reflexivity.
    2: { rewrite Hsend by (vm_compute; discriminate). vm_compute. reflexivity. }
    reflexivity.
Defined.

(** ** Malformed input *)

Section Malformed.
Context `{rt : Runtime}.

(** C7. A client message that is not valid JSON is caught and logged: the
    listener returns normally, the only change to the world is the console
    line, so the client stays registered, its socket is as it was and no
    frame is sent to anyone. *)
Theorem malformed_client_message_is_logged (ws : nat) (message : string) (w : World) :
  JSON_parse message = None ->
  let w' := set_console
              (console w ++ [console_error "Error parsing message:" (Some SyntaxError)]) w in
  onClientMessage ws message w = Ok tt w'
  /\ clients w' = clients w
  /\ sockets w' = sockets w
  /\ (sockets w !! ws ≫= (fun s => Some (readyState s)) = Some OPEN ->
      react (ev_client_message ws message) w = Some (Ok tt w')).
Proof.
  intros Hparse. cbv zeta.
  assert (Hrun : onClientMessage ws message w =
                 Ok tt (set_console
                          (console w ++ [console_error "Error parsing message:"
                                           (Some SyntaxError)]) w)).
  { unfold onClientMessage, try_catch. rewrite Hparse. reflexivity. }
  split; [exact Hrun|]. split; [reflexivity|]. split; [reflexivity|].
  intros Hopen. cbn [react]. destruct (sockets w !! ws) as [s|]; [|discriminate].
  cbn in Hopen |- *. injection Hopen as ->. rewrite Hrun. reflexivity.
Qed.

(** The listener of the exchange socket has no handler around [JSON.parse]:
    text that is not valid JSON makes it throw. *)
Lemma onBinanceMessage_malformed (data : string) (w : World) :
  JSON_parse data = None -> onBinanceMessage data w = Throw SyntaxError w.
Proof. intros Hparse. unfold onBinanceMessage. rewrite Hparse. reflexivity. Qed.

End Malformed.

Lemma malformed_client_message_is_logged_witness :
  exists w',
    react (rt := reference_runtime) (ev_client_message 7 "{oops") sample_streaming
      = Some (Ok tt w')
    /\ clients w' = clients sample_streaming
    /\ sockets w' = sockets sample_streaming.
Proof.
  destruct (malformed_client_message_is_logged (rt := reference_runtime)
              7 "{oops" sample_streaming) as (_ & Hclients & Hsockets & Hstep).
  - vm_compute. reflexivity.
  - eexists. split; [apply Hstep; vm_compute; reflexivity|].
    split; [exact Hclients|exact Hsockets].
Defined.

(** C4 fails on the code.  Under the reference runtime the exchange listener
    throws on text that is not JSON, on the JSON text [null], and on a
    message whose [data] is set but whose [stream] is missing; nothing
    catches the exception, so the turn of the event loop ends in it.  A
    message without [data] is ignored. *)
Theorem malformed_exchange_message_is_thrown (w : World) :
  onBinanceMessage (rt := reference_runtime) "{oops" w = Throw SyntaxError w
  /\ onBinanceMessage (rt := reference_runtime) "null" w = Throw TypeError w
  /\ onBinanceMessage (rt := reference_runtime)
       ("{" +:+ quoted "data" +:+ ":{" +:+ quoted "c" +:+ ":" +:+ quoted "1" +:+ "}}") w
     = Throw TypeError w
  /\ onBinanceMessage (rt := reference_runtime) ("{" +:+ quoted "id" +:+ ":1}") w = Ok tt w
  /\ react (rt := reference_runtime) (ev_binance_message 0 "{oops") sample_streaming
     = Some (Throw SyntaxError sample_streaming).
Proof.
  split; [apply onBinanceMessage_malformed; vm_compute; reflexivity|].
  repeat split; vm_compute; reflexivity.
Qed.

(** ** The poll of the order books *)

Lemma poll_entry_serum_ne (rpc : Market -> Books) (w : World)
    (entry : string * Market) (p : string) :
  p <> entry.1 ->
  lastSerumPrices (poll_entry rpc w entry) !! p = lastSerumPrices w !! p.
Proof.
  intros Hne. unfold poll_entry. destruct (polled _); cbn; [reflexivity..|].
  apply lookup_insert_ne. congruence.
Qed.

Lemma poll_entry_serum_eq (rpc : Market -> Books) (w : World) (entry : string * Market) :
  lastSerumPrices (poll_entry rpc w entry) !! entry.1 =
  match polled (rpc entry.2) with
  | poll_mid midPrice => Some midPrice
  | _ => lastSerumPrices w !! entry.1
  end.
Proof.
  unfold poll_entry. destruct (polled _); cbn; [reflexivity..|].
  apply lookup_insert_eq.
Qed.

(** A pair that is not among the entries keeps its price. *)
Lemma poll_all_serum_other (rpc : Market -> Books) (entries : list (string * Market))
    (w : World) (p : string) :
  p ∉ entries.*1 ->
  lastSerumPrices (foldl (poll_entry rpc) w entries) !! p = lastSerumPrices w !! p.
Proof.
  revert w. induction entries as [|e rest IH]; intros w Hp; [reflexivity|].
  cbn in Hp |- *. apply not_elem_of_cons in Hp as [Hne Hrest].
  rewrite (IH _ Hrest). apply poll_entry_serum_ne, Hne.
Qed.

(** A pair among the entries ends with the mid price of its own book, or
    with the price it had. *)
Lemma poll_all_serum (rpc : Market -> Books) (entries : list (string * Market))
    (w : World) (p : string) (m : Market) :
  NoDup entries.*1 ->
  (p, m) ∈ entries ->
  lastSerumPrices (foldl (poll_entry rpc) w entries) !! p =
  match polled (rpc m) with
  | poll_mid midPrice => Some midPrice
  | _ => lastSerumPrices w !! p
  end.
Proof.
  revert w. induction entries as [|e rest IH]; intros w Hnd Hin; [inversion Hin|].
  cbn in Hnd |- *. apply NoDup_cons in Hnd as [Hfresh Hnd].
  apply elem_of_cons in Hin as [<-|Hin].
  - rewrite poll_all_serum_other by exact Hfresh. apply (poll_entry_serum_eq rpc w (p, m)).
  - rewrite (IH _ Hnd Hin). rewrite poll_entry_serum_ne; [reflexivity|].
    intros ->. apply Hfresh. apply list_elem_of_fmap. exists (e.1, m). auto.
Qed.

(** When no promise is rejected the poll writes no console line. *)
Lemma poll_all_console (rpc : Market -> Books) (entries : list (string * Market))
    (w : World) :
  (forall e, e ∈ entries -> polled (rpc e.2) <> poll_rejected) ->
  console (foldl (poll_entry rpc) w entries) = console w.
Proof.
  revert w. induction entries as [|e rest IH]; intros w Hok; [reflexivity|].
  cbn [foldl]. rewrite IH by (intros e' He'; apply Hok; right; exact He').
  unfold poll_entry. specialize (Hok e (list_elem_of_here _ _)).
  destruct (polled (rpc e.2)); [contradiction|reflexivity..].
Qed.

Section Poll.
Context `{rt : Runtime}.

(** The loop of [updateAllSerumPrices] never throws: the rejection is
    caught and logged. *)
Lemma poll_loop (rpc : Market -> Books) (entries : list (string * Market)) (w : World) :
  forEach entries (fun '(pairName, market) =>
      try_catch
        (match loadBids (rpc market), loadAsks (rpc market) with
         | Some bids, Some asks =>
             let bestBid := fst <$> getL2 1 bids !! 0%nat in
             let bestAsk := fst <$> getL2 1 asks !! 0%nat in
             match both bestBid bestAsk with
             | Some (bid, ask) =>
                 let midPrice := ((bid + ask) / 2)%float in
                 modify (fun w =>
                   set_lastSerumPrices (<[pairName := midPrice]> (lastSerumPrices w)) w)
             | None => mret tt
             end
         | _, _ => throw RejectedError
         end)
        (fun error =>
           log_error ("Error updating Serum price for " +:+ pairName +:+ ":") (Some error))) w
  = Ok tt (foldl (poll_entry rpc) w entries).
Proof.
  set (body := fun _ : string * Market => _).
  assert (Hbody : forall e w, body e w = Ok tt (poll_entry rpc w e)).
  { intros [pairName market] w'. subst body. cbv beta iota zeta.
    unfold try_catch, poll_entry, polled. cbn [fst snd].
    destruct (loadBids (rpc market)) as [bids|], (loadAsks (rpc market)) as [asks|];
      try reflexivity.
    destruct (both _ _) as [[bid ask]|]; reflexivity. }
  clearbody body. revert w. induction entries as [|e rest IH]; intros w; [reflexivity|].
  rewrite forEach_cons, Hbody, IH. reflexivity.
Qed.

(** A poll never throws: without a connection it does nothing, otherwise it
    visits the markets in order and then broadcasts. *)
Lemma updateAllSerumPrices_eq (rpc : Market -> Books) (w : World) :
  updateAllSerumPrices rpc w =
  if solanaConnection w then broadcastPrices (foldl (poll_entry rpc) w (markets w))
  else Ok tt w.
Proof.
  unfold updateAllSerumPrices. rewrite bind_eq. unfold gets at 1.
  destruct (solanaConnection w); [|reflexivity].
  cbn [negb]. rewrite bind_eq. unfold gets at 1. rewrite bind_eq, poll_loop. reflexivity.
Qed.

(** The broadcast returns, and leaves the price store and the console
    alone. *)
Lemma broadcastPrices_store (w : World) :
  exists w',
    broadcastPrices w = Ok tt w'
    /\ lastSerumPrices w' = lastSerumPrices w
    /\ lastBinancePrices w' = lastBinancePrices w
    /\ console w' = console w.
Proof.
  rewrite broadcastPrices_eq. eexists. split; [reflexivity|].
  cbv zeta. destruct (records w); cbn; auto.
Qed.

(** The handler of [startSerumWebSockets] is never entered: the poll cannot
    throw. *)
Lemma startSerumWebSockets_run (rpc : Market -> Books) (w : World) :
  exists w1,
    updateAllSerumPrices rpc w = Ok tt w1
    /\ startSerumWebSockets rpc w =
       Ok tt (set_console
                (console w1 ++ [console_log "Serum WebSocket subscriptions established"]) w1).
Proof.
  assert (Hpoll : exists w1, updateAllSerumPrices rpc w = Ok tt w1).
  { rewrite updateAllSerumPrices_eq. destruct (solanaConnection w); [|eauto].
    rewrite broadcastPrices_eq. eauto. }
  destruct Hpoll as [w1 Hpoll]. exists w1. split; [exact Hpoll|].
  unfold startSerumWebSockets, try_catch. rewrite bind_eq, Hpoll. reflexivity.
Qed.

Section PollFrame.
Context {R : World -> World -> Prop} `{!Reflexive R} `{!Transitive R}.
Hypothesis R_dates : forall v w, R w (set_dates v w).
Hypothesis R_console : forall v w, R w (set_console v w).
Hypothesis R_send : forall ws, sends_to R ws.
Hypothesis R_serum : forall k m v w,
  (k, m) ∈ markets w -> R w (set_lastSerumPrices (<[k := v]> (lastSerumPrices w)) w).

Lemma poll_all_keeps (rpc : Market -> Books) (entries : list (string * Market)) (w : World) :
  entries ⊆ markets w -> R w (foldl (poll_entry rpc) w entries).
Proof.
  revert w. induction entries as [|[k m] rest IH]; intros w Hsub; [reflexivity|].
  cbn [foldl]. transitivity (poll_entry rpc w (k, m)).
  - unfold poll_entry. destruct (polled _); cbn [fst]; [apply R_console|reflexivity|].
    apply (R_serum k m). apply Hsub. left.
  - apply IH. intros e He.
    replace (markets (poll_entry rpc w (k, m))) with (markets w)
      by (unfold poll_entry; destruct (polled _); reflexivity).
    apply Hsub. right. exact He.
Qed.

Lemma keeps_updateAllSerumPrices (rpc : Market -> Books) :
  keeps R (updateAllSerumPrices rpc).
Proof.
  intros w. rewrite updateAllSerumPrices_eq.
  destruct (solanaConnection w); [|reflexivity].
  transitivity (foldl (poll_entry rpc) w (markets w)); [apply poll_all_keeps; reflexivity|].
  apply keeps_broadcastPrices; assumption.
Qed.

Lemma keeps_startSerumWebSockets (rpc : Market -> Books) :
  keeps R (startSerumWebSockets rpc).
Proof.
  intros w. destruct (startSerumWebSockets_run rpc w) as (w1 & Hpoll & Hrun).
  rewrite Hrun. cbn [world_of]. transitivity w1; [|apply R_console].
  pose proof (keeps_updateAllSerumPrices rpc w) as Hkeeps.
  rewrite Hpoll in Hkeeps. exact Hkeeps.
Qed.

End PollFrame.

(** C6. A poll never throws.  For every market it visits: when the fetch
    of either side is rejected, or either side of the book is empty, the
    on-chain price stored for that pair is after the poll what it was before;
    and a pair whose book answers a truthy best bid and best ask ends with
    their mid price, whatever happened to the other pairs. *)
Theorem failed_fetch_keeps_stored_price (rpc : Market -> Books) (w : World) :
  NoDup (markets w).*1 ->
  exists w',
    updateAllSerumPrices rpc w = Ok tt w'
    /\ forall p m,
         (p, m) ∈ markets w ->
         (loadBids (rpc m) = None \/ loadAsks (rpc m) = None
          \/ loadBids (rpc m) = Some [] \/ loadAsks (rpc m) = Some [] ->
          lastSerumPrices w' !! p = lastSerumPrices w !! p)
         /\ (forall bid ask sizeB sizeA bids asks,
               solanaConnection w = true ->
               loadBids (rpc m) = Some ((bid, sizeB) :: bids) ->
               loadAsks (rpc m) = Some ((ask, sizeA) :: asks) ->
               truthy bid = true -> truthy ask = true ->
               lastSerumPrices w' !! p = Some ((bid + ask) / 2)%float).
Proof.
  intros Hnd. rewrite updateAllSerumPrices_eq.
  destruct (solanaConnection w) eqn:Hconn.
  - destruct (broadcastPrices_store (foldl (poll_entry rpc) w (markets w)))
      as (w' & Hrun & Hserum & _ & _).
    exists w'. split; [exact Hrun|].
    intros p m Hin. rewrite Hserum.
    rewrite (poll_all_serum rpc _ w p m Hnd Hin). split.
    + intros Hbad. unfold polled.
      destruct Hbad as [-> | [-> | [-> | ->]]]; try reflexivity.
      * destruct (loadBids (rpc m)); reflexivity.
      * destruct (loadAsks (rpc m)); reflexivity.
      * destruct (loadBids (rpc m)) as [bids|]; [|reflexivity].
        cbn. destruct (fst <$> getL2 1 bids !! 0%nat); reflexivity.
    + intros bid ask sizeB sizeA bids asks _ Hb Ha Htb Hta.
      unfold polled. rewrite Hb, Ha. cbn. rewrite Htb, Hta. reflexivity.
  - eexists. split; [reflexivity|]. intros p m Hin. split; [reflexivity|].
    intros; discriminate.
Qed.

End Poll.

Lemma failed_fetch_keeps_stored_price_witness :
  exists w',
    updateAllSerumPrices (rt := reference_runtime) failing_rpc sample_polled = Ok tt w'
    /\ lastSerumPrices sample_polled !! "ETH/USDC" = Some 49900%float
    /\ lastSerumPrices w' !! "ETH/USDC" = Some 49900%float
    /\ lastSerumPrices w' !! "SOL/USDC" = Some 49900%float
    /\ lastSerumPrices w' !! "BTC/USDC" = Some 50100%float.
Proof.
  destruct (failed_fetch_keeps_stored_price (rt := reference_runtime) failing_rpc sample_polled)
    as (w' & Hrun & Hall).
  { apply (bool_decide_unpack _). vm_compute. exact I. }
  exists w'. split; [exact Hrun|]. split; [vm_compute; reflexivity|].
  split; [|split].
  - destruct (Hall "ETH/USDC"
                {| address := "H5uzEytiByuXt964KampmuNCurNDwkVVypkym75J2DQW";
                   program := "EUqojwWA2rd19FZrzeBncJsm38Jm1hEhE3zsmX3bRc2o" |})
      as [Hkeep _].
    { vm_compute. right. left. }
    rewrite Hkeep by (left; vm_compute; reflexivity). vm_compute. reflexivity.
  - destruct (Hall "SOL/USDC"
                {| address := "7xMDbYTCqQEcK2aM9LbetGtNFJpzKdfXzLL5juaLh4GJ";
                   program := "EUqojwWA2rd19FZrzeBncJsm38Jm1hEhE3zsmX3bRc2o" |})
      as [Hkeep _].
    { vm_compute. right. right. left. }
    rewrite Hkeep by (right; right; left; vm_compute; reflexivity).
    vm_compute. reflexivity.
  - destruct (Hall "BTC/USDC"
                {| address := "CVfYa8RGXnuDBeGmniCcdkBwoLqVxh92xB1JqgRQx3F";
                   program := "EUqojwWA2rd19FZrzeBncJsm38Jm1hEhE3zsmX3bRc2o" |})
      as [_ Hmid].
    { vm_compute. left. }
    rewrite (Hmid 50099 50101 1 2 [] [])%float by (vm_compute; reflexivity).
    vm_compute. reflexivity.
Defined.

(** ** The setters of the price store *)

Lemma findM_pure {A : Type} (f : A -> M bool) (g : A -> bool) (items : list A) (w : World) :
  (forall x w, f x w = Ok (g x) w) -> findM f items w = Ok (find g items) w.
Proof.
  intros Hf. induction items as [|x rest IH]; [reflexivity|].
  cbn [findM find]. rewrite bind_eq, Hf. destruct (g x); [reflexivity|exact IH].
Qed.

Section Setters.
Context `{rt : Runtime}.

(** The exchange listener on a well-formed ticker for a configured symbol:
    [parseFloat] of the last price is stored, then the broadcast runs; when
    [parseFloat] throws, nothing catches the exception. *)
Lemma onBinanceMessage_ticker (data text : string) (message ticker c : value)
    (p : PairConfig.t) (w : World) :
  JSON_parse data = Some message ->
  get_prop message "data" = Some ticker ->
  ToBoolean ticker = true ->
  get_prop message "stream" = Some (Str text) ->
  find (fun p => bool_decide (Some (toLowerCase (PairConfig.binanceSymbol p))
                              = split "@" text !! 0%nat)) TRADING_PAIRS = Some p ->
  get_prop ticker "c" = Some c ->
  onBinanceMessage data w =
  match parseFloat c with
  | Some price =>
      broadcastPrices
        (set_lastBinancePrices (<[PairConfig.name p := price]> (lastBinancePrices w)) w)
  | None => Throw TypeError w
  end.
Proof.
  intros Hparse Hdata Htruthy Hstream Hfind Hc.
  unfold onBinanceMessage. rewrite Hparse, bind_eq. unfold prop at 1. rewrite Hdata.
  cbn [mret M_ret]. rewrite Htruthy, bind_eq.
  erewrite findM_pure; [rewrite Hfind|].
  - rewrite bind_eq. unfold prop at 1. rewrite Hc. cbn [mret M_ret].
    rewrite bind_eq. unfold parse_float. destruct (parseFloat c); reflexivity.
  - intros x w'. rewrite bind_eq. unfold prop. rewrite Hstream. reflexivity.
Qed.

(** C5, amended. Neither setter checks that the value is a positive finite
    number.  The exchange listener stores [parseFloat] of the last price of
    a ticker under the pair of its symbol, whatever the number ([NaN], zero,
    negative, infinite), and logs nothing.  It does not throw either, unless
    [parseFloat] itself does: the last price is then an object with an own
    property [toString], or an array that holds one, never a string; the
    [TypeError] leaves the listener, nothing is stored or logged.  The poll
    stores the mid price of a book whose best bid and best ask are both
    truthy, whatever its sign or size, and leaves the stored price as it was,
    without a console line, when either is falsy; it does not throw. *)
Theorem price_setters_do_not_validate (w : World) :
  (forall data text message ticker c p,
     JSON_parse data = Some message ->
     get_prop message "data" = Some ticker ->
     ToBoolean ticker = true ->
     get_prop message "stream" = Some (Str text) ->
     find (fun p => bool_decide (Some (toLowerCase (PairConfig.binanceSymbol p))
                                 = split "@" text !! 0%nat)) TRADING_PAIRS = Some p ->
     get_prop ticker "c" = Some c ->
     match parseFloat c with
     | Some price =>
         exists w',
           onBinanceMessage data w = Ok tt w'
           /\ lastBinancePrices w' = <[PairConfig.name p := price]> (lastBinancePrices w)
           /\ console w' = console w
     | None => onBinanceMessage data w = Throw TypeError w
     end)
  /\ (forall text, parseFloat (Str text) = Some (parseFloat_string text))
  /\ (forall rpc,
        NoDup (markets w).*1 ->
        solanaConnection w = true ->
        (forall p m, (p, m) ∈ markets w ->
                     is_Some (loadBids (rpc m)) /\ is_Some (loadAsks (rpc m))) ->
        exists w',
          updateAllSerumPrices rpc w = Ok tt w'
          /\ console w' = console w
          /\ forall p m bids asks,
               (p, m) ∈ markets w ->
               loadBids (rpc m) = Some bids ->
               loadAsks (rpc m) = Some asks ->
               lastSerumPrices w' !! p =
               match both (fst <$> bids !! 0%nat) (fst <$> asks !! 0%nat) with
               | Some (bid, ask) => Some ((bid + ask) / 2)%float
               | None => lastSerumPrices w !! p
               end).
Proof.
  split; [|split].
  - intros data text message ticker c p Hparse Hdata Htruthy Hstream Hfind Hc.
    rewrite (onBinanceMessage_ticker _ _ _ _ _ _ _ Hparse Hdata Htruthy Hstream Hfind Hc).
    destruct (parseFloat c) as [price|]; [|reflexivity].
    destruct (broadcastPrices_store
                (set_lastBinancePrices
                   (<[PairConfig.name p := price]> (lastBinancePrices w)) w))
      as (w' & Hrun & _ & Hbinance & Hconsole).
    exists w'. split; [exact Hrun|]. split; [exact Hbinance|exact Hconsole].
  - reflexivity.
  - intros rpc Hnd Hconn Hloaded.
    rewrite updateAllSerumPrices_eq, Hconn.
    destruct (broadcastPrices_store (foldl (poll_entry rpc) w (markets w)))
      as (w' & Hrun & Hserum & _ & Hconsole).
    exists w'. split; [exact Hrun|]. rewrite Hserum, Hconsole. split.
    + apply poll_all_console. intros e He Hrej.
      destruct (Hloaded e.1 e.2) as [[bids Hb] [asks Ha]]; [destruct e; exact He|].
      unfold polled in Hrej. rewrite Hb, Ha in Hrej.
      destruct (both _ _) as [[bid ask]|]; discriminate.
    + intros p m bids asks Hin Hb Ha.
      rewrite (poll_all_serum rpc _ w p m Hnd Hin). unfold polled. rewrite Hb, Ha.
      replace (getL2 1 bids !! 0%nat) with (bids !! 0%nat) by (destruct bids; reflexivity).
      replace (getL2 1 asks !! 0%nat) with (asks !! 0%nat) by (destruct asks; reflexivity).
      destruct (both _ _) as [[bid ask]|]; reflexivity.
Qed.

End Setters.

(** C5, as stated, fails: a ticker whose last price is -1 replaces the
    stored 50000 by -1, and nothing is logged. *)
Lemma invalid_tick_is_stored :
  exists w',
    react (rt := reference_runtime)
      (ev_binance_message 0 (ticker_message "btcusdc" "-1")) sample_streaming
      = Some (Ok tt w')
    /\ lastBinancePrices sample_streaming !! "BTC/USDC" = Some 50000%float
    /\ lastBinancePrices w' !! "BTC/USDC" = Some (-1)%float
    /\ console w' = console sample_streaming.
Proof.
  eexists. split; [vm_compute; reflexivity|].
  repeat split; vm_compute; reflexivity.
Qed.

Lemma price_setters_do_not_validate_witness :
  (exists w',
     onBinanceMessage (rt := reference_runtime) (ticker_message "btcusdc" "NaN")
       sample_streaming = Ok tt w'
     /\ isNaN <$> lastBinancePrices w' !! "BTC/USDC" = Some true)
  /\ onBinanceMessage (rt := reference_runtime)
       ("{" +:+ quoted "stream" +:+ ":" +:+ quoted "btcusdc@ticker" +:+ ","
        +:+ quoted "data" +:+ ":{" +:+ quoted "c" +:+ ":{" +:+ quoted "toString"
        +:+ ":1}}}")
       sample_streaming = Throw TypeError sample_streaming
  /\ (exists w',
        updateAllSerumPrices (rt := reference_runtime) negative_rpc sample_polled = Ok tt w'
        /\ lastSerumPrices w' !! "BTC/USDC" = Some (-2)%float).
Proof.
  destruct (price_setters_do_not_validate (rt := reference_runtime) sample_streaming)
    as (Hexchange & _ & _).
  destruct (price_setters_do_not_validate (rt := reference_runtime) sample_polled)
    as (_ & _ & Hpoll).
  split; [|split].
  - destruct (Hexchange (ticker_message "btcusdc" "NaN") "btcusdc@ticker"
                (Object [("stream", Str "btcusdc@ticker");
                         ("data", Object [("c", Str "NaN")])])
                (Object [("c", Str "NaN")]) (Str "NaN")
                {| PairConfig.serumMarketAddress := "CVfYa8RGXnuDBeGmniCcdkBwoLqVxh92xB1JqgRQx3F";
                   PairConfig.binanceSymbol := "BTCUSDC";
                   PairConfig.name := "BTC/USDC";
                   PairConfig.programId := "EUqojwWA2rd19FZrzeBncJsm38Jm1hEhE3zsmX3bRc2o" |})
      as (w' & Hrun & Hstore & _); try (vm_compute; reflexivity).
    exists w'. split; [exact Hrun|]. rewrite Hstore. vm_compute. reflexivity.
  - apply (Hexchange _ "btcusdc@ticker"
             (Object [("stream", Str "btcusdc@ticker");
                      ("data", Object [("c", Object [("toString", Number 1)])])])
             (Object [("c", Object [("toString", Number 1)])])
             (Object [("toString", Number 1)])
             {| PairConfig.serumMarketAddress := "CVfYa8RGXnuDBeGmniCcdkBwoLqVxh92xB1JqgRQx3F";
                PairConfig.binanceSymbol := "BTCUSDC";
                PairConfig.name := "BTC/USDC";
                PairConfig.programId := "EUqojwWA2rd19FZrzeBncJsm38Jm1hEhE3zsmX3bRc2o" |});
      vm_compute; reflexivity.
  - destruct (Hpoll negative_rpc) as (w' & Hrun & _ & Hstore).
    + apply (bool_decide_unpack _). vm_compute. exact I.
    + vm_compute. reflexivity.
    + intros p m _. split; eexists; reflexivity.
    + exists w'. split; [exact Hrun|].
      rewrite (Hstore "BTC/USDC"
                 {| address := "CVfYa8RGXnuDBeGmniCcdkBwoLqVxh92xB1JqgRQx3F";
                    program := "EUqojwWA2rd19FZrzeBncJsm38Jm1hEhE3zsmX3bRc2o" |}
                 [((-3)%float, 1%float)] [((-1)%float, 1%float)]);
        [vm_compute; reflexivity|vm_compute; left|reflexivity|reflexivity].
Defined.

(** ** Frames of the listeners that connect, close and schedule *)

Section ControlFrames.
Context `{rt : Runtime}.
Context {R : World -> World -> Prop} `{!Reflexive R} `{!Transitive R}.
Hypothesis R_console : forall v w, R w (set_console v w).

Lemma keeps_onConnection (ws : nat) :
  (forall w, R w (set_clients (set_add ws (clients w)) w)) -> keeps R (onConnection ws).
Proof. intros R_clients. unfold onConnection. keeps_auto. Qed.

Lemma keeps_onClientClose (ws : nat) :
  (forall w, R w (set_clients (set_delete ws (clients w)) w)) ->
  keeps R (onClientClose ws).
Proof. intros R_clients. unfold onClientClose. keeps_auto. Qed.

Lemma keeps_startBinanceWebSockets :
  (forall w, R w (set_binanceWs (Some (length (upstreams w)))
                    (set_upstreams (upstreams w ++ [exchange_socket]) w))) ->
  keeps R startBinanceWebSockets.
Proof. intros R_upstream w. apply R_upstream. Qed.

Lemma keeps_setTimeout (c : Callback) (ms : Z) :
  (forall w, R w (set_timers
                    (timers w ++ [{| callback := c; delay := ms; repeating := false |}]) w)) ->
  keeps R (setTimeout c ms).
Proof. intros R_timer. apply keeps_modify, R_timer. Qed.

Lemma keeps_setInterval (c : Callback) (ms : Z) :
  (forall w, R w (set_timers
                    (timers w ++ [{| callback := c; delay := ms; repeating := true |}]) w)) ->
  keeps R (setInterval c ms).
Proof. intros R_timer. apply keeps_modify, R_timer. Qed.

Lemma keeps_onBinanceClose :
  (forall w, R w (set_timers (timers w ++ [reconnect_timer]) w)) ->
  keeps R onBinanceClose.
Proof.
  intros R_timer. unfold onBinanceClose. keeps_auto using (apply keeps_setTimeout, R_timer).
Qed.

Lemma keeps_load_markets (load : PairConfig.t -> bool) :
  (forall p w,
     p ∈ TRADING_PAIRS ->
     R w (set_markets (map_set (PairConfig.name p) (market_of p) (markets w)) w)) ->
  keeps R (forEach TRADING_PAIRS (fun pair =>
    try_catch
      (if load pair then
         let market := {| address := PairConfig.serumMarketAddress pair;
                          program := PairConfig.programId pair |} in
         modify (fun w => set_markets (map_set (PairConfig.name pair) market (markets w)) w);;
         log ("Loaded market for " +:+ PairConfig.name pair)
       else throw RejectedError)
      (fun error =>
         log_error ("Error loading market for " +:+ PairConfig.name pair +:+ ":")
                   (Some error)))).
Proof.
  intros R_markets. apply keeps_forEach_in. intros p Hp. keeps_auto.
Qed.

End ControlFrames.

(** ** The connection to the exchange *)

(** Counting through an update and a removal at a position. *)
Lemma filter_length_insert {A : Type} (P : A -> Prop) `{!forall x, Decision (P x)}
    (l : list A) (i : nat) (x y : A) :
  l !! i = Some x ->
  (length (filter P (<[i := y]> l)) + (if decide (P x) then 1 else 0)
   = length (filter P l) + (if decide (P y) then 1 else 0))%nat.
Proof.
  revert i. induction l as [|a l IH]; intros [|i] Hi; try discriminate.
  - cbn in Hi. injection Hi as ->.
    change (<[0%nat := y]> (x :: l)) with (y :: l). rewrite !filter_cons.
    destruct (decide (P x)), (decide (P y)); cbn [length]; lia.
  - cbn in Hi. change (<[S i := y]> (a :: l)) with (a :: <[i := y]> l).
    rewrite !filter_cons. specialize (IH i Hi).
    destruct (decide (P a)); cbn [length]; lia.
Qed.

Lemma filter_length_delete {A : Type} (P : A -> Prop) `{!forall x, Decision (P x)}
    (l : list A) (i : nat) (x : A) :
  l !! i = Some x ->
  (length (filter P (delete i l)) + (if decide (P x) then 1 else 0)
   = length (filter P l))%nat.
Proof.
  revert i. induction l as [|a l IH]; intros [|i] Hi; try discriminate.
  - cbn in Hi. injection Hi as ->.
    change (delete 0%nat (x :: l)) with l. rewrite filter_cons.
    destruct (decide (P x)); cbn [length]; lia.
  - cbn in Hi. change (delete (S i) (a :: l)) with (a :: delete i l).
    rewrite !filter_cons. specialize (IH i Hi).
    destruct (decide (P a)); cbn [length]; lia.
Qed.

Lemma filter_none {A : Type} (P : A -> Prop) `{!forall x, Decision (P x)} (l : list A) :
  Forall (fun x => ~ P x) l -> filter P l = [].
Proof.
  induction 1 as [|x l Hx _ IH]; [reflexivity|].
  rewrite filter_cons, decide_False by exact Hx. exact IH.
Qed.

#[export] Instance grown_refl : Reflexive grown.
Proof.
  intros w. split; [reflexivity|]. split; [reflexivity|].
  exists []. split; [symmetry; apply app_nil_r|constructor].
Qed.

#[export] Instance grown_trans : Transitive grown.
Proof.
  intros w1 w2 w3 (Hs1 & Hu1 & e1 & Ht1 & He1) (Hs2 & Hu2 & e2 & Ht2 & He2).
  split; [congruence|]. split; [congruence|].
  exists (e1 ++ e2). split; [rewrite Ht2, Ht1, app_assoc; reflexivity|].
  apply Forall_app; auto.
Qed.

Lemma grown_same (w w' : World) : links w' = links w -> grown w w'.
Proof.
  unfold links. intros [= Hs Hu Ht]. split; [exact Hs|]. split; [exact Hu|].
  exists []. split; [rewrite Ht; symmetry; apply app_nil_r|constructor].
Qed.

Lemma grown_timer (w : World) (t : Timer) :
  ~ is_reconnect t -> grown w (set_timers (timers w ++ [t]) w).
Proof.
  intros Ht. split; [reflexivity|]. split; [reflexivity|].
  exists [t]. split; [reflexivity|]. constructor; [exact Ht|constructor].
Qed.

Lemma links_ok_same (w w' : World) : links w' = links w -> links_ok w -> links_ok w'.
Proof.
  unfold links, links_ok, live, pending. intros [= -> -> ->]. auto.
Qed.

Lemma links_ok_grown (w w' : World) :
  solanaConnection w = true -> grown w w' -> links_ok w -> links_ok w'.
Proof.
  intros Hconn (Hs & Hu & extra & Ht & Hextra) [Hrep Hone].
  unfold links_ok, live, pending in *. rewrite Hs, Hu, Ht, Hconn in *. split.
  - apply Forall_app. split; [exact Hrep|].
    eapply Forall_impl; [exact Hextra|]. intros t Hno Hyes. contradiction.
  - rewrite filter_app, (filter_none _ extra Hextra), app_nil_r. exact Hone.
Qed.

Lemma keeps_Ok {A : Type} (R : World -> World -> Prop) (m : M A) (w w' : World) (a : A) :
  keeps R m -> m w = Ok a w' -> R w w'.
Proof. intros Hm Hrun. specialize (Hm w). rewrite Hrun in Hm. exact Hm. Qed.

Lemma bind_Ok_inv {A B : Type} (m : M A) (f : A -> M B) (w w' : World) (b : B) :
  (m ≫= f) w = Ok b w' -> exists a w1, m w = Ok a w1 /\ f a w1 = Ok b w'.
Proof.
  rewrite bind_eq. destruct (m w) as [a w1|e w1]; [|discriminate].
  intros Hf. exists a, w1. auto.
Qed.

(** Side conditions of a frame for a component: the setter writes another
    field. *)
Ltac same_side := unfold sends_to; intros; unfold same; reflexivity.

Section Links.
Context `{rt : Runtime}.

(** A plain event leaves the sockets to the exchange and the timers as
    they were. *)
Lemma plain_step_links (w w' : World) (e : Event) :
  plain e -> step w e w' -> links w' = links w.
Proof.
  intros Hplain Hstep. unfold step in Hstep.
  destruct e; try contradiction; cbn [react] in Hstep.
  - destruct (sockets w !! ws); [discriminate|]. apply (inj Some) in Hstep as Hrun.
    eapply (keeps_Ok (same links)) in Hrun; [exact Hrun|].
    apply keeps_onConnection; same_side.
  - destruct (readyState <$> sockets w !! ws) as [[]|]; try discriminate;
      apply (inj Some) in Hstep as Hrun;
      (eapply (keeps_Ok (same links)) in Hrun; [exact Hrun|]);
      apply keeps_onClientMessage; same_side.
  - destruct (sockets w !! ws) as [s|]; [|discriminate].
    destruct (readyState s); try discriminate. apply (inj Some) in Hstep.
    injection Hstep as <-. reflexivity.
  - destruct (sockets w !! ws) as [s|]; [|discriminate].
    destruct (readyState s); try discriminate; apply (inj Some) in Hstep as Hrun;
      (eapply (keeps_Ok (same links)) in Hrun; [exact Hrun|]);
      apply keeps_onClientClose; same_side.
  - destruct (state <$> upstreams w !! i) as [[]|]; try discriminate;
      apply (inj Some) in Hstep as Hrun;
      (eapply (keeps_Ok (same links)) in Hrun; [exact Hrun|]);
      apply keeps_onBinanceMessage; same_side.
  - destruct (state <$> upstreams w !! i) as [[]|]; try discriminate;
      apply (inj Some) in Hstep as Hrun;
      (eapply (keeps_Ok (same links)) in Hrun; [exact Hrun|]);
      apply keeps_onBinanceError; same_side.
Qed.

(** The exchange socket opening. *)
Lemma open_step (w w' : World) (i : nat) :
  step w (ev_binance_open i) w' ->
  exists u,
    upstreams w !! i = Some u /\ state u = CONNECTING
    /\ upstreams w' = <[i := set_state OPEN u]> (upstreams w)
    /\ timers w' = timers w
    /\ solanaConnection w' = solanaConnection w.
Proof.
  unfold step. cbn [react]. intros Hstep.
  destruct (upstreams w !! i) as [u|] eqn:Hu; [|discriminate].
  destruct (state u) eqn:Hstate; try discriminate.
  injection Hstep as <-. exists u. auto.
Qed.

(** The exchange socket closing: the listener logs and sets one timer. *)
Lemma close_step (w w' : World) (i : nat) :
  step w (ev_binance_close i) w' ->
  exists u,
    upstreams w !! i = Some u /\ state u <> CLOSED
    /\ upstreams w' = <[i := set_state CLOSED u]> (upstreams w)
    /\ timers w' = timers w ++ [reconnect_timer]
    /\ solanaConnection w' = solanaConnection w.
Proof.
  unfold step. cbn [react]. intros Hstep.
  destruct (upstreams w !! i) as [u|] eqn:Hu; [|discriminate].
  destruct (state u) eqn:Hstate; try discriminate;
    injection Hstep as <-; exists u; rewrite Hstate; auto.
Qed.

(** A timer firing: it is removed unless it repeats, then its callback
    runs. *)
Lemma timer_step (w w' : World) (j : nat) (rpc : Market -> Books) :
  step w (ev_timer j rpc) w' ->
  exists t,
    timers w !! j = Some t
    /\ run_callback (callback t) rpc
         (if repeating t then w else set_timers (delete j (timers w)) w) = Ok tt w'.
Proof.
  unfold step. cbn [react]. intros Hstep.
  destruct (timers w !! j) as [t|]; [|discriminate].
  apply (inj Some) in Hstep. exists t. auto.
Qed.

Lemma startBinanceWebSockets_eq (w : World) :
  exists u,
    state u = CONNECTING
    /\ startBinanceWebSockets w =
       Ok tt (set_binanceWs (Some (length (upstreams w)))
                (set_upstreams (upstreams w ++ [u]) w)).
Proof. eexists. split; [|reflexivity]. reflexivity. Qed.

End Links.

Ltac grown_side := unfold sends_to; intros; apply grown_same; reflexivity.

Section Invariant.
Context `{rt : Runtime}.

(** [initialize()], when it returns, has opened one socket to the exchange
    and set timers that open none. *)
Lemma initialize_links (load : PairConfig.t -> bool) (rpc : Market -> Books)
    (w w' : World) :
  initialize load rpc w = Ok tt w' ->
  solanaConnection w' = true
  /\ exists u extra,
       state u = CONNECTING
       /\ upstreams w' = upstreams w ++ [u]
       /\ timers w' = timers w ++ extra
       /\ Forall (fun t => ~ is_reconnect t) extra.
Proof.
  unfold initialize. intros Hrun.
  apply bind_Ok_inv in Hrun as (? & w1 & H1 & Hrun). injection H1 as <- <-.
  apply bind_Ok_inv in Hrun as (? & w2 & H2 & Hrun).
  apply (keeps_Ok grown) in H2; [|apply keeps_load_markets; grown_side].
  destruct H2 as (Hs2 & Hu2 & e2 & Ht2 & He2).
  apply bind_Ok_inv in Hrun as (? & w3 & H3 & Hrun).
  destruct (startBinanceWebSockets_eq w2) as (u & Hstate & Hstart).
  rewrite Hstart in H3. injection H3 as <- <-.
  apply bind_Ok_inv in Hrun as (? & w4 & H4 & Hrun).
  apply (keeps_Ok grown) in H4;
    [|apply keeps_startSerumWebSockets; grown_side].
  destruct H4 as (Hs4 & Hu4 & e4 & Ht4 & He4).
  apply bind_Ok_inv in Hrun as (? & w5 & H5 & Hrun). injection H5 as <- <-.
  injection Hrun as <-. cbn in *.
  split; [congruence|]. exists u, (e2 ++ e4 ++ [{| callback := call_updateAllSerumPrices;
                                                  delay := 1000; repeating := true |}]).
  split; [exact Hstate|]. split; [congruence|]. split.
  - rewrite Ht4, Ht2, <- !app_assoc. reflexivity.
  - repeat (apply Forall_app; split); auto.
    constructor; [unfold is_reconnect; discriminate|constructor].
Qed.

(** A reconnection timer firing opens one socket. *)
Lemma reconnect_step (w w' : World) (j : nat) (rpc : Market -> Books) (t : Timer) :
  links_ok w ->
  timers w !! j = Some t -> is_reconnect t ->
  step w (ev_timer j rpc) w' ->
  exists u,
    state u = CONNECTING
    /\ upstreams w' = upstreams w ++ [u]
    /\ timers w' = delete j (timers w)
    /\ solanaConnection w' = solanaConnection w.
Proof.
  intros [Hrep _] Ht Hre Hstep.
  apply timer_step in Hstep as (t' & Ht' & Hrun).
  rewrite Ht in Ht'. injection Ht' as <-.
  rewrite (proj1 (Forall_lookup _ _) Hrep j t Ht Hre) in Hrun.
  unfold is_reconnect in Hre. rewrite Hre in Hrun. cbn [run_callback] in Hrun.
  destruct (startBinanceWebSockets_eq (set_timers (delete j (timers w)) w))
    as (u & Hstate & Hstart).
  rewrite Hstart in Hrun. injection Hrun as <-. exists u. auto.
Qed.

(** Any other timer firing leaves the sockets to the exchange as they
    were, and drops or adds no reconnection timer. *)
Lemma other_timer_step (w w' : World) (j : nat) (rpc : Market -> Books) (t : Timer) :
  timers w !! j = Some t -> ~ is_reconnect t ->
  step w (ev_timer j rpc) w' ->
  grown (if repeating t then w else set_timers (delete j (timers w)) w) w'.
Proof.
  intros Ht Hre Hstep.
  apply timer_step in Hstep as (t' & Ht' & Hrun).
  rewrite Ht in Ht'. injection Ht' as <-.
  unfold is_reconnect in Hre.
  destruct (callback t); [contradiction|..]; cbn [run_callback] in Hrun.
  - apply (keeps_Ok grown) in Hrun; [exact Hrun|].
    apply keeps_startSerumWebSockets; grown_side.
  - apply (keeps_Ok grown) in Hrun; [exact Hrun|].
    apply keeps_updateAllSerumPrices; grown_side.
Qed.

Lemma links_ok_drop (w : World) (j : nat) (t : Timer) :
  timers w !! j = Some t -> ~ is_reconnect t ->
  links_ok w -> links_ok (set_timers (delete j (timers w)) w).
Proof.
  intros Ht Hre [Hrep Hone]. unfold links_ok, live, pending in *. cbn. split.
  - apply Forall_delete, Hrep.
  - destruct (solanaConnection w).
    + pose proof (filter_length_delete is_reconnect _ _ _ Ht) as Hlen.
      rewrite decide_False in Hlen by exact Hre. lia.
    + destruct Hone as [_ Hnil]. rewrite Hnil in Ht. discriminate.
Qed.

(** Every turn of the event loop preserves the invariant. *)
Lemma step_links_ok (w w' : World) (e : Event) :
  step w e w' -> links_ok w -> links_ok w'.
Proof.
  intros Hstep Hok.
  destruct e;
    try (eapply links_ok_same;
         [eapply plain_step_links; [|exact Hstep]; exact I|exact Hok]).
  - (* initialize() *)
    unfold step in Hstep. cbn [react] in Hstep.
    destruct (solanaConnection w) eqn:Hconn; [discriminate|].
    apply (inj Some) in Hstep.
    destruct Hok as [_ Hempty]. rewrite Hconn in Hempty. destruct Hempty as [Hu Ht].
    destruct (initialize_links _ _ _ _ Hstep)
      as (Hconn' & u & extra & Hstate & Hu' & Ht' & Hextra).
    unfold links_ok, live, pending. rewrite Hconn', Hu', Ht', Hu, Ht. cbn [app]. split.
    + eapply Forall_impl; [exact Hextra|]. intros t Hno Hyes. contradiction.
    + rewrite (filter_none _ extra Hextra), filter_cons, decide_True; [reflexivity|].
      unfold is_live. rewrite Hstate. discriminate.
  - (* the exchange socket opens *)
    apply open_step in Hstep as (u & Hu & Hstate & Hu' & Ht' & Hs').
    destruct Hok as [Hrep Hone].
    unfold links_ok, live, pending in *. rewrite Hs', Hu', Ht'. split; [exact Hrep|].
    destruct (solanaConnection w); [|destruct Hone as [Hnil _]; rewrite Hnil in Hu; discriminate].
    pose proof (filter_length_insert is_live _ _ _ (set_state OPEN u) Hu) as Hlen.
    rewrite !decide_True in Hlen by (unfold is_live; cbn; rewrite ?Hstate; discriminate).
    lia.
  - (* the exchange socket closes *)
    apply close_step in Hstep as (u & Hu & Hlive & Hu' & Ht' & Hs').
    destruct Hok as [Hrep Hone].
    unfold links_ok, live, pending in *. rewrite Hs', Hu', Ht'. split.
    + apply Forall_app. split; [exact Hrep|]. constructor; [reflexivity|constructor].
    + destruct (solanaConnection w);
        [|destruct Hone as [Hnil _]; rewrite Hnil in Hu; discriminate].
      pose proof (filter_length_insert is_live _ _ _ (set_state CLOSED u) Hu) as Hlen.
      rewrite decide_True in Hlen by exact Hlive.
      rewrite decide_False in Hlen by (unfold is_live; cbn; auto).
      rewrite filter_app, length_app. cbn.
      rewrite decide_True by reflexivity. cbn. lia.
  - (* a timer fires *)
    pose proof Hstep as Hstep'.
    apply timer_step in Hstep' as (t & Ht & _).
    destruct (decide (is_reconnect t)) as [Hre|Hre].
    + destruct (reconnect_step _ _ _ _ _ Hok Ht Hre Hstep) as (u & Hstate & Hu' & Ht' & Hs').
      destruct Hok as [Hrep Hone].
      unfold links_ok, live, pending in *. rewrite Hs', Hu', Ht'. split.
      * apply Forall_delete, Hrep.
      * destruct (solanaConnection w);
          [|destruct Hone as [_ Hnil]; rewrite Hnil in Ht; discriminate].
        pose proof (filter_length_delete is_reconnect _ _ _ Ht) as Hlen.
        rewrite decide_True in Hlen by exact Hre.
        rewrite filter_app, length_app, filter_cons, decide_True
          by (unfold is_live; rewrite Hstate; discriminate).
        cbn. lia.
    + pose proof (other_timer_step _ _ _ _ _ Ht Hre Hstep) as Hgrown.
      assert (Hconn : solanaConnection w = true).
      { destruct Hok as [_ Hone]. destruct (solanaConnection w); [reflexivity|].
        destruct Hone as [_ Hnil]. rewrite Hnil in Ht. discriminate. }
      eapply links_ok_grown; [|exact Hgrown|].
      * destruct (repeating t); exact Hconn.
      * destruct (repeating t); [exact Hok|]. eapply links_ok_drop; eauto.
Qed.

Lemma reachable_links_ok (w : World) : reachable w -> links_ok w.
Proof.
  induction 1 as [cal|w w' e _ IH Hstep].
  - split; [constructor|]. cbn. auto.
  - eapply step_links_ok; eauto.
Qed.

End Invariant.

(** ** Reconnecting to the exchange *)

Section Reconnect.
Context `{rt : Runtime}.

(** A turn that fires no reconnection timer opens no socket to the
    exchange and drops no reconnection timer. *)
Lemma quiet_turn_window (w w' : World) (e : Event) :
  links_ok w -> solanaConnection w = true ->
  step w e w' -> ~ fires_reconnect w e ->
  solanaConnection w' = true
  /\ length (upstreams w') = length (upstreams w)
  /\ (pending w <= pending w')%nat.
Proof.
  intros Hok Hconn Hstep Hquiet.
  destruct e;
    try (assert (Hlinks : links w' = links w)
           by (eapply plain_step_links; [|exact Hstep]; exact I);
         unfold links in Hlinks; injection Hlinks as Hs Hu Ht;
         unfold pending; rewrite Hs, Hu, Ht; auto; fail).
  - unfold step in Hstep. cbn [react] in Hstep. rewrite Hconn in Hstep. discriminate.
  - apply open_step in Hstep as (u & Hu & _ & Hu' & Ht' & Hs').
    unfold pending. rewrite Hs', Hu', Ht', length_insert. auto.
  - apply close_step in Hstep as (u & Hu & _ & Hu' & Ht' & Hs').
    unfold pending. rewrite Hs', Hu', Ht', length_insert, filter_app, length_app.
    split; [exact Hconn|]. split; [reflexivity|lia].
  - pose proof Hstep as Hstep'. apply timer_step in Hstep' as (t & Ht & _).
    destruct (decide (is_reconnect t)) as [Hre|Hre].
    { exfalso. apply Hquiet. exists j, rpc, t. auto. }
    destruct (other_timer_step _ _ _ _ _ Ht Hre Hstep) as (Hs & Hu & extra & Ht' & Hextra).
    unfold pending. rewrite Hs, Hu, Ht', filter_app, length_app.
    pose proof (filter_length_delete is_reconnect _ _ _ Ht) as Hlen.
    rewrite decide_False in Hlen by exact Hre.
    destruct (repeating t); cbn; (split; [exact Hconn|]); (split; [reflexivity|]); lia.
Qed.

(** While a reconnection is pending and none fires, the invariant holds,
    no socket is opened and a reconnection stays pending. *)
Lemma quiet_window (w w2 : World) :
  quiet w w2 ->
  links_ok w -> solanaConnection w = true -> (1 <= pending w)%nat ->
  links_ok w2 /\ solanaConnection w2 = true
  /\ length (upstreams w2) = length (upstreams w)
  /\ (1 <= pending w2)%nat.
Proof.
  induction 1 as [w0|w1 w2 w3 e Hq IH Hturn Hno]; intros Hok Hconn Hpen; [auto|].
  destruct (IH Hok Hconn Hpen) as (Hok2 & Hconn2 & Hlen2 & Hpen2).
  destruct (quiet_turn_window _ _ _ Hok2 Hconn2 Hturn Hno) as (Hconn3 & Hlen3 & Hpen3).
  split; [eapply step_links_ok; eauto|]. split; [exact Hconn3|].
  split; [congruence|lia].
Qed.

(** C9. When a socket to the exchange closes, in any world the server can
    reach: the listener sets exactly one timer, for
    [startBinanceWebSockets] after 5000 ms, once, and opens no socket; no
    socket to the exchange is then live and one reconnection is pending;
    as long as that timer has not fired, whatever else happens, no socket
    to the exchange is opened and none is live; and when it fires, exactly
    one socket is opened. *)
Theorem exchange_close_schedules_one_reconnect (w w' : World) (i : nat) :
  reachable w ->
  step w (ev_binance_close i) w' ->
  timers w' = timers w ++ [{| callback := call_startBinanceWebSockets;
                              delay := 5000; repeating := false |}]
  /\ length (upstreams w') = length (upstreams w)
  /\ live w' = 0%nat /\ pending w' = 1%nat
  /\ (forall w2,
        quiet w' w2 ->
        length (upstreams w2) = length (upstreams w')
        /\ live w2 = 0%nat /\ pending w2 = 1%nat)
  /\ (forall w2 w3 j rpc t,
        quiet w' w2 ->
        timers w2 !! j = Some t -> is_reconnect t ->
        step w2 (ev_timer j rpc) w3 ->
        length (upstreams w3) = S (length (upstreams w2))
        /\ live w3 = 1%nat /\ pending w3 = 0%nat).
Proof.
  intros Hreach Hstep.
  pose proof (reachable_links_ok _ Hreach) as Hok.
  pose proof (step_links_ok _ _ _ Hstep Hok) as Hok'.
  destruct (close_step _ _ _ Hstep) as (u & Hu & Hlive & Hu' & Ht' & Hs').
  assert (Hconn : solanaConnection w = true).
  { destruct Hok as [_ Hone]. destruct (solanaConnection w); [reflexivity|].
    destruct Hone as [Hnil _]. rewrite Hnil in Hu. discriminate. }
  assert (Hconn' : solanaConnection w' = true) by congruence.
  assert (Hpending : (1 <= pending w')%nat).
  { unfold pending. rewrite Ht', filter_app, length_app. cbn.
    rewrite decide_True by reflexivity. cbn. lia. }
  assert (Hwindow : forall w2,
            quiet w' w2 ->
            links_ok w2 /\ solanaConnection w2 = true
            /\ length (upstreams w2) = length (upstreams w')
            /\ (1 <= pending w2)%nat)
    by (intros w2 Hq; apply (quiet_window _ _ Hq); auto).
  assert (Hcount : forall w2,
            links_ok w2 -> solanaConnection w2 = true -> (1 <= pending w2)%nat ->
            live w2 = 0%nat /\ pending w2 = 1%nat).
  { intros w2 [_ Hone] Hconn2 Hpen2. rewrite Hconn2 in Hone. lia. }
  split; [exact Ht'|]. split; [rewrite Hu'; apply length_insert|].
  split; [apply Hcount; auto|]. split; [apply Hcount; auto|]. split.
  - intros w2 Hq. destruct (Hwindow w2 Hq) as (Hok2 & Hconn2 & Hlen2 & Hpen2).
    split; [exact Hlen2|]. apply Hcount; auto.
  - intros w2 w3 j rpc t Hq Ht Hre Hfire.
    destruct (Hwindow w2 Hq) as (Hok2 & Hconn2 & Hlen2 & Hpen2).
    destruct (Hcount w2 Hok2 Hconn2 Hpen2) as [Hlive2 Hpending2].
    destruct (reconnect_step _ _ _ _ _ Hok2 Ht Hre Hfire) as (u3 & Hstate3 & Hu3 & Ht3 & Hs3).
    pose proof (step_links_ok _ _ _ Hfire Hok2) as [_ Hone3].
    rewrite Hs3, Hconn2 in Hone3.
    pose proof (filter_length_delete is_reconnect _ _ _ Ht) as Hlen.
    rewrite decide_True in Hlen by exact Hre.
    assert (Hp3 : pending w3 = 0%nat).
    { unfold pending in *. rewrite Ht3. lia. }
    split; [rewrite Hu3, length_app; cbn; lia|]. split; [lia|exact Hp3].
Qed.

(** A list of events that runs to its end leads to a reachable world. *)
Lemma run_reachable (events : list Event) (w0 w : World) :
  reachable w0 -> run events w0 = Some (Ok tt w) -> reachable w.
Proof.
  revert w0. induction events as [|e rest IH]; intros w0 Hreach Hrun; cbn in Hrun.
  - injection Hrun as <-. exact Hreach.
  - destruct (react e w0) as [[[] w1|x w1]|] eqn:Hreact; try discriminate.
    apply (IH w1); [|exact Hrun]. eapply reachable_step; [exact Hreach|exact Hreact].
Qed.

End Reconnect.

Lemma exchange_close_schedules_one_reconnect_witness :
  timers sample_closed =
    timers sample_streaming ++ [{| callback := call_startBinanceWebSockets;
                                   delay := 5000; repeating := false |}]
  /\ length (upstreams sample_closed) = 1%nat
  /\ live sample_closed = 0%nat /\ pending sample_closed = 1%nat.
Proof.
  destruct (exchange_close_schedules_one_reconnect (rt := reference_runtime)
              sample_streaming sample_closed 0)
    as (Htimers & Hlength & Hlive & Hpending & _).
  - apply (run_reachable (rt := reference_runtime) streaming_trace
             (constructed sample_calendar)); [apply reachable_constructed|].
    vm_compute. reflexivity.
  - unfold step. vm_compute. reflexivity.
  - split; [exact Htimers|]. split; [rewrite Hlength; vm_compute; reflexivity|].
    split; [exact Hlive|exact Hpending].
Defined.

(** ** Invariants of the event loop *)

Section CallbackFrames.
Context `{rt : Runtime}.
Context {R : World -> World -> Prop} `{!Reflexive R} `{!Transitive R}.
Hypothesis R_dates : forall v w, R w (set_dates v w).
Hypothesis R_console : forall v w, R w (set_console v w).
Hypothesis R_send : forall ws, sends_to R ws.
Hypothesis R_serum : forall k m v w,
  (k, m) ∈ markets w -> R w (set_lastSerumPrices (<[k := v]> (lastSerumPrices w)) w).
Hypothesis R_upstream : forall w,
  R w (set_binanceWs (Some (length (upstreams w)))
         (set_upstreams (upstreams w ++ [exchange_socket]) w)).

Lemma keeps_run_callback (c : Callback) (rpc : Market -> Books) :
  keeps R (run_callback c rpc).
Proof.
  destruct c; cbn [run_callback].
  - apply keeps_startBinanceWebSockets; assumption.
  - apply keeps_startSerumWebSockets; assumption.
  - apply keeps_updateAllSerumPrices; assumption.
Qed.

Lemma keeps_initialize (load : PairConfig.t -> bool) (rpc : Market -> Books) :
  (forall p w,
     p ∈ TRADING_PAIRS ->
     R w (set_markets (map_set (PairConfig.name p) (market_of p) (markets w)) w)) ->
  (forall w, R w (set_solanaConnection true w)) ->
  (forall w, R w (set_timers (timers w ++ [poll_timer]) w)) ->
  keeps R (initialize load rpc).
Proof.
  intros R_markets R_solana R_timer. unfold initialize.
  apply keeps_bind; [apply keeps_modify; assumption|intros _].
  apply keeps_bind; [apply keeps_load_markets; assumption|intros _].
  keeps_auto using
    first [ apply keeps_startBinanceWebSockets; assumption
          | apply keeps_startSerumWebSockets; assumption
          | apply keeps_setInterval; assumption ].
Qed.

End CallbackFrames.

Section Writes.
Context `{rt : Runtime}.
Context {R : World -> World -> Prop} `{!Reflexive R} `{!Transitive R}.

(** A turn of the event loop is made of the writes of its event. *)
Lemma step_event_writes (w w' : World) (e : Event) :
  event_writes e R -> step w e w' -> R w w'.
Proof.
  unfold step. destruct e; cbn [event_writes react]; intros Hwrites Hstep.
  - destruct Hwrites as (? & ? & ? & ? & ? & ? & ? & ?).
    destruct (solanaConnection w); [discriminate|]. apply (inj Some) in Hstep.
    refine (keeps_Ok R _ _ _ _ _ Hstep). apply keeps_initialize; assumption.
  - destruct Hwrites as (Hconnected & ? & ?).
    destruct (sockets w !! ws) eqn:Hs; [discriminate|]. apply (inj Some) in Hstep.
    etransitivity; [apply Hconnected, Hs|].
    refine (keeps_Ok R _ _ _ _ _ Hstep). apply keeps_onConnection; assumption.
  - destruct Hwrites as (? & ? & ?).
    destruct (readyState <$> sockets w !! ws) as [[]|]; try discriminate;
      apply (inj Some) in Hstep;
      refine (keeps_Ok R _ _ _ _ _ Hstep); apply keeps_onClientMessage; assumption.
  - destruct (sockets w !! ws) as [s|] eqn:Hs; [|discriminate].
    destruct (readyState s) eqn:Hstate; try discriminate. apply (inj Some) in Hstep.
    injection Hstep as <-. apply Hwrites; assumption.
  - destruct Hwrites as (Hclosed & ? & ?).
    destruct (sockets w !! ws) as [s|] eqn:Hs; [|discriminate].
    destruct (readyState s) eqn:Hstate; try discriminate; apply (inj Some) in Hstep;
      (etransitivity; [apply (Hclosed s); [exact Hs|rewrite Hstate; discriminate]|]);
      refine (keeps_Ok R _ _ _ _ _ Hstep); apply keeps_onClientClose; assumption.
  - destruct Hwrites as (Hopen & ?).
    destruct (upstreams w !! i) as [u|] eqn:Hu; [|discriminate].
    destruct (state u) eqn:Hstate; try discriminate. apply (inj Some) in Hstep.
    etransitivity; [apply (Hopen u); assumption|].
    refine (keeps_Ok R _ _ _ _ _ Hstep). apply keeps_onBinanceOpen; assumption.
  - destruct Hwrites as (? & ? & ?).
    destruct (state <$> upstreams w !! i) as [[]|]; try discriminate;
      apply (inj Some) in Hstep;
      refine (keeps_Ok R _ _ _ _ _ Hstep); apply keeps_onBinanceMessage; assumption.
  - destruct (state <$> upstreams w !! i) as [[]|]; try discriminate;
      apply (inj Some) in Hstep;
      refine (keeps_Ok R _ _ _ _ _ Hstep); apply keeps_onBinanceError; assumption.
  - destruct Hwrites as (Hclosed & ? & ?).
    destruct (upstreams w !! i) as [u|] eqn:Hu; [|discriminate].
    destruct (state u) eqn:Hstate; try discriminate; apply (inj Some) in Hstep;
      (etransitivity; [apply (Hclosed u); [exact Hu|rewrite Hstate; discriminate]|]);
      refine (keeps_Ok R _ _ _ _ _ Hstep); apply keeps_onBinanceClose; assumption.
  - destruct Hwrites as (Hfired & ? & ? & ? & ? & ?).
    destruct (timers w !! j) as [t|] eqn:Ht; [|discriminate]. apply (inj Some) in Hstep.
    etransitivity; [|refine (keeps_Ok R _ _ _ _ _ Hstep); apply keeps_run_callback; assumption].
    destruct (repeating t) eqn:Hrep; [reflexivity|apply (Hfired t); assumption].
Qed.

(** Every turn of the event loop is made of the elementary writes. *)
Lemma step_writes (w w' : World) (e : Event) :
  closed_under_writes R -> step w e w' -> R w w'.
Proof.
  intros writes. apply step_event_writes. destruct writes.
  destruct e; cbn [event_writes]; repeat split; eauto.
Qed.

End Writes.

#[export] Instance preserves_refl (P : World -> Prop) : Reflexive (preserves P).
Proof. intros w HP. exact HP. Qed.

#[export] Instance preserves_trans (P : World -> Prop) : Transitive (preserves P).
Proof. intros w1 w2 w3 H12 H23 HP. auto. Qed.

(** A property of the constructed object that every write preserves holds
    in every world the server reaches. *)
Lemma reachable_invariant `{rt : Runtime} (P : World -> Prop) (w : World) :
  (forall cal, P (constructed cal)) ->
  closed_under_writes (preserves P) ->
  reachable w -> P w.
Proof.
  intros Hinit Hwrites. induction 1 as [cal|w w' e _ IH Hstep]; [apply Hinit|].
  exact (step_writes _ _ _ Hwrites Hstep IH).
Qed.

Lemma set_add_NoDup (x : nat) (l : list nat) : NoDup l -> NoDup (set_add x l).
Proof.
  intros Hl. unfold set_add. destruct (bool_decide (x ∈ l)) eqn:Hx; [exact Hl|].
  apply bool_decide_eq_false in Hx. apply NoDup_app. split; [exact Hl|].
  split; [|apply NoDup_singleton].
  intros y Hy Hy'%list_elem_of_singleton. subst. contradiction.
Qed.

Lemma map_set_keys {V : Type} (k : string) (v : V) (m : list (string * V)) :
  (map_set k v m).*1 = if bool_decide (k ∈ m.*1) then m.*1 else m.*1 ++ [k].
Proof.
  induction m as [|[k' v'] m IH]; [reflexivity|]. cbn [map_set].
  destruct (String.eqb_spec k k') as [->|Hne].
  - cbn. rewrite bool_decide_eq_true_2 by left. reflexivity.
  - cbn [fmap list_fmap fst]. cbn in IH. rewrite IH.
    destruct (bool_decide (k ∈ m.*1)) eqn:Hk.
    + apply bool_decide_eq_true in Hk.
      rewrite bool_decide_eq_true_2 by (right; exact Hk). reflexivity.
    + apply bool_decide_eq_false in Hk.
      rewrite bool_decide_eq_false_2; [reflexivity|].
      intros [?|?]%elem_of_cons; contradiction.
Qed.

Lemma map_set_NoDup {V : Type} (k : string) (v : V) (m : list (string * V)) :
  NoDup m.*1 -> NoDup (map_set k v m).*1.
Proof.
  intros Hm. rewrite map_set_keys. destruct (bool_decide (k ∈ m.*1)) eqn:Hk; [exact Hm|].
  apply bool_decide_eq_false in Hk. apply NoDup_app. split; [exact Hm|].
  split; [|apply NoDup_singleton].
  intros y Hy Hy'%list_elem_of_singleton. subst. contradiction.
Qed.

(** The registry of clients never holds a socket twice. *)
Lemma reachable_clients_NoDup `{rt : Runtime} (w : World) :
  reachable w -> NoDup (clients w).
Proof.
  apply (reachable_invariant (fun w => NoDup (clients w))).
  - intros cal. constructor.
  - constructor; try (unfold sends_to, preserves; intros; assumption).
    + intros ws w0 HP. cbn. apply set_add_NoDup, HP.
    + intros ws w0 HP. cbn. apply NoDup_filter, HP.
Qed.

(** The map of markets never holds a pair name twice. *)
Lemma reachable_markets_NoDup `{rt : Runtime} (w : World) :
  reachable w -> NoDup (markets w).*1.
Proof.
  apply (reachable_invariant (fun w => NoDup (markets w).*1)).
  - intros cal. constructor.
  - constructor; try (unfold sends_to, preserves; intros; assumption).
    intros p w0 _ HP. cbn. apply map_set_NoDup, HP.
Qed.

(** * Further properties of the methods *)

(** ** [getAllPairData] *)

Lemma records_from_pairs (bs ss : gmap string number) (feeB feeS : number)
    (cal : nat -> string) (pairs : list PairConfig.t) (n : nat) :
  PriceDifferenceData.pair <$> records_from bs ss feeB feeS cal pairs n =
  PairConfig.name <$>
    filter (fun p => is_Some (both (bs !! PairConfig.name p) (ss !! PairConfig.name p))) pairs.
Proof.
  revert n. induction pairs as [|p rest IH]; intros n; [reflexivity|].
  cbn [records_from]. rewrite filter_cons.
  destruct (both (bs !! PairConfig.name p) (ss !! PairConfig.name p)) as [[b s]|] eqn:Hboth.
  - rewrite decide_True by (eexists; reflexivity). cbn. rewrite IH. reflexivity.
  - rewrite decide_False by (intros [x Hx]; discriminate). apply IH.
Qed.

Lemma records_from_timestamps (bs ss : gmap string number) (feeB feeS : number)
    (cal : nat -> string) (pairs : list PairConfig.t) (n : nat) :
  PriceDifferenceData.timestamp <$> records_from bs ss feeB feeS cal pairs n =
  cal <$> seq n (length (records_from bs ss feeB feeS cal pairs n)).
Proof.
  revert n. induction pairs as [|p rest IH]; intros n; [reflexivity|].
  cbn [records_from].
  destruct (both (bs !! PairConfig.name p) (ss !! PairConfig.name p)) as [[b s]|].
  - cbn. rewrite IH. reflexivity.
  - apply IH.
Qed.

(** X1. [getAllPairData] returns one record for each configured pair whose
    two stored prices are truthy, in the order of [TRADING_PAIRS] and none
    twice, so at most three; their timestamps are consecutive readings of the
    clock, one per record. *)
Theorem getAllPairData_in_configuration_order (w : World) :
  exists data w',
    getAllPairData w = Ok data w'
    /\ PriceDifferenceData.pair <$> data =
       PairConfig.name <$>
         filter (fun p => is_Some (both (lastBinancePrices w !! PairConfig.name p)
                                        (lastSerumPrices w !! PairConfig.name p)))
                TRADING_PAIRS
    /\ NoDup (PriceDifferenceData.pair <$> data)
    /\ (length data <= 3)%nat
    /\ PriceDifferenceData.timestamp <$> data = calendar w <$> seq (dates w) (length data)
    /\ dates w' = (dates w + length data)%nat.
Proof.
  rewrite getAllPairData_eq. eexists _, _. split; [reflexivity|].
  assert (Hpairs := records_from_pairs (lastBinancePrices w) (lastSerumPrices w)
                      (binanceFeeRate w) (solanaFeeRate w) (calendar w)
                      TRADING_PAIRS (dates w)).
  fold (records w) in Hpairs. split; [exact Hpairs|]. split; [|split; [|split]].
  - rewrite Hpairs. apply (sublist_NoDup _ (PairConfig.name <$> TRADING_PAIRS));
      [|apply fmap_sublist, sublist_filter].
    apply (bool_decide_unpack _). vm_compute. exact I.
  - rewrite <- (length_fmap PriceDifferenceData.pair), Hpairs, length_fmap.
    etransitivity; [apply length_filter|]. reflexivity.
  - apply records_from_timestamps.
  - reflexivity.
Qed.

(** ** Requests of a client *)

Lemma forEach_app {A : Type} (f : A -> M unit) (l1 l2 : list A) (w : World) :
  forEach (l1 ++ l2) f w =
  match forEach l1 f w with
  | Ok _ w1 => forEach l2 f w1
  | Throw e w1 => Throw e w1
  end.
Proof.
  revert w. induction l1 as [|x rest IH]; intros w; [reflexivity|].
  cbn [app]. rewrite !forEach_cons. destruct (f x w) as [[] w1|e w1]; [apply IH|reflexivity].
Qed.

Section Requests.
Context `{rt : Runtime}.

Lemma ws_send_open (ws : nat) (frame : Frame) (s : Socket) (w : World) :
  sockets w !! ws = Some s ->
  readyState s = OPEN ->
  ws_send ws frame w =
  Ok tt (set_sockets
           (<[ws := {| readyState := OPEN; sent := sent s ++ [frame] |}]> (sockets w)) w).
Proof.
  intros Hs Hopen. unfold ws_send. rewrite Hs. destruct s as [st frames].
  cbn in Hopen. subst st. reflexivity.
Qed.

Lemma sendAllPairData_eq (ws : nat) (w : World) :
  sendAllPairData ws w =
  ws_send ws (stringify_all (records w)) (set_dates (dates w + length (records w)) w).
Proof. unfold sendAllPairData. rewrite bind_eq, getAllPairData_eq. reflexivity. Qed.

Lemma sendSinglePairData_eq (ws : nat) (key : string) (w : World) :
  sendSinglePairData ws (Some key) w =
  match both (lastBinancePrices w !! key) (lastSerumPrices w !! key) with
  | Some (b, s) =>
      ws_send ws
        (stringify_record
           (record_at (binanceFeeRate w) (solanaFeeRate w) (calendar w) key b s (dates w)))
        (set_dates (S (dates w)) w)
  | None => Ok tt w
  end.
Proof.
  unfold sendSinglePairData, mbind, M_bind, gets.
  destruct (both _ _) as [[b s]|]; reflexivity.
Qed.

(** The listener on a parsed request whose method is [SUBSCRIBE]. *)
Lemma onClientMessage_subscribe (ws : nat) (message : string) (parsed params : value)
    (w : World) :
  JSON_parse message = Some parsed ->
  get_prop parsed "method" = Some (Str "SUBSCRIBE") ->
  get_prop parsed "params" = Some params ->
  onClientMessage ws message w =
  try_catch (handleSubscription ws params)
    (fun error => log_error "Error parsing message:" (Some error)) w.
Proof.
  intros Hparse Hmethod Hparams. unfold onClientMessage, try_catch.
  rewrite Hparse, bind_eq. unfold prop at 1. rewrite Hmethod. cbn [mret M_ret].
  cbn [strict_eq_string]. rewrite String.eqb_refl, bind_eq.
  unfold prop. rewrite Hparams. reflexivity.
Qed.

(** The body of the loop of [handleSubscription] on a string. *)
Lemma topic_body (ws : nat) (topic : string) (w : World) :
  (let parts := split "." topic in
   if bool_decide (parts !! 0%nat = Some "difference") then
     sendSinglePairData ws (parts !! 1%nat)
   else mret tt) w =
  match topic_pair topic with
  | Some key => sendSinglePairData ws (Some key) w
  | None => Ok tt w
  end.
Proof.
  unfold topic_pair. cbv zeta. destruct (bool_decide _); [|reflexivity].
  destruct (split "." topic !! 1%nat); reflexivity.
Qed.

Lemma passed_over_loop (ws : nat) (topics : list string) (w : World) :
  Forall (passed_over w) topics ->
  forEach (Str <$> topics) (fun param =>
    match param with
    | Str text =>
        let parts := split "." text in
        if bool_decide (parts !! 0%nat = Some "difference") then
          sendSinglePairData ws (parts !! 1%nat)
        else mret tt
    | _ => throw TypeError
    end) w = Ok tt w.
Proof.
  induction 1 as [|topic rest Htopic _ IH]; [reflexivity|].
  cbn [fmap list_fmap]. rewrite forEach_cons, topic_body.
  unfold passed_over in Htopic. destruct (topic_pair topic) as [key|]; [|exact IH].
  rewrite sendSinglePairData_eq, Htopic. exact IH.
Qed.

Lemma world_eq (w1 w2 : World) :
  solanaConnection w1 = solanaConnection w2 -> markets w1 = markets w2 ->
  binanceWs w1 = binanceWs w2 -> clients w1 = clients w2 ->
  lastBinancePrices w1 = lastBinancePrices w2 -> lastSerumPrices w1 = lastSerumPrices w2 ->
  binanceFeeRate w1 = binanceFeeRate w2 -> solanaFeeRate w1 = solanaFeeRate w2 ->
  profitabilityThreshold w1 = profitabilityThreshold w2 ->
  sockets w1 = sockets w2 -> upstreams w1 = upstreams w2 -> timers w1 = timers w2 ->
  console w1 = console w2 -> dates w1 = dates w2 -> calendar w1 = calendar w2 ->
  w1 = w2.
Proof. destruct w1, w2. cbn. intros. subst. reflexivity. Qed.


Lemma includes_wildcard_topics (topics : list string) :
  includes_wildcard (Array (Str <$> topics)) = bool_decide ("difference.all" ∈ topics).
Proof.
  cbn [includes_wildcard]. induction topics as [|t rest IH]; [reflexivity|].
  cbn [fmap list_fmap existsb strict_eq_string]. rewrite IH.
  destruct (String.eqb_spec t "difference.all") as [->|Hne].
  - cbn [orb]. symmetry. apply bool_decide_eq_true_2. left.
  - cbn [orb]. apply bool_decide_ext. rewrite elem_of_cons.
    split; [auto|intros [?|?]; [congruence|assumption]].
Qed.

End Requests.

(** X2. A [SUBSCRIBE] request whose [params] include the topic
    [difference.all] (an array with that item, or a string that contains the
    text) is answered at once, on an open socket, by exactly one frame: the
    batch [getAllPairData] returns, even when it is empty.  The other topics
    of the request are not looked at, and nothing but the requester's socket
    and the clock changes. *)
Theorem wildcard_request_is_answered_with_the_batch `{rt : Runtime}
    (ws : nat) (message : string) (parsed params : value) (s : Socket) (w : World) :
  JSON_parse message = Some parsed ->
  get_prop parsed "method" = Some (Str "SUBSCRIBE") ->
  get_prop parsed "params" = Some params ->
  includes_wildcard params = true ->
  sockets w !! ws = Some s ->
  readyState s = OPEN ->
  onClientMessage ws message w =
  Ok tt (set_sockets
           (<[ws := {| readyState := OPEN;
                       sent := sent s ++ [stringify_all (records w)] |}]> (sockets w))
           (set_dates (dates w + length (records w)) w)).
Proof.
  intros Hparse Hmethod Hparams Hwild Hs Hopen.
  rewrite (onClientMessage_subscribe _ _ _ _ _ Hparse Hmethod Hparams).
  unfold try_catch.
  assert (Hrun : handleSubscription ws params w = sendAllPairData ws w).
  { unfold handleSubscription. destruct params; try discriminate; cbn in Hwild;
      rewrite Hwild; reflexivity. }
  rewrite Hrun, sendAllPairData_eq.
  rewrite (ws_send_open ws _ s) by assumption. reflexivity.
Qed.

Lemma wildcard_request_is_answered_with_the_batch_witness :
  records sample_waiting = []
  /\ sent <$> sockets sample_waiting !! 7%nat = Some []
  /\ exists w',
       onClientMessage (rt := reference_runtime) 7
         (subscribe_message ["difference.BTC/USDC"; "difference.all"]) sample_waiting
       = Ok tt w'
       /\ sent <$> sockets w' !! 7%nat = Some [stringify_all []].
Proof.
  split; [vm_compute; reflexivity|]. split; [vm_compute; reflexivity|].
  eexists. split.
  - apply (wildcard_request_is_answered_with_the_batch (rt := reference_runtime) 7
             (subscribe_message ["difference.BTC/USDC"; "difference.all"])
             (Object [("method", Str "SUBSCRIBE");
                      ("params", Array [Str "difference.BTC/USDC"; Str "difference.all"])])
             (Array [Str "difference.BTC/USDC"; Str "difference.all"])
             {| readyState := OPEN; sent := [] |} sample_waiting);
      vm_compute; reflexivity.
  - vm_compute. reflexivity.
Defined.

Section Replies.
Variables (bs ss : gmap string number) (feeB feeS : number) (cal : nat -> string).



End Replies.



(** X4. A [SUBSCRIBE] request all of whose topics are passed over (another
    type than [difference], no pair component, or a pair without two truthy
    prices in the store, which includes every pair that is not configured
    while the store holds nothing for it) changes nothing at all: no reply,
    no console line, whatever the state of the socket. *)
Theorem unanswerable_topics_leave_no_trace `{rt : Runtime}
    (ws : nat) (message : string) (parsed : value) (topics : list string) (w : World) :
  JSON_parse message = Some parsed ->
  get_prop parsed "method" = Some (Str "SUBSCRIBE") ->
  get_prop parsed "params" = Some (Array (Str <$> topics)) ->
  "difference.all" ∉ topics ->
  Forall (passed_over w) topics ->
  onClientMessage ws message w = Ok tt w.
Proof.
  intros Hparse Hmethod Hparams Hwild Hskip.
  rewrite (onClientMessage_subscribe _ _ _ _ _ Hparse Hmethod Hparams).
  unfold try_catch, handleSubscription.
  pose proof (includes_wildcard_topics topics) as Hnone.
  rewrite bool_decide_eq_false_2 in Hnone by exact Hwild.
  cbn [includes_wildcard] in Hnone. rewrite Hnone.
  rewrite (passed_over_loop ws topics w Hskip). reflexivity.
Qed.

Lemma unanswerable_topics_leave_no_trace_witness :
  onClientMessage (rt := reference_runtime) 7
    (subscribe_message
       ["difference.BTC/USDC"; "depth.ETH/USDC"; "difference"; "difference.DOGE/USDC"])
    sample_waiting
  = Ok tt sample_waiting.
Proof.
  apply (unanswerable_topics_leave_no_trace (rt := reference_runtime) 7 _
           (Object [("method", Str "SUBSCRIBE");
                    ("params", Array [Str "difference.BTC/USDC"; Str "depth.ETH/USDC";
                                      Str "difference"; Str "difference.DOGE/USDC"])])
           ["difference.BTC/USDC"; "depth.ETH/USDC"; "difference"; "difference.DOGE/USDC"]).
  - vm_compute. reflexivity.
  - vm_compute. reflexivity.
  - vm_compute. reflexivity.
  - apply (bool_decide_unpack _). vm_compute. exact I.
  - repeat constructor; vm_compute; reflexivity.
Defined.

(** X5. An item of [params] that is not a string stops the request: the
    topics before it are served as if the request had ended there, the
    [TypeError] of [param.split] is caught and logged by the listener, and the
    topics after it are never looked at. *)
Theorem non_string_topic_stops_the_request `{rt : Runtime}
    (ws : nat) (message : string) (parsed bad : value) (served dropped : list value)
    (w w1 : World) :
  JSON_parse message = Some parsed ->
  get_prop parsed "method" = Some (Str "SUBSCRIBE") ->
  get_prop parsed "params" = Some (Array (served ++ bad :: dropped)) ->
  includes_wildcard (Array (served ++ bad :: dropped)) = false ->
  match bad with Str _ => False | _ => True end ->
  handleSubscription ws (Array served) w = Ok tt w1 ->
  onClientMessage ws message w =
  Ok tt (set_console
           (console w1 ++ [console_error "Error parsing message:" (Some TypeError)]) w1).
Proof.
  intros Hparse Hmethod Hparams Hwild Hbad Hserved.
  rewrite (onClientMessage_subscribe _ _ _ _ _ Hparse Hmethod Hparams).
  unfold try_catch, handleSubscription in *. cbn [includes_wildcard] in Hwild.
  rewrite Hwild. rewrite existsb_app in Hwild. apply orb_false_elim in Hwild as [Hpre _].
  rewrite Hpre in Hserved. rewrite forEach_app, Hserved, forEach_cons.
  destruct bad; try contradiction; reflexivity.
Qed.

Lemma non_string_topic_stops_the_request_witness :
  exists w1 w' btc,
    onClientMessage (rt := reference_runtime) 8
      ("{" +:+ quoted "method" +:+ ":" +:+ quoted "SUBSCRIBE" +:+ ","
       +:+ quoted "params" +:+ ":[" +:+ quoted "difference.BTC/USDC" +:+ ",5,"
       +:+ quoted "difference.BTC/USDC" +:+ "]}")
      sample_streaming
    = Ok tt w'
    /\ sent <$> sockets w' !! 8%nat =
       (fun s => sent s ++ [stringify_record btc]) <$> sockets sample_streaming !! 8%nat
    /\ console w' = console w1 ++ [console_error "Error parsing message:" (Some TypeError)].
Proof.
  eexists
    (world_of (handleSubscription (rt := reference_runtime) 8
                 (Array [Str "difference.BTC/USDC"]) sample_streaming)), _,
    (record_at (binanceFeeRate sample_streaming) (solanaFeeRate sample_streaming)
       sample_calendar "BTC/USDC" 50000 49900 (dates sample_streaming)).
  split.
  - apply (non_string_topic_stops_the_request (rt := reference_runtime) 8 _
             (Object [("method", Str "SUBSCRIBE");
                      ("params", Array [Str "difference.BTC/USDC"; Number 5;
                                        Str "difference.BTC/USDC"])])
             (Number 5) [Str "difference.BTC/USDC"] [Str "difference.BTC/USDC"]
             sample_streaming).
    + vm_compute. reflexivity.
    + vm_compute. reflexivity.
    + vm_compute. reflexivity.
    + vm_compute. reflexivity.
    + exact I.
    + vm_compute. reflexivity.
  - split; vm_compute; reflexivity.
Defined.

(** X6. A request whose [method] is anything but the string [SUBSCRIBE]
    (another method such as [UNSUBSCRIBE], a method that is missing or not a
    string, or a message that is a JSON number, string or array) is ignored:
    the listener returns without a reply, a console line or any change to the
    world.  There is no request that withdraws a subscription. *)
Theorem other_methods_are_ignored `{rt : Runtime}
    (ws : nat) (message : string) (parsed method : value) (w : World) :
  JSON_parse message = Some parsed ->
  get_prop parsed "method" = Some method ->
  strict_eq_string method "SUBSCRIBE" = false ->
  onClientMessage ws message w = Ok tt w.
Proof.
  intros Hparse Hmethod Hother. unfold onClientMessage, try_catch.
  rewrite Hparse, bind_eq. unfold prop. rewrite Hmethod. cbn [mret M_ret].
  rewrite Hother. reflexivity.
Qed.

Lemma other_methods_are_ignored_witness :
  onClientMessage (rt := reference_runtime) 8
    (request_message "UNSUBSCRIBE" "difference.all") sample_streaming
  = Ok tt sample_streaming
  /\ onClientMessage (rt := reference_runtime) 8
       (request_message "subscribe" "difference.all") sample_streaming
     = Ok tt sample_streaming.
Proof.
  split.
  - apply (other_methods_are_ignored (rt := reference_runtime) 8 _
             (Object [("method", Str "UNSUBSCRIBE"); ("params", Array [Str "difference.all"])])
             (Str "UNSUBSCRIBE")); vm_compute; reflexivity.
  - apply (other_methods_are_ignored (rt := reference_runtime) 8 _
             (Object [("method", Str "subscribe"); ("params", Array [Str "difference.all"])])
             (Str "subscribe")); vm_compute; reflexivity.
Defined.

(** ** Messages of the exchange *)


(** X7. The exchange listener ignores a message that carries no [data]
    (such as the acknowledgement of a request) or whose [data] is falsy, and
    a message whose stream, up to the first [@], is not the lower-case symbol
    of a configured pair: nothing is stored, nothing is broadcast, nothing is
    logged. *)
Theorem idle_exchange_messages_are_ignored `{rt : Runtime}
    (data : string) (message ticker : value) (w : World) :
  JSON_parse data = Some message ->
  get_prop message "data" = Some ticker ->
  ToBoolean ticker = false
  \/ (exists text,
        get_prop message "stream" = Some (Str text)
        /\ find (fun p => bool_decide (Some (toLowerCase (PairConfig.binanceSymbol p))
                                       = split "@" text !! 0%nat)) TRADING_PAIRS = None) ->
  onBinanceMessage data w = Ok tt w.
Proof.
  intros Hparse Hdata Hidle. unfold onBinanceMessage.
  rewrite Hparse, bind_eq. unfold prop at 1. rewrite Hdata. cbn [mret M_ret].
  destruct (ToBoolean ticker); [|reflexivity].
  destruct Hidle as [?|(text & Hstream & Hfind)]; [discriminate|].
  rewrite bind_eq. erewrite findM_pure; [rewrite Hfind; reflexivity|].
  intros x w'. rewrite bind_eq. unfold prop. rewrite Hstream. reflexivity.
Qed.

Lemma idle_exchange_messages_are_ignored_witness :
  onBinanceMessage (rt := reference_runtime)
    ("{" +:+ quoted "result" +:+ ":null," +:+ quoted "id" +:+ ":1}") sample_streaming
  = Ok tt sample_streaming
  /\ onBinanceMessage (rt := reference_runtime)
       (ticker_message "BTCUSDC" "50000.00") sample_streaming
     = Ok tt sample_streaming.
Proof.
  split.
  - apply (idle_exchange_messages_are_ignored (rt := reference_runtime) _
             (Object [("result", Null); ("id", Number 1)]) Undefined).
    + vm_compute. reflexivity.
    + vm_compute. reflexivity.
    + left. vm_compute. reflexivity.
  - apply (idle_exchange_messages_are_ignored (rt := reference_runtime) _
             (Object [("stream", Str "BTCUSDC@ticker");
                      ("data", Object [("c", Str "50000.00")])])
             (Object [("c", Str "50000.00")])).
    + vm_compute. reflexivity.
    + vm_compute. reflexivity.
    + right. exists "BTCUSDC@ticker". split; vm_compute; reflexivity.
Defined.

(** X8. Valid JSON can still make the exchange listener throw a
    [TypeError] that nothing catches: the JSON text [null], whose [data]
    cannot be read, and a message with truthy [data] whose [stream] is not a
    string.  The world is left as it was, and the turn of the event loop ends
    in the exception. *)
Theorem exchange_message_without_stream_is_thrown `{rt : Runtime}
    (data : string) (message : value) (w : World) :
  JSON_parse data = Some message ->
  match get_prop message "data" with
  | None => True
  | Some ticker =>
      ToBoolean ticker = true
      /\ match get_prop message "stream" with Some (Str _) => False | _ => True end
  end ->
  onBinanceMessage data w = Throw TypeError w
  /\ forall i, state <$> upstreams w !! i = Some OPEN ->
       react (ev_binance_message i data) w = Some (Throw TypeError w).
Proof.
  intros Hparse Hbad.
  assert (Hrun : onBinanceMessage data w = Throw TypeError w).
  { unfold onBinanceMessage. rewrite Hparse, bind_eq. unfold prop at 1.
    destruct (get_prop message "data") as [ticker|]; [|reflexivity].
    destruct Hbad as [Htruthy Hstream]. cbn [mret M_ret]. rewrite Htruthy, bind_eq.
    unfold TRADING_PAIRS. cbn [findM]. rewrite !bind_eq. unfold prop.
    destruct (get_prop message "stream") as [[]|]; try contradiction; reflexivity. }
  split; [exact Hrun|]. intros i Hopen. cbn [react]. rewrite Hopen, Hrun. reflexivity.
Qed.

Lemma exchange_message_without_stream_is_thrown_witness :
  react (rt := reference_runtime)
    (ev_binance_message 0
       ("{" +:+ quoted "stream" +:+ ":7," +:+ quoted "data" +:+ ":{"
        +:+ quoted "c" +:+ ":" +:+ quoted "1" +:+ "}}"))
    sample_streaming
  = Some (Throw TypeError sample_streaming).
Proof.
  apply (exchange_message_without_stream_is_thrown (rt := reference_runtime) _
           (Object [("stream", Number 7); ("data", Object [("c", Str "1")])])).
  - vm_compute. reflexivity.
  - vm_compute. split; [reflexivity|exact I].
  - vm_compute. reflexivity.
Defined.



(** ** Polls *)

Lemma poll_all_errors (rpc : Market -> Books) (entries : list (string * Market))
    (w : World) :
  console (foldl (poll_entry rpc) w entries) = console w ++ poll_errors rpc entries.
Proof.
  revert w. induction entries as [|e rest IH]; intros w.
  - cbn. rewrite app_nil_r. reflexivity.
  - cbn [foldl]. rewrite IH. unfold poll_errors. cbn [omap list_omap]. unfold poll_entry.
    destruct (polled (rpc e.2)); cbn; rewrite <- ?app_assoc; reflexivity.
Qed.




(** X11. A poll reports each rejected fetch once and goes on: it never
    throws, and the console grows by exactly one error line for each market
    whose fetch is rejected, in the order of the map of markets; a book that
    is fetched but has an empty side adds no line.  Without a connection the
    poll does nothing. *)
Theorem poll_logs_each_rejected_fetch `{rt : Runtime} (rpc : Market -> Books) (w : World) :
  exists w',
    updateAllSerumPrices rpc w = Ok tt w'
    /\ console w' =
       console w ++ (if solanaConnection w then poll_errors rpc (markets w) else []).
Proof.
  rewrite updateAllSerumPrices_eq. destruct (solanaConnection w).
  - destruct (broadcastPrices_store (foldl (poll_entry rpc) w (markets w)))
      as (w' & Hrun & _ & _ & Hconsole).
    exists w'. split; [exact Hrun|]. rewrite Hconsole. apply poll_all_errors.
  - exists w. split; [reflexivity|]. rewrite app_nil_r. reflexivity.
Qed.

(** ** Start-up *)

Lemma foldl_same {A B : Type} (f : World -> B) (step : World -> A -> World)
    (items : list A) (w : World) :
  (forall w x, f (step w x) = f w) -> f (foldl step w items) = f w.
Proof.
  intros Hstep. revert w. induction items as [|x rest IH]; intros w; [reflexivity|].
  cbn [foldl]. rewrite IH. apply Hstep.
Qed.

Ltac load_same :=
  intros; unfold load_entry;
  match goal with |- context [if ?b then _ else _] => destruct b end; reflexivity.

Ltac poll_same := intros; unfold poll_entry; destruct (polled _); reflexivity.

Lemma map_set_fresh {V : Type} (k : string) (v : V) (m : list (string * V)) :
  k ∉ m.*1 -> map_set k v m = m ++ [(k, v)].
Proof.
  induction m as [|[k' v'] m IH]; intros Hk; [reflexivity|].
  cbn [map_set]. cbn in Hk. apply not_elem_of_cons in Hk as [Hne Hk].
  destruct (String.eqb_spec k k') as [->|_]; [contradiction|].
  rewrite IH by exact Hk. reflexivity.
Qed.

Lemma load_all_markets (load : PairConfig.t -> bool) (pairs : list PairConfig.t)
    (w : World) :
  NoDup ((markets w).*1 ++ (PairConfig.name <$> pairs)) ->
  markets (foldl (load_entry load) w pairs) =
  markets w ++ ((fun p => (PairConfig.name p, market_of p))
                  <$> filter (fun p => load p = true) pairs).
Proof.
  revert w. induction pairs as [|p rest IH]; intros w Hnd.
  - cbn. rewrite app_nil_r. reflexivity.
  - cbn [foldl]. apply NoDup_app in Hnd as (Hm & Hdisjoint & Hpairs).
    cbn [fmap list_fmap] in Hdisjoint, Hpairs. apply NoDup_cons in Hpairs as [Hp Hrest].
    assert (Hfresh : PairConfig.name p ∉ (markets w).*1).
    { intros Hin. apply (Hdisjoint _ Hin). left. }
    rewrite filter_cons. unfold load_entry at 2. destruct (load p) eqn:Hload.
    + rewrite decide_True by reflexivity. rewrite IH.
      * cbn. rewrite map_set_fresh by exact Hfresh. rewrite <- app_assoc. reflexivity.
      * cbn. rewrite map_set_fresh by exact Hfresh. rewrite fmap_app. cbn.
        apply NoDup_app. split; [|split; [|exact Hrest]].
        -- apply NoDup_app. split; [exact Hm|]. split; [|apply NoDup_singleton].
           intros x Hx Hx'%list_elem_of_singleton. subst. contradiction.
        -- intros x [Hx|Hx%list_elem_of_singleton]%elem_of_app Hx'.
           ++ apply (Hdisjoint _ Hx). right. exact Hx'.
           ++ subst. contradiction.
    + rewrite decide_False by discriminate. rewrite IH; [reflexivity|].
      cbn. apply NoDup_app. split; [exact Hm|]. split; [|exact Hrest].
      intros x Hx Hx'. apply (Hdisjoint _ Hx). right. exact Hx'.
Qed.

Section StartUp.
Context `{rt : Runtime}.

(** The loop of [initialize] never throws: a load that fails is caught and
    logged. *)
Lemma load_loop (load : PairConfig.t -> bool) (pairs : list PairConfig.t) (w : World) :
  forEach pairs (fun pair =>
    try_catch
      (if load pair then
         let market := {| address := PairConfig.serumMarketAddress pair;
                          program := PairConfig.programId pair |} in
         modify (fun w => set_markets (map_set (PairConfig.name pair) market (markets w)) w);;
         log ("Loaded market for " +:+ PairConfig.name pair)
       else throw RejectedError)
      (fun error =>
         log_error ("Error loading market for " +:+ PairConfig.name pair +:+ ":")
                   (Some error))) w
  = Ok tt (foldl (load_entry load) w pairs).
Proof.
  revert w. induction pairs as [|p rest IH]; intros w; [reflexivity|].
  rewrite forEach_cons. cbn [foldl]. unfold try_catch at 1, load_entry at 2.
  destruct (load p); cbn; apply IH.
Qed.

Lemma startBinanceWebSockets_run (w : World) :
  startBinanceWebSockets w =
  Ok tt (set_binanceWs (Some (length (upstreams w)))
           (set_upstreams (upstreams w ++ [exchange_socket]) w)).
Proof. reflexivity. Qed.

Lemma initialize_run (load : PairConfig.t -> bool) (rpc : Market -> Books) (w : World) :
  let w2 := foldl (load_entry load) (set_solanaConnection true w) TRADING_PAIRS in
  let w3 := set_binanceWs (Some (length (upstreams w2)))
              (set_upstreams (upstreams w2 ++ [exchange_socket]) w2) in
  exists w4,
    broadcastPrices (foldl (poll_entry rpc) w3 (markets w3)) = Ok tt w4
    /\ initialize load rpc w =
       Ok tt (set_console
                (console w4 ++ [console_log "Serum WebSocket subscriptions established";
                                console_log "WebSocket server running on ws://localhost:3001"])
                (set_timers (timers w4 ++ [poll_timer]) w4)).
Proof.
  cbv zeta. set (w2 := foldl (load_entry load) _ _). set (w3 := set_binanceWs _ _).
  destruct (startSerumWebSockets_run rpc w3) as (w4 & Hpoll & Hstart).
  exists w4. split.
  - rewrite updateAllSerumPrices_eq in Hpoll.
    assert (Hconn : solanaConnection w3 = true).
    { transitivity (solanaConnection w2); [reflexivity|]. subst w2.
      rewrite (foldl_same solanaConnection) by load_same. reflexivity. }
    rewrite Hconn in Hpoll. exact Hpoll.
  - unfold initialize. rewrite bind_eq. unfold modify at 1.
    rewrite bind_eq, load_loop. fold w2.
    rewrite bind_eq, startBinanceWebSockets_run. fold w3.
    rewrite bind_eq, Hstart. unfold setInterval, log, modify, mbind, M_bind.
    f_equal. apply world_eq; cbn; try reflexivity.
    rewrite <- app_assoc. reflexivity.
Qed.

End StartUp.

(** X12. [initialize()] on the freshly constructed server never throws.
    It keeps, in the order of [TRADING_PAIRS], the market of every pair whose
    load resolves and skips the others; it opens one socket to the exchange,
    for the three ticker streams; it polls the loaded markets once, so that a
    market whose book answers has its mid price stored; and it sets one timer,
    the poll that repeats every second.  The retry of
    [startSerumWebSockets] is never scheduled. *)
Theorem initialize_loads_what_it_can `{rt : Runtime}
    (load : PairConfig.t -> bool) (rpc : Market -> Books) (w : World) :
  markets w = [] ->
  exists w',
    initialize load rpc w = Ok tt w'
    /\ solanaConnection w' = true
    /\ markets w' = (fun p => (PairConfig.name p, market_of p))
                      <$> filter (fun p => load p = true) TRADING_PAIRS
    /\ upstreams w' = upstreams w ++ [exchange_socket]
    /\ binanceWs w' = Some (length (upstreams w))
    /\ timers w' = timers w ++ [poll_timer]
    /\ lastBinancePrices w' = lastBinancePrices w
    /\ forall p, p ∈ TRADING_PAIRS -> load p = true ->
         lastSerumPrices w' !! PairConfig.name p =
         match polled (rpc (market_of p)) with
         | poll_mid midPrice => Some midPrice
         | _ => lastSerumPrices w !! PairConfig.name p
         end.
Proof.
  intros Hempty. destruct (initialize_run load rpc w) as (w4 & Hcast & Hrun).
  cbv zeta in Hcast. set (w2 := foldl (load_entry load) _ _) in Hcast.
  assert (Hmarkets : markets w2 = (fun p => (PairConfig.name p, market_of p))
                                    <$> filter (fun p => load p = true) TRADING_PAIRS).
  { subst w2. rewrite load_all_markets; cbn [markets set_solanaConnection];
      rewrite Hempty; [reflexivity|].
    apply (bool_decide_unpack _). vm_compute. exact I. }
  assert (H2 : solanaConnection w2 = true /\ upstreams w2 = upstreams w
               /\ timers w2 = timers w /\ lastBinancePrices w2 = lastBinancePrices w
               /\ lastSerumPrices w2 = lastSerumPrices w).
  { subst w2.
    rewrite (foldl_same solanaConnection), (foldl_same upstreams), (foldl_same timers),
      (foldl_same lastBinancePrices), (foldl_same lastSerumPrices) by load_same.
    repeat split. }
  destruct H2 as (H2s & H2u & H2t & H2b & H2p). clearbody w2.
  set (w3 := set_binanceWs _ _) in Hcast.
  set (w3' := foldl (poll_entry rpc) w3 (markets w3)) in Hcast.
  assert (Hframe : forall {B : Type} (f : World -> B),
            (forall v w, f (set_dates v w) = f w) ->
            (forall v w, f (set_sockets v w) = f w) ->
            f w4 = f w3').
  { intros B f Hdates Hsockets.
    refine (keeps_Ok (same f) _ _ _ _ _ Hcast).
    apply keeps_broadcastPrices; [exact Hdates|].
    intros ws frames frame w0 _. apply Hsockets. }
  eexists. split; [exact Hrun|].
  cbn [solanaConnection markets upstreams binanceWs timers lastBinancePrices
       lastSerumPrices set_console set_timers].
  rewrite (Hframe _ solanaConnection), (Hframe _ markets), (Hframe _ upstreams),
    (Hframe _ binanceWs), (Hframe _ timers), (Hframe _ lastBinancePrices),
    (Hframe _ lastSerumPrices) by reflexivity.
  subst w3'.
  rewrite (foldl_same solanaConnection), (foldl_same markets), (foldl_same upstreams),
    (foldl_same binanceWs), (foldl_same timers), (foldl_same lastBinancePrices)
    by poll_same.
  subst w3.
  cbn [solanaConnection markets upstreams binanceWs timers lastBinancePrices
       set_binanceWs set_upstreams].
  rewrite H2s, H2u, H2t, H2b.
  do 6 (split; [first [reflexivity | assumption]|]).
  intros p Hp Hload.
  assert (Hin : (PairConfig.name p, market_of p) ∈ markets w2).
  { rewrite Hmarkets. apply list_elem_of_fmap. exists p. split; [reflexivity|].
    apply list_elem_of_filter. auto. }
  assert (Hnd : NoDup (markets w2).*1).
  { rewrite Hmarkets, <- list_fmap_compose.
    apply (sublist_NoDup _ (PairConfig.name <$> TRADING_PAIRS));
      [|apply fmap_sublist, sublist_filter].
    apply (bool_decide_unpack _). vm_compute. exact I. }
  rewrite (poll_all_serum rpc _ _ _ _ Hnd Hin).
  cbn [lastSerumPrices set_binanceWs set_upstreams]. rewrite H2p. reflexivity.
Qed.

Lemma initialize_loads_what_it_can_witness :
  exists w',
    initialize (rt := reference_runtime)
      (fun p => negb (String.eqb (PairConfig.name p) "ETH/USDC")) sample_rpc
      (constructed sample_calendar) = Ok tt w'
    /\ (markets w').*1 = ["BTC/USDC"; "SOL/USDC"]
    /\ timers w' = [poll_timer]
    /\ lastSerumPrices w' !! "BTC/USDC" = Some 49900%float
    /\ lastSerumPrices w' !! "ETH/USDC" = None.
Proof.
  destruct (initialize_loads_what_it_can (rt := reference_runtime)
              (fun p => negb (String.eqb (PairConfig.name p) "ETH/USDC")) sample_rpc
              (constructed sample_calendar))
    as (w' & Hrun & _ & Hmarkets & _ & _ & Htimers & _ & _).
  - reflexivity.
  - exists w'. split; [exact Hrun|]. rewrite Hmarkets, Htimers.
    split; [vm_compute; reflexivity|]. split; [reflexivity|].
    clear Hmarkets Htimers. vm_compute in Hrun. injection Hrun as <-.
    split; vm_compute; reflexivity.
Defined.

(** ** [cleanup] *)

Lemma closing_loop (registered : list nat) (w : World) :
  forEach registered (fun client =>
    modify (fun w =>
      set_sockets
        (alter (fun s => set_readyState (closing_state (readyState s)) s) client (sockets w))
        w)) w
  = Ok tt (set_sockets
             (foldl (fun socks client =>
                       alter (fun s => set_readyState (closing_state (readyState s)) s)
                             client socks)
                    (sockets w) registered) w).
Proof.
  revert w. induction registered as [|c rest IH]; intros w.
  - cbn. rewrite set_sockets_same. reflexivity.
  - rewrite forEach_cons. unfold modify at 1. rewrite IH. reflexivity.
Qed.

Lemma closing_all_lookup (registered : list nat) (socks : gmap nat Socket) (c : nat) :
  foldl (fun socks client =>
           alter (fun s => set_readyState (closing_state (readyState s)) s) client socks)
        socks registered !! c =
  if decide (c ∈ registered)
  then (fun s => set_readyState (closing_state (readyState s)) s) <$> socks !! c
  else socks !! c.
Proof.
  revert socks. induction registered as [|x rest IH]; intros socks; cbn [foldl].
  - rewrite decide_False by apply not_elem_of_nil. reflexivity.
  - rewrite IH. destruct (decide (c = x)) as [->|Hne].
    + rewrite lookup_alter_eq, (decide_True (P := x ∈ x :: rest)) by left.
      destruct (decide (x ∈ rest)); [|reflexivity].
      destruct (socks !! x) as [[[] frames]|]; reflexivity.
    + rewrite lookup_alter_ne by auto.
      destruct (decide (c ∈ rest)) as [Hin|Hout].
      * rewrite decide_True by (right; exact Hin). reflexivity.
      * rewrite decide_False; [reflexivity|].
        intros [?|?]%elem_of_cons; contradiction.
Qed.

Lemma cleanup_eq (w : World) :
  cleanup w =
  Ok tt (set_sockets
           (foldl (fun socks client =>
                     alter (fun s => set_readyState (closing_state (readyState s)) s)
                           client socks)
                  (sockets w) (clients w))
           (match binanceWs w with
            | Some i =>
                set_upstreams
                  (alter (fun u => set_state (closing_state (state u)) u) i (upstreams w)) w
            | None => w
            end)).
Proof.
  unfold cleanup. rewrite bind_eq. unfold gets at 1. rewrite bind_eq.
  destruct (binanceWs w) as [i|]; unfold modify at 1; cbn [mret M_ret];
    rewrite bind_eq; unfold gets at 1; rewrite closing_loop; reflexivity.
Qed.

(** X13. [cleanup()] never throws and starts the closing of every socket
    it knows: each registered client socket that is connecting or open
    becomes closing, so none is left open, and so does the current socket to
    the exchange.  It sends no frame, writes no console line, and leaves the
    registry, the price store, the markets and every timer as they were: the
    poll that repeats every second and any pending reconnection are not
    cancelled. *)
Theorem cleanup_starts_closing_every_socket (w : World) :
  exists w',
    cleanup w = Ok tt w'
    /\ (forall c,
          sockets w' !! c =
          if decide (c ∈ clients w)
          then (fun s => set_readyState (closing_state (readyState s)) s) <$> sockets w !! c
          else sockets w !! c)
    /\ (forall c s', c ∈ clients w -> sockets w' !! c = Some s' -> readyState s' <> OPEN)
    /\ (forall c s', sockets w' !! c = Some s' -> sent <$> sockets w !! c = Some (sent s'))
    /\ upstreams w' =
       match binanceWs w with
       | Some i => alter (fun u => set_state (closing_state (state u)) u) i (upstreams w)
       | None => upstreams w
       end
    /\ timers w' = timers w
    /\ clients w' = clients w
    /\ lastBinancePrices w' = lastBinancePrices w
    /\ lastSerumPrices w' = lastSerumPrices w
    /\ markets w' = markets w
    /\ console w' = console w.
Proof.
  rewrite cleanup_eq. eexists. split; [reflexivity|].
  cbn [sockets set_sockets].
  assert (Hlookup := closing_all_lookup (clients w) (sockets w)).
  split; [exact Hlookup|]. split; [|split].
  - intros c s' Hc. rewrite Hlookup, decide_True by exact Hc.
    destruct (sockets w !! c) as [[[] frames]|]; cbn; intros [= <-]; discriminate.
  - intros c s'. rewrite Hlookup.
    destruct (decide (c ∈ clients w)); destruct (sockets w !! c) as [s|]; cbn;
      intros [= <-]; reflexivity.
  - destruct (binanceWs w); cbn; repeat split.
Qed.

(** X14. [cleanup()] is not a shutdown.  When the exchange socket it has
    started to close does close, the listener of that socket is still in
    place: it schedules the reconnection as for any other close, next to the
    timers that [cleanup()] left pending. *)
Theorem cleanup_does_not_stop_the_reconnection `{rt : Runtime}
    (w w1 : World) (i : nat) (u : Upstream) :
  binanceWs w = Some i ->
  upstreams w !! i = Some u ->
  state u <> CLOSED ->
  cleanup w = Ok tt w1 ->
  exists w2,
    step w1 (ev_binance_close i) w2
    /\ timers w2 = timers w ++ [reconnect_timer]
    /\ (forall j t, timers w !! j = Some t -> timers w2 !! j = Some t).
Proof.
  intros Hws Hu Hlive Hrun. rewrite cleanup_eq, Hws in Hrun. injection Hrun as <-.
  unfold step. cbn [react upstreams set_sockets set_upstreams].
  rewrite list_lookup_alter_eq, Hu. cbn [fmap option_fmap option_map set_state state].
  assert (Hclosing : closing_state (state u) = CLOSING).
  { destruct (state u); [reflexivity..|contradiction]. }
  rewrite Hclosing. eexists. split; [reflexivity|]. cbn.
  split; [reflexivity|]. intros j t Ht. apply lookup_app_l_Some, Ht.
Qed.

Lemma cleanup_does_not_stop_the_reconnection_witness :
  exists w1 w2,
    cleanup sample_streaming = Ok tt w1
    /\ step (rt := reference_runtime) w1 (ev_binance_close 0) w2
    /\ timers w2 = [poll_timer; reconnect_timer].
Proof.
  destruct (cleanup_does_not_stop_the_reconnection (rt := reference_runtime)
              sample_streaming
              (world_of (cleanup sample_streaming)) 0%nat
              {| url := url exchange_socket; state := OPEN |})
    as (w2 & Hstep & Htimers & _).
  - vm_compute. reflexivity.
  - vm_compute. reflexivity.
  - discriminate.
  - vm_compute. reflexivity.
  - exists (world_of (cleanup sample_streaming)), w2.
    split; [vm_compute; reflexivity|].
    split; [exact Hstep|]. rewrite Htimers. vm_compute. reflexivity.
Defined.

(** ** What the turns of the event loop leave alone *)

#[export] Instance elsewhere_refl (ws : nat) : Reflexive (elsewhere ws).
Proof. intros w c _. reflexivity. Qed.

#[export] Instance elsewhere_trans (ws : nat) : Transitive (elsewhere ws).
Proof. intros w1 w2 w3 H12 H23 c Hc. rewrite (H23 c Hc). apply H12, Hc. Qed.

#[export] Instance appended_refl : Reflexive appended.
Proof.
  intros w c. destruct (sockets w !! c) as [s|]; [|reflexivity].
  exists s. repeat split; reflexivity.
Qed.

#[export] Instance appended_trans : Transitive appended.
Proof.
  intros w1 w2 w3 H12 H23 c. specialize (H12 c). specialize (H23 c).
  destruct (sockets w1 !! c) as [s1|].
  - destruct H12 as (s2 & Hs2 & Hstate2 & Hsent2 & Hidle2). rewrite Hs2 in H23.
    destruct H23 as (s3 & Hs3 & Hstate3 & Hsent3 & Hidle3).
    exists s3. split; [exact Hs3|]. split; [congruence|].
    split; [etransitivity; eassumption|].
    intros Hne. rewrite Hidle3, Hidle2; congruence.
  - rewrite H12 in H23. exact H23.
Qed.

#[export] Instance settled_refl : Reflexive settled.
Proof. intros w c s Hs. exists s. repeat split; auto. Qed.

#[export] Instance settled_trans : Transitive settled.
Proof.
  intros w1 w2 w3 H12 H23 c s1 Hs1.
  destruct (H12 c s1 Hs1) as (s2 & Hs2 & Hsent2 & Hidle2 & Hclosed2).
  destruct (H23 c s2 Hs2) as (s3 & Hs3 & Hsent3 & Hidle3 & Hclosed3).
  exists s3. split; [exact Hs3|]. split; [etransitivity; eassumption|]. split.
  - intros Hne. destruct (Hidle2 Hne) as [Heq2 Hne2].
    destruct (Hidle3 Hne2) as [Heq3 Hne3]. split; [congruence|exact Hne3].
  - auto.
Qed.

Lemma sends_to_elsewhere (ws : nat) : sends_to (elsewhere ws) ws.
Proof. intros frames frame w _ c Hc. cbn. apply lookup_insert_ne. congruence. Qed.

Lemma sends_to_appended (ws : nat) : sends_to appended ws.
Proof.
  intros frames frame w Hs c. cbn. destruct (decide (c = ws)) as [->|Hne].
  - rewrite Hs, lookup_insert_eq. eexists. split; [reflexivity|]. cbn.
    split; [reflexivity|]. split; [apply prefix_app_r; reflexivity|]. congruence.
  - rewrite lookup_insert_ne by congruence.
    destruct (sockets w !! c) as [s|]; [|reflexivity]. exists s. repeat split; reflexivity.
Qed.

Ltac appended_side := intros; intros c; cbn; apply (appended_refl _ c).

Ltac elsewhere_side := intros; intros c Hc; reflexivity.

(** X15. A request of a client is read-only for the server.  Whatever the
    text, the listener returns normally, and when it has returned the
    registry, both price maps, the markets, the sockets to the exchange and
    the timers are what they were: no subscription is recorded anywhere.  Of
    the client sockets only the requester's can have changed, and only by
    frames added after those it held; its state is what it was. *)
Theorem client_request_is_read_only `{rt : Runtime}
    (ws : nat) (message : string) (w : World) :
  exists w',
    onClientMessage ws message w = Ok tt w'
    /\ server_state w' = server_state w
    /\ elsewhere ws w w'
    /\ appended w w'.
Proof.
  assert (Hrun : exists w', onClientMessage ws message w = Ok tt w').
  { unfold onClientMessage, try_catch.
    match goal with
    | |- exists w', match ?r with Ok _ _ => _ | Throw _ _ => _ end = _ =>
        destruct r as [[] w1|e w1]
    end; eexists; reflexivity. }
  destruct Hrun as [w' Hrun]. exists w'. split; [exact Hrun|]. split; [|split].
  - refine (keeps_Ok (same server_state) _ _ _ _ _ Hrun).
    apply keeps_onClientMessage; same_side.
  - refine (keeps_Ok (elsewhere ws) _ _ _ _ _ Hrun).
    apply keeps_onClientMessage; [elsewhere_side..|apply sends_to_elsewhere].
  - refine (keeps_Ok appended _ _ _ _ _ Hrun).
    apply keeps_onClientMessage; [appended_side..|apply sends_to_appended].
Qed.

Ltac settled_side :=
  solve [ intros;
          let c := fresh "c" in let s := fresh "s" in let Hs := fresh "Hs" in
          intros c s Hs; exists s; cbn; repeat split; auto ].

Lemma settled_writes : closed_under_writes settled.
Proof.
  constructor; try settled_side.
  - intros ws frames frame w Hs c s Hc. cbn. destruct (decide (c = ws)) as [->|Hne].
    + rewrite Hs in Hc. injection Hc as <-. rewrite lookup_insert_eq.
      eexists. split; [reflexivity|]. cbn.
      split; [apply prefix_app_r; reflexivity|]. split; intros; congruence.
    + rewrite lookup_insert_ne by congruence. exists s. repeat split; auto.
  - intros ws w Hfresh c s Hc. cbn. rewrite lookup_insert_ne by congruence.
    exists s. repeat split; auto.
  - intros ws s0 w Hs Hopen c s Hc. cbn. destruct (decide (c = ws)) as [->|Hne].
    + rewrite Hs in Hc. injection Hc as <-. rewrite lookup_insert_eq.
      eexists. split; [reflexivity|]. cbn. split; [reflexivity|].
      split; intros; congruence.
    + rewrite lookup_insert_ne by congruence. exists s. repeat split; auto.
  - intros ws s0 w Hs Hlive c s Hc. cbn. destruct (decide (c = ws)) as [->|Hne].
    + rewrite Hs in Hc. injection Hc as <-. rewrite lookup_insert_eq.
      eexists. split; [reflexivity|]. cbn. split; [reflexivity|].
      split; [intros _; split; [reflexivity|discriminate]|reflexivity].
    + rewrite lookup_insert_ne by congruence. exists s. repeat split; auto.
Qed.

(** X16. A client socket that has started closing or has closed is never
    sent another frame, by a broadcast or in reply to a request, however many
    turns the event loop takes: it holds the frames it held, and it never
    becomes open again. *)
Theorem no_frame_once_closing `{rt : Runtime} (w w' : World) (c : nat) (s : Socket) :
  later w w' ->
  sockets w !! c = Some s ->
  readyState s <> OPEN ->
  exists s', sockets w' !! c = Some s' /\ sent s' = sent s /\ readyState s' <> OPEN.
Proof.
  intros Hlater Hs Hne.
  assert (Hsettled : settled w w').
  { clear Hs Hne. induction Hlater as [w|w1 w2 w3 e _ IH Hstep]; [reflexivity|].
    etransitivity; [exact IH|]. exact (step_writes _ _ _ settled_writes Hstep). }
  destruct (Hsettled c s Hs) as (s' & Hs' & _ & Hidle & _).
  destruct (Hidle Hne) as [Hsent Hstate]. exists s'. auto.
Qed.

Lemma no_frame_once_closing_witness :
  exists w' s7 s8,
    later (rt := reference_runtime) sample_closing w'
    /\ sockets w' !! 7%nat = Some s7
    /\ sockets w' !! 8%nat = Some s8
    /\ sent <$> sockets sample_closing !! 7%nat = Some (sent s7)
    /\ (length <$> (sent <$> sockets sample_closing !! 8%nat)) = Some 1%nat
    /\ length (sent s8) = 2%nat.
Proof.
  set (w' := after (streaming_trace
                      ++ [ev_client_closing 7;
                          ev_binance_message 0 (ticker_message "btcusdc" "50001.00")])).
  assert (Hlater : later (rt := reference_runtime) sample_closing w').
  { apply (later_turn sample_closing sample_closing w'
             (ev_binance_message 0 (ticker_message "btcusdc" "50001.00")));
      [apply later_now|].
    unfold step. vm_compute. reflexivity. }
  destruct (no_frame_once_closing (rt := reference_runtime) sample_closing w' 7%nat
              {| readyState := CLOSING;
                 sent := default [] (sent <$> sockets sample_closing !! 7%nat) |} Hlater)
    as (s7 & Hs7 & Hsent & _).
  - vm_compute. reflexivity.
  - discriminate.
  - exists w', s7, (default s7 (sockets w' !! 8%nat)).
    split; [exact Hlater|]. split; [exact Hs7|]. split; [vm_compute; reflexivity|].
    split; [rewrite Hsent; vm_compute; reflexivity|]. split; vm_compute; reflexivity.
Defined.

(** X17. Each part of the state has one kind of writer.  Only a message of
    the exchange changes the exchange prices; only [initialize()] and a timer
    (the poll) change the on-chain prices; only [initialize()] changes the
    markets and the connection; only a client connecting or having closed
    changes the registry.  In particular no request of a client and no poll
    touches an exchange price, and a market that failed to load is never
    loaded later. *)
Theorem each_part_has_one_writer `{rt : Runtime} (w w' : World) (e : Event) :
  step w e w' ->
  (~ is_tick e -> lastBinancePrices w' = lastBinancePrices w)
  /\ (~ is_poll e -> lastSerumPrices w' = lastSerumPrices w)
  /\ (~ is_start e -> markets w' = markets w /\ solanaConnection w' = solanaConnection w)
  /\ (~ is_arrival e -> clients w' = clients w).
Proof.
  intros Hstep. split; [|split; [|split]].
  - intros Hother. refine (step_event_writes (R := same lastBinancePrices) _ _ _ _ Hstep).
    destruct e; cbn in Hother; try (exfalso; apply Hother; exact I);
      cbn [event_writes]; repeat split; same_side.
  - intros Hother. refine (step_event_writes (R := same lastSerumPrices) _ _ _ _ Hstep).
    destruct e; cbn in Hother; try (exfalso; apply Hother; exact I);
      cbn [event_writes]; repeat split; same_side.
  - intros Hother.
    assert (Hsame : same (fun w => (markets w, solanaConnection w)) w w').
    { refine (step_event_writes _ _ _ _ Hstep).
      destruct e; cbn in Hother; try (exfalso; apply Hother; exact I);
        cbn [event_writes]; repeat split; same_side. }
    unfold same in Hsame. injection Hsame as Hm Hc. auto.
  - intros Hother. refine (step_event_writes (R := same clients) _ _ _ _ Hstep).
    destruct e; cbn in Hother; try (exfalso; apply Hother; exact I);
      cbn [event_writes]; repeat split; same_side.
Qed.

Lemma each_part_has_one_writer_witness :
  exists w',
    step (rt := reference_runtime) sample_streaming (ev_timer 0 negative_rpc) w'
    /\ lastBinancePrices w' = lastBinancePrices sample_streaming
    /\ markets w' = markets sample_streaming
    /\ clients w' = clients sample_streaming
    /\ lastSerumPrices w' !! "BTC/USDC" = Some (-2)%float.
Proof.
  set (w' := after (streaming_trace ++ [ev_timer 0 negative_rpc])).
  assert (Hstep : step (rt := reference_runtime) sample_streaming
                    (ev_timer 0 negative_rpc) w').
  { unfold step. vm_compute. reflexivity. }
  destruct (each_part_has_one_writer (rt := reference_runtime) _ _ _ Hstep)
    as (Hbinance & _ & Hmarkets & Hclients).
  exists w'. split; [exact Hstep|].
  split; [apply Hbinance; intros []|]. split; [apply Hmarkets; intros []|].
  split; [apply Hclients; intros []|]. vm_compute. reflexivity.
Defined.

Lemma pair_names_elem (p : PairConfig.t) :
  p ∈ TRADING_PAIRS -> PairConfig.name p ∈ pair_names.
Proof. intros Hp. unfold pair_names. apply list_elem_of_fmap. exists p. auto. Qed.

Lemma keys_writes : closed_under_writes (preserves keys_ok).
Proof.
  constructor; try (unfold sends_to, preserves; intros; assumption).
  - intros p v w Hp (Hb & Hs & Hm). split; [|split; assumption].
    intros k. cbn [lastBinancePrices set_lastBinancePrices].
    destruct (decide (k = PairConfig.name p)) as [->|Hne].
    + intros _. exact (pair_names_elem p Hp).
    + rewrite lookup_insert_ne by congruence. apply Hb.
  - intros k m v w Hin (Hb & Hs & Hm). split; [exact Hb|]. split; [|exact Hm].
    intros k'. cbn [lastSerumPrices set_lastSerumPrices markets].
    destruct (decide (k' = k)) as [->|Hne].
    + intros _. apply list_elem_of_fmap. exists (k, m). auto.
    + rewrite lookup_insert_ne by congruence. apply Hs.
  - intros p w Hp (Hb & Hs & Hm). split; [exact Hb|].
    cbn [lastSerumPrices set_markets markets]. rewrite map_set_keys.
    destruct (bool_decide _); [split; assumption|]. split.
    + intros k Hk. apply elem_of_app. left. apply Hs, Hk.
    + intros k [Hk|Hk%list_elem_of_singleton]%elem_of_app; [apply Hm, Hk|].
      subst. exact (pair_names_elem p Hp).
Qed.

(** X18. In every world the server reaches, prices are held for configured
    pairs only, and an on-chain price only for a market that was loaded.  So
    every record of a broadcast is for a loaded market, and a topic
    [difference.<pair>] for a pair that is not configured is never answered. *)
Theorem only_loaded_markets_are_reported `{rt : Runtime} (w : World) :
  reachable w ->
  keys_ok w
  /\ (forall d, d ∈ records w ->
        PriceDifferenceData.pair d ∈ (markets w).*1
        /\ PriceDifferenceData.pair d ∈ pair_names)
  /\ (forall ws key, key ∉ pair_names -> sendSinglePairData ws (Some key) w = Ok tt w).
Proof.
  intros Hreach.
  assert (Hkeys : keys_ok w).
  { revert Hreach. apply reachable_invariant; [|apply keys_writes].
    intros cal. repeat split; cbn; intros k Hk.
    - rewrite lookup_empty in Hk. destruct Hk; discriminate.
    - rewrite lookup_empty in Hk. destruct Hk; discriminate.
    - inversion Hk. }
  split; [exact Hkeys|]. destruct Hkeys as (Hb & Hs & Hm). split.
  - intros d Hd. destruct (records_present w d Hd) as (_ & Hserum & _).
    assert (Hloaded : PriceDifferenceData.pair d ∈ (markets w).*1)
      by (apply Hs; rewrite Hserum; eauto).
    auto.
  - intros ws key Hkey. unfold sendSinglePairData, mbind, M_bind, gets.
    destruct (lastBinancePrices w !! key) as [b|] eqn:Hprice; [|reflexivity].
    exfalso. apply Hkey, Hb. rewrite Hprice. eauto.
Qed.

Lemma only_loaded_markets_are_reported_witness :
  (markets sample_streaming).*1 = ["BTC/USDC"; "ETH/USDC"; "SOL/USDC"]
  /\ (forall d, d ∈ records sample_streaming ->
        PriceDifferenceData.pair d ∈ (markets sample_streaming).*1)
  /\ sendSinglePairData (rt := reference_runtime) 7 (Some "DOGE/USDC") sample_streaming
     = Ok tt sample_streaming.
Proof.
  destruct (only_loaded_markets_are_reported (rt := reference_runtime) sample_streaming)
    as (_ & Hrecords & Hunknown).
  - apply (run_reachable (rt := reference_runtime) streaming_trace
             (constructed sample_calendar)); [apply reachable_constructed|].
    vm_compute. reflexivity.
  - split; [vm_compute; reflexivity|]. split; [intros d Hd; apply (Hrecords d Hd)|].
    apply Hunknown. apply (bool_decide_unpack _). vm_compute. exact I.
Defined.

(** ** Timers *)

Lemma filter_delete_other {A : Type} (P : A -> Prop) `{!forall x, Decision (P x)}
    (l : list A) (i : nat) (x : A) :
  l !! i = Some x -> ~ P x -> filter P (delete i l) = filter P l.
Proof.
  revert i. induction l as [|a l IH]; intros [|i] Hi Hx; try discriminate.
  - cbn in Hi. injection Hi as ->.
    change (delete 0%nat (x :: l)) with l. rewrite filter_cons, decide_False by exact Hx.
    reflexivity.
  - cbn in Hi. change (delete (S i) (a :: l)) with (a :: delete i l).
    rewrite !filter_cons, (IH i Hi Hx). reflexivity.
Qed.

Lemma Forall_delete_at {A : Type} (P : A -> Prop) (l : list A) (i : nat) :
  Forall P l -> Forall P (delete i l).
Proof.
  intros Hl. revert i. induction Hl as [|a l Ha Hl IH]; intros [|i]; cbn.
  - constructor.
  - constructor.
  - exact Hl.
  - change (delete (S i) (a :: l)) with (a :: delete i l). constructor; auto.
Qed.

Section Timers.
Context `{rt : Runtime}.

Lemma initialize_timers (load : PairConfig.t -> bool) (rpc : Market -> Books)
    (w w' : World) :
  initialize load rpc w = Ok tt w' ->
  timers w' = timers w ++ [poll_timer]
  /\ solanaConnection w' = true
  /\ upstreams w' = upstreams w ++ [exchange_socket]
  /\ binanceWs w' = Some (length (upstreams w)).
Proof.
  intros Hrun. destruct (initialize_run load rpc w) as (w4 & Hcast & Hrun').
  rewrite Hrun' in Hrun. injection Hrun as <-. cbv zeta in Hcast.
  set (view := fun w => (timers w, solanaConnection w, upstreams w, binanceWs w)).
  apply (keeps_Ok (same view)) in Hcast; [|apply keeps_broadcastPrices; same_side].
  unfold same in Hcast. rewrite (foldl_same view) in Hcast by poll_same.
  unfold view at 2 in Hcast.
  cbn [timers solanaConnection upstreams binanceWs set_binanceWs set_upstreams] in Hcast.
  rewrite (foldl_same timers), (foldl_same solanaConnection), (foldl_same upstreams)
    in Hcast by load_same.
  cbn in Hcast. injection Hcast as Ht Hs Hu Hb. cbn. rewrite Ht, Hs, Hu, Hb. auto.
Qed.

Lemma step_timers_ok (w w' : World) (e : Event) :
  timers_ok w -> step w e w' -> timers_ok w'.
Proof.
  intros [Hall Hpoll] Hstep.
  assert (Hsame : timers w' = timers w -> solanaConnection w' = solanaConnection w ->
                  timers_ok w').
  { intros Ht Hs. unfold timers_ok. rewrite Ht, Hs. auto. }
  assert (Hquiet : event_writes e (same (fun w => (timers w, solanaConnection w))) ->
                   timers_ok w').
  { intros Hwrites.
    pose proof (step_event_writes _ _ _ Hwrites Hstep) as Heq.
    unfold same in Heq. injection Heq as Ht Hs. auto. }
  destruct e; try (apply Hquiet; cbn [event_writes]; repeat split; same_side).
  - unfold step in Hstep. cbn [react] in Hstep.
    destruct (solanaConnection w) eqn:Hconn; [discriminate|]. apply (inj Some) in Hstep.
    destruct (initialize_timers _ _ _ _ Hstep) as (Ht & Hs & _).
    unfold timers_ok. rewrite Ht, Hs, filter_app, Hpoll. split; [|reflexivity].
    apply Forall_app. split; [exact Hall|]. repeat constructor.
  - destruct (close_step _ _ _ Hstep) as (u & _ & _ & _ & Ht & Hs).
    unfold timers_ok. rewrite Ht, Hs, filter_app, app_nil_r. split; [|exact Hpoll].
    apply Forall_app. split; [exact Hall|]. constructor; [right; reflexivity|constructor].
  - destruct (timer_step _ _ _ _ Hstep) as (t & Ht & Hrun).
    rewrite Forall_forall in Hall. destruct (Hall t) as [-> | ->].
    { apply list_elem_of_lookup. eauto. }
    + cbn [repeating callback poll_timer run_callback] in Hrun.
      apply (keeps_Ok (same (fun w => (timers w, solanaConnection w)))) in Hrun;
        [|apply keeps_updateAllSerumPrices; same_side].
      unfold same in Hrun. injection Hrun as Ht' Hs'. auto.
    + cbn [repeating callback reconnect_timer run_callback] in Hrun.
      injection Hrun as <-. unfold timers_ok. cbn. split.
      * apply Forall_delete_at. apply Forall_forall. exact Hall.
      * rewrite (filter_delete_other _ _ _ _ Ht) by discriminate. exact Hpoll.
Qed.

End Timers.

(** X19. The only timers the server ever holds are the poll that repeats
    every second and the reconnection, five seconds after a close of the
    exchange socket.  [initialize()] being called once, there is never more
    than one repeating timer, and none as long as the connection to the node
    is not set.  The retry that [startSerumWebSockets] would schedule on a
    failure is never set: its handler cannot be entered, since the poll
    catches every rejection. *)
Theorem timers_are_the_poll_and_reconnections `{rt : Runtime} (w : World) :
  reachable w ->
  Forall (fun t => t = poll_timer \/ t = reconnect_timer) (timers w)
  /\ (filter (fun t => repeating t = true) (timers w) = []
      \/ filter (fun t => repeating t = true) (timers w) = [poll_timer])
  /\ (filter (fun t => repeating t = true) (timers w) <> [] ->
      solanaConnection w = true)
  /\ Forall (fun t => callback t <> call_startSerumWebSockets) (timers w).
Proof.
  intros Hreach.
  assert (Hok : timers_ok w).
  { induction Hreach as [cal|w w' e _ IH Hstep].
    - split; [constructor|reflexivity].
    - exact (step_timers_ok _ _ _ IH Hstep). }
  destruct Hok as [Hall Hpoll]. split; [exact Hall|]. rewrite Hpoll.
  split; [destruct (solanaConnection w); auto|].
  split; [destruct (solanaConnection w); [reflexivity|contradiction]|].
  eapply Forall_impl; [exact Hall|]. intros t [-> | ->]; discriminate.
Qed.

Lemma timers_are_the_poll_and_reconnections_witness :
  timers sample_closed = [poll_timer; reconnect_timer]
  /\ solanaConnection sample_closed = true.
Proof.
  destruct (timers_are_the_poll_and_reconnections (rt := reference_runtime) sample_closed)
    as (_ & _ & Hconn & _).
  - apply (run_reachable (rt := reference_runtime) (streaming_trace ++ [ev_binance_close 0])
             (constructed sample_calendar)); [apply reachable_constructed|].
    vm_compute. reflexivity.
  - split; [vm_compute; reflexivity|]. apply Hconn. vm_compute. discriminate.
Defined.

(** ** The registry *)

Lemma sends_to_registry (ws : nat) : sends_to (same registry) ws.
Proof.
  intros frames frame w Hs. unfold same, registry. cbn. f_equal.
  rewrite fmap_insert. apply insert_id. rewrite lookup_fmap, Hs. reflexivity.
Qed.

Lemma set_add_elem (x y : nat) (l : list nat) : y ∈ set_add x l <-> y ∈ l \/ y = x.
Proof.
  unfold set_add. destruct (bool_decide (x ∈ l)) eqn:Hx.
  - apply bool_decide_eq_true in Hx. split; [auto|]. intros [?| ->]; assumption.
  - rewrite elem_of_app, list_elem_of_singleton. reflexivity.
Qed.

Lemma set_delete_elem (x y : nat) (l : list nat) : y ∈ set_delete x l <-> y ∈ l /\ y <> x.
Proof. unfold set_delete. rewrite list_elem_of_filter. tauto. Qed.

Section Registry.
Context `{rt : Runtime}.

Lemma step_registry (w w' : World) (e : Event) :
  (forall c, c ∈ clients w <->
             exists st, (readyState <$> sockets w) !! c = Some st /\ st <> CLOSED) ->
  step w e w' ->
  forall c, c ∈ clients w' <->
            exists st, (readyState <$> sockets w') !! c = Some st /\ st <> CLOSED.
Proof.
  intros Hinv Hstep.
  assert (Hquiet : event_writes e (same registry) ->
            forall c, c ∈ clients w' <->
                      exists st, (readyState <$> sockets w') !! c = Some st /\ st <> CLOSED).
  { intros Hwrites.
    pose proof (step_event_writes _ _ _ Hwrites Hstep) as Heq.
    unfold same, registry in Heq. injection Heq as Hc Hs. rewrite Hc, Hs. exact Hinv. }
  destruct e;
    try (apply Hquiet; cbn [event_writes]; repeat split;
         first [apply sends_to_registry | same_side]);
    unfold step in Hstep; cbn [react] in Hstep.
  - destruct (sockets w !! ws) eqn:Hs; [discriminate|]. apply (inj Some) in Hstep.
    injection Hstep as <-. intros c. cbn. rewrite set_add_elem, Hinv, fmap_insert.
    destruct (decide (c = ws)) as [->|Hne].
    + rewrite lookup_insert_eq. split; [|auto]. intros _. eexists. split; [reflexivity|].
      discriminate.
    + rewrite lookup_insert_ne by congruence. split; [intros [?|?]; [assumption|contradiction]|auto].
  - destruct (sockets w !! ws) as [s|] eqn:Hs; [|discriminate].
    destruct (readyState s) eqn:Hstate; try discriminate. apply (inj Some) in Hstep.
    injection Hstep as <-. intros c. cbn. rewrite Hinv, fmap_insert.
    destruct (decide (c = ws)) as [->|Hne].
    + rewrite lookup_insert_eq, lookup_fmap, Hs. cbn. rewrite Hstate.
      split; intros _; eexists; (split; [reflexivity|discriminate]).
    + rewrite lookup_insert_ne by congruence. reflexivity.
  - destruct (sockets w !! ws) as [s|] eqn:Hs; [|discriminate].
    assert (Hrun : readyState s <> CLOSED ->
              w' = set_clients (set_delete ws (clients w))
                     (set_console (console w ++ [console_log "Client disconnected"])
                        (set_sockets (<[ws := set_readyState CLOSED s]> (sockets w)) w))).
    { intros Hlive. destruct (readyState s); try contradiction;
        apply (inj Some) in Hstep; injection Hstep as <-; reflexivity. }
    destruct (decide (readyState s = CLOSED)) as [Hclosed|Hlive].
    { rewrite Hclosed in Hstep. discriminate. }
    rewrite (Hrun Hlive). intros c. cbn. rewrite set_delete_elem, Hinv, fmap_insert.
    destruct (decide (c = ws)) as [->|Hne].
    + rewrite lookup_insert_eq. cbn. split; [intros [_ []]; reflexivity|].
      intros (st & [= <-] & Hst). contradiction.
    + rewrite lookup_insert_ne by congruence. split; [intros [? _]; assumption|auto].
Qed.

End Registry.

Lemma reachable_registry `{rt : Runtime} (w : World) :
  reachable w ->
  forall c,
    c ∈ clients w <-> exists s, sockets w !! c = Some s /\ readyState s <> CLOSED.
Proof.
  intros Hreach.
  assert (Hinv : forall c, c ∈ clients w <->
                   exists st, (readyState <$> sockets w) !! c = Some st /\ st <> CLOSED).
  { induction Hreach as [cal|w w' e _ IH Hstep].
    - intros c. cbn. rewrite fmap_empty, lookup_empty. split; [inversion 1|].
      intros (st & Hst & _). discriminate.
    - exact (step_registry _ _ _ IH Hstep). }
  intros c. rewrite Hinv, lookup_fmap. destruct (sockets w !! c) as [s|]; cbn.
  - split; intros (x & [= <-] & Hx); eauto.
  - split; intros (x & Hx & _); discriminate.
Qed.

(** X20. The registry holds exactly the client sockets that have connected
    and have not closed.  Every connected client is registered, so that a
    broadcast reaches it while its socket is open, whether or not it ever
    subscribed; and a client that has closed is registered no more, so the
    registry does not grow with clients that have gone.  No socket is
    registered twice. *)
Theorem registry_is_the_sockets_not_closed `{rt : Runtime} (w : World) :
  reachable w ->
  (forall c,
     c ∈ clients w <-> exists s, sockets w !! c = Some s /\ readyState s <> CLOSED)
  /\ NoDup (clients w).
Proof.
  intros Hreach. split; [apply reachable_registry, Hreach|].
  apply reachable_clients_NoDup, Hreach.
Qed.

Lemma registry_is_the_sockets_not_closed_witness :
  clients (after (streaming_trace ++ [ev_client_closing 7; ev_client_close 8])) = [7%nat]
  /\ (exists s, sockets (after (streaming_trace ++ [ev_client_closing 7; ev_client_close 8]))
                  !! 7%nat = Some s /\ readyState s <> CLOSED)
  /\ readyState <$> sockets (after (streaming_trace
                                      ++ [ev_client_closing 7; ev_client_close 8])) !! 8%nat
     = Some CLOSED.
Proof.
  destruct (registry_is_the_sockets_not_closed (rt := reference_runtime)
              (after (streaming_trace ++ [ev_client_closing 7; ev_client_close 8])))
    as [Hregistry _].
  - apply (run_reachable (rt := reference_runtime)
             (streaming_trace ++ [ev_client_closing 7; ev_client_close 8])
             (constructed sample_calendar)); [apply reachable_constructed|].
    vm_compute. reflexivity.
  - split; [vm_compute; reflexivity|]. split; [|vm_compute; reflexivity].
    apply Hregistry. apply (bool_decide_unpack _). vm_compute. exact I.
Defined.

(** ** [cleanup] in the worlds the server reaches *)

Lemma filter_some {A : Type} (P : A -> Prop) `{!forall x, Decision (P x)}
    (l : list A) (i : nat) (x : A) :
  l !! i = Some x -> P x -> (0 < length (filter P l))%nat.
Proof.
  intros Hi Hx.
  assert (Hin : x ∈ filter P l).
  { apply list_elem_of_filter. split; [exact Hx|]. apply list_elem_of_lookup. eauto. }
  destruct (filter P l); [inversion Hin|cbn; lia].
Qed.

Lemma filter_empty_none {A : Type} (P : A -> Prop) `{!forall x, Decision (P x)}
    (l : list A) (i : nat) (x : A) :
  length (filter P l) = 0%nat -> l !! i = Some x -> ~ P x.
Proof.
  intros Hnone Hi Hx. pose proof (filter_some P l i x Hi Hx). lia.
Qed.

Section Current.
Context `{rt : Runtime}.

Lemma step_current_ok (w w' : World) (e : Event) :
  links_ok w -> current_ok w -> step w e w' -> current_ok w'.
Proof.
  intros Hlinks Hcur Hstep.
  set (view := fun w => (upstreams w, binanceWs w)).
  assert (Hsame : view w' = view w -> current_ok w').
  { intros [= Hu Hb]. unfold current_ok. rewrite Hu, Hb. exact Hcur. }
  assert (Hquiet : event_writes e (same view) -> current_ok w').
  { intros Hwrites. apply Hsame. exact (step_event_writes _ _ _ Hwrites Hstep). }
  destruct e; try (apply Hquiet; cbn [event_writes]; repeat split; same_side).
  - unfold step in Hstep. cbn [react] in Hstep.
    destruct Hlinks as [_ Hlinks].
    destruct (solanaConnection w) eqn:Hconn; [discriminate|]. apply (inj Some) in Hstep.
    destruct (initialize_timers _ _ _ _ Hstep) as (_ & _ & Hu & Hb).
    destruct Hlinks as [Hnone _]. rewrite Hnone in Hu, Hb.
    intros i u. rewrite Hu, Hb. intros Hi _. f_equal.
    apply lookup_lt_Some in Hi. cbn in Hi |- *. lia.
  - destruct (open_step _ _ _ Hstep) as (u & Hu & Hstate & Hups & _).
    assert (Hb : binanceWs w' = binanceWs w).
    { unfold step in Hstep. cbn [react] in Hstep. rewrite Hu, Hstate in Hstep.
      injection Hstep as <-. reflexivity. }
    intros k u'. rewrite Hups, Hb. destruct (decide (k = i)) as [->|Hne].
    + intros _ _. apply (Hcur i u Hu). rewrite Hstate. discriminate.
    + rewrite list_lookup_insert_ne by congruence. apply Hcur.
  - destruct (close_step _ _ _ Hstep) as (u & Hu & Hlive & Hups & _).
    assert (Hb : binanceWs w' = binanceWs w).
    { unfold step in Hstep. cbn [react] in Hstep. rewrite Hu in Hstep.
      destruct (state u); try contradiction; injection Hstep as <-; reflexivity. }
    intros k u'. rewrite Hups, Hb. destruct (decide (k = i)) as [->|Hne].
    + rewrite list_lookup_insert_eq by (apply lookup_lt_Some in Hu; exact Hu).
      intros [= <-]. cbn. contradiction.
    + rewrite list_lookup_insert_ne by congruence. apply Hcur.
  - destruct (timer_step _ _ _ _ Hstep) as (t & Ht & Hrun).
    destruct (decide (is_reconnect t)) as [Hre|Hother].
    + destruct (reconnect_step _ _ _ _ _ Hlinks Ht Hre Hstep) as (u0 & _ & _ & _ & _).
      destruct Hlinks as [Hrep Hcount].
      rewrite (proj1 (Forall_lookup _ _) Hrep j t Ht Hre) in Hrun.
      unfold is_reconnect in Hre. rewrite Hre in Hrun. cbn [run_callback] in Hrun.
      rewrite startBinanceWebSockets_run in Hrun. injection Hrun as <-.
      assert (Hdead : live w = 0%nat).
      { destruct (solanaConnection w).
        - pose proof (filter_some is_reconnect (timers w) j t Ht Hre) as Hpending.
          unfold pending in Hcount. lia.
        - destruct Hcount as [_ Hnone]. rewrite Hnone in Ht. discriminate. }
      intros k u'. cbn. intros Hk Hlive. f_equal.
      destruct (decide (k < length (upstreams w))%nat) as [Hlt|Hge].
      * rewrite lookup_app_l in Hk by exact Hlt.
        exfalso. exact (filter_empty_none is_live _ _ _ Hdead Hk Hlive).
      * apply lookup_lt_Some in Hk. rewrite length_app in Hk. cbn in Hk. lia.
    + apply Hsame.
      assert (Hframe : keeps (same view) (run_callback (callback t) rpc)).
      { unfold is_reconnect in Hother.
        destruct (callback t); [contradiction|..]; cbn [run_callback].
        - apply keeps_startSerumWebSockets; same_side.
        - apply keeps_updateAllSerumPrices; same_side. }
      rewrite (keeps_Ok _ _ _ _ _ Hframe Hrun). destruct (repeating t); reflexivity.
Qed.

Lemma reachable_current_ok (w : World) : reachable w -> current_ok w.
Proof.
  induction 1 as [cal|w w' e Hreach IH Hstep].
  - intros i u Hi. cbn in Hi. discriminate.
  - exact (step_current_ok _ _ _ (reachable_links_ok _ Hreach) IH Hstep).
Qed.

End Current.

(** X21. In every world the server reaches, [cleanup()] leaves nothing
    open: afterwards every client socket and every socket to the exchange is
    closing or closed.  The registry misses no client socket that has not
    closed, and the socket to the exchange that has not closed, if there is
    one, is the one [binanceWs] holds. *)
Theorem cleanup_leaves_nothing_open `{rt : Runtime} (w : World) :
  reachable w ->
  exists w',
    cleanup w = Ok tt w'
    /\ (forall c s, sockets w' !! c = Some s ->
                    readyState s = CLOSING \/ readyState s = CLOSED)
    /\ (forall i u, upstreams w' !! i = Some u -> state u = CLOSING \/ state u = CLOSED).
Proof.
  intros Hreach. rewrite cleanup_eq. eexists. split; [reflexivity|]. split.
  - intros c s. cbn [sockets set_sockets]. rewrite closing_all_lookup.
    destruct (decide (c ∈ clients w)) as [Hin|Hout].
    + destruct (sockets w !! c) as [[[] frames]|]; cbn; intros [= <-]; cbn; auto.
    + intros Hs. right. destruct (decide (readyState s = CLOSED)) as [|Hlive]; [assumption|].
      exfalso. apply Hout. apply (reachable_registry w Hreach). eauto.
  - pose proof (reachable_current_ok w Hreach) as Hcur.
    intros i u. cbn [upstreams set_sockets].
    destruct (binanceWs w) as [k|] eqn:Hws; cbn [upstreams set_upstreams].
    + destruct (decide (i = k)) as [->|Hne].
      * rewrite list_lookup_alter_eq. destruct (upstreams w !! k) as [u0|]; [|discriminate].
        cbn. intros [= <-]. cbn. destruct (state u0); cbn; auto.
      * rewrite list_lookup_alter_ne by congruence. intros Hi.
        destruct (decide (state u = CLOSED)) as [|Hlive]; [auto|].
        specialize (Hcur i u Hi Hlive). congruence.
    + intros Hi. destruct (decide (state u = CLOSED)) as [|Hlive]; [auto|].
      specialize (Hcur i u Hi Hlive). congruence.
Qed.

Lemma cleanup_leaves_nothing_open_witness :
  exists w',
    cleanup sample_streaming = Ok tt w'
    /\ readyState <$> sockets sample_streaming !! 7%nat = Some OPEN
    /\ readyState <$> sockets w' !! 7%nat = Some CLOSING
    /\ state <$> upstreams sample_streaming !! 0%nat = Some OPEN
    /\ state <$> upstreams w' !! 0%nat = Some CLOSING.
Proof.
  destruct (cleanup_leaves_nothing_open (rt := reference_runtime) sample_streaming)
    as (w' & Hrun & _ & _).
  - apply (run_reachable (rt := reference_runtime) streaming_trace
             (constructed sample_calendar)); [apply reachable_constructed|].
    vm_compute. reflexivity.
  - exists w'. split; [exact Hrun|]. vm_compute in Hrun. injection Hrun as <-.
    repeat split; vm_compute; reflexivity.
Defined.
